(** * Group lending ledger: the state transitions of [LendingApp.tsx]

    A shallow embedding of the ledger engine of the group-lending
    application: the [LendingState] held by the [LendingApp] component, the
    commands it passes to its dashboards ([registerUser], [depositCapital],
    [withdrawCapital], [requestLoan], [approveLoan], [recordPayment],
    [systemReset], [switchUser]), the periodic [updateOverdueLoans] sweep,
    and the input validation done by the dashboards' form handlers.

    Conventions of the embedding.
    - The code computes with JavaScript [number]s, the binary64 values of
      IEEE 754.  The module [Binary64] embeds the ledger with exactly those
      numbers ([spec_float] at precision 53, rounding to nearest, ties to
      even); every statement that depends on how a sum, a difference or a
      product rounds is made there.  The first part of the development
      takes a number holding money as an exact rational ([Q], compared
      with [==], the equality of fractions) and is kept for the statements
      about roles, records, statuses, flags and dates, which do not depend
      on rounding.
    - A [Date] is its time value (milliseconds since the epoch, [Z]); the
      clock reading [new Date()] / [Date.now()] of a command is the
      explicit argument [now].
    - The component state is threaded explicitly; a command returns
      [Done s'] (the state after the [setState] call, or the unchanged
      state after a silent [return]) or [Throw msg] (an [Error] was thrown
      and no state was committed). *)

From Stdlib Require Import QArith ZArith String List Bool DecimalString Lqa Lia.
From Stdlib Require Import SpecFloat.
Import ListNotations.

Local Open Scope Q_scope.

(** ** Numbers, dates and identifiers *)

Abbreviation number := Q.
Abbreviation Date := Z.

(** [a > b], [a < b] and [a <= b] on numbers. *)
Definition gt (a b : number) : bool := negb (Qle_bool a b).
Definition lt (a b : number) : bool := negb (Qle_bool b a).
Definition le (a b : number) : bool := Qle_bool a b.

(** [Math.min(a, b)]. *)
Definition Math_min (a b : number) : number := if Qle_bool a b then a else b.

(** [Date.now().toString()]: the decimal rendering of the clock reading. *)
Definition Date_now_toString (now : Date) : string :=
  NilZero.string_of_int (Z.to_int now).

(** The two calendar operations the code performs on a [Date]:
    [d.setDate(d.getDate() + 7)] and [d.setMonth(d.getMonth() + 1)]. They
    belong to the JavaScript runtime, so they are an interface here. *)
Class Calendar := {
  addWeek : Date -> Date;
  addMonth : Date -> Date
}.

Definition MAX_BORROWERS : nat := 19.
Definition MAX_LOAN_AMOUNT : number := 1000.
Definition WEEKLY_INTEREST_RATE : number := 2 # 100.
Definition MONTHLY_INTEREST_RATE : number := 6 # 100.

(** ** The data model ([types/lending]) *)

Inductive Role := lender | borrower.
Inductive LoanStatus := pending | approved | rejected.
Inductive PaymentSchedule := weekly | monthly.
Inductive PaymentMethod := cash | bank | card | mobile.

Definition Role_eqb (a b : Role) : bool :=
  match a, b with
  | lender, lender | borrower, borrower => true
  | _, _ => false
  end.

Definition LoanStatus_eqb (a b : LoanStatus) : bool :=
  match a, b with
  | pending, pending | approved, approved | rejected, rejected => true
  | _, _ => false
  end.

Module User.
Record t := mk {
  id : string;
  name : string;
  role : Role;
  joinedAt : Date
}.
End User.

Module Capital.
Record t := mk {
  id : string;
  lenderId : string;
  amount : number;
  addedAt : Date
}.
End Capital.

Module Loan.
Record t := mk {
  id : string;
  borrowerId : string;
  borrowerName : string;
  amount : number;
  interestRate : number;
  paymentSchedule : PaymentSchedule;
  status : LoanStatus;
  requestedAt : Date;
  approvedAt : option Date;
  dueDate : option Date;
  totalDue : number;
  principalPaid : number;
  interestPaid : number;
  isOverdue : bool;
  overdueInterestApplied : bool
}.

(** The object spreads [{ ...l, field: v }] used by the code. *)
Definition with_status (v : LoanStatus) (l : t) : t :=
  mk (id l) (borrowerId l) (borrowerName l) (amount l) (interestRate l)
     (paymentSchedule l) v (requestedAt l) (approvedAt l) (dueDate l)
     (totalDue l) (principalPaid l) (interestPaid l) (isOverdue l)
     (overdueInterestApplied l).

Definition with_approvedAt (v : option Date) (l : t) : t :=
  mk (id l) (borrowerId l) (borrowerName l) (amount l) (interestRate l)
     (paymentSchedule l) (status l) (requestedAt l) v (dueDate l)
     (totalDue l) (principalPaid l) (interestPaid l) (isOverdue l)
     (overdueInterestApplied l).

Definition with_dueDate (v : option Date) (l : t) : t :=
  mk (id l) (borrowerId l) (borrowerName l) (amount l) (interestRate l)
     (paymentSchedule l) (status l) (requestedAt l) (approvedAt l) v
     (totalDue l) (principalPaid l) (interestPaid l) (isOverdue l)
     (overdueInterestApplied l).

Definition with_totalDue (v : number) (l : t) : t :=
  mk (id l) (borrowerId l) (borrowerName l) (amount l) (interestRate l)
     (paymentSchedule l) (status l) (requestedAt l) (approvedAt l)
     (dueDate l) v (principalPaid l) (interestPaid l) (isOverdue l)
     (overdueInterestApplied l).

Definition with_principalPaid (v : number) (l : t) : t :=
  mk (id l) (borrowerId l) (borrowerName l) (amount l) (interestRate l)
     (paymentSchedule l) (status l) (requestedAt l) (approvedAt l)
     (dueDate l) (totalDue l) v (interestPaid l) (isOverdue l)
     (overdueInterestApplied l).

Definition with_interestPaid (v : number) (l : t) : t :=
  mk (id l) (borrowerId l) (borrowerName l) (amount l) (interestRate l)
     (paymentSchedule l) (status l) (requestedAt l) (approvedAt l)
     (dueDate l) (totalDue l) (principalPaid l) v (isOverdue l)
     (overdueInterestApplied l).

Definition with_isOverdue (v : bool) (l : t) : t :=
  mk (id l) (borrowerId l) (borrowerName l) (amount l) (interestRate l)
     (paymentSchedule l) (status l) (requestedAt l) (approvedAt l)
     (dueDate l) (totalDue l) (principalPaid l) (interestPaid l) v
     (overdueInterestApplied l).

Definition with_overdueInterestApplied (v : bool) (l : t) : t :=
  mk (id l) (borrowerId l) (borrowerName l) (amount l) (interestRate l)
     (paymentSchedule l) (status l) (requestedAt l) (approvedAt l)
     (dueDate l) (totalDue l) (principalPaid l) (interestPaid l)
     (isOverdue l) v.
End Loan.

Module Payment.
Record t := mk {
  id : string;
  loanId : string;
  borrowerId : string;
  amount : number;
  method : PaymentMethod;
  paidAt : Date;
  principalAmount : number;
  interestAmount : number
}.
End Payment.

Record LendingState := mkState {
  users : list User.t;
  capital : list Capital.t;
  loans : list Loan.t;
  payments : list Payment.t;
  currentUser : option User.t
}.

Definition with_users (v : list User.t) (s : LendingState) : LendingState :=
  mkState v (capital s) (loans s) (payments s) (currentUser s).
Definition with_capital (v : list Capital.t) (s : LendingState) : LendingState :=
  mkState (users s) v (loans s) (payments s) (currentUser s).
Definition with_loans (v : list Loan.t) (s : LendingState) : LendingState :=
  mkState (users s) (capital s) v (payments s) (currentUser s).
Definition with_payments (v : list Payment.t) (s : LendingState) : LendingState :=
  mkState (users s) (capital s) (loans s) v (currentUser s).
Definition with_currentUser (v : option User.t) (s : LendingState) : LendingState :=
  mkState (users s) (capital s) (loans s) (payments s) v.

(** The state [useState] starts from. *)
Definition initialState : LendingState := mkState [] [] [] [] None.

(** The result of a command. *)
Inductive outcome :=
| Done (s : LendingState)
| Throw (msg : string).

(** ** The commands of [LendingApp] *)

Definition interestRateOf (paymentSchedule : PaymentSchedule) : number :=
  match paymentSchedule with
  | weekly => WEEKLY_INTEREST_RATE
  | monthly => MONTHLY_INTEREST_RATE
  end.

(** The callback of [prevState.loans.map] in [updateOverdueLoans]. *)
Definition sweepLoan (now : Date) (loan : Loan.t) : Loan.t :=
  if LoanStatus_eqb (Loan.status loan) approved
     && match Loan.dueDate loan with
        | Some dueDate => (now >? dueDate)%Z
        | None => false
        end
  then
    let wasOverdue := Loan.isOverdue loan in
    let newLoan := Loan.with_isOverdue true loan in
    if negb wasOverdue && negb (Loan.overdueInterestApplied loan) then
      let remainingBalance :=
        Loan.totalDue loan - Loan.principalPaid loan - Loan.interestPaid loan in
      let overdueInterest :=
        remainingBalance * interestRateOf (Loan.paymentSchedule loan) in
      Loan.with_overdueInterestApplied true
        (Loan.with_totalDue (Loan.totalDue newLoan + overdueInterest) newLoan)
    else newLoan
  else loan.

Definition updateOverdueLoans (now : Date) (s : LendingState) : LendingState :=
  with_loans (map (sweepLoan now) (loans s)) s.

Definition countRole (r : Role) (us : list User.t) : nat :=
  length (filter (fun u => Role_eqb (User.role u) r) us).

Definition registerUser (now : Date) (s : LendingState)
    (name : string) (role : Role) : outcome :=
  let borrowerCount := countRole borrower (users s) in
  let lenderCount := countRole lender (users s) in
  if Role_eqb role borrower && (MAX_BORROWERS <=? borrowerCount)%nat then
    Throw "Maximum 19 borrowers allowed"
  else if Role_eqb role lender && (1 <=? lenderCount)%nat then
    Throw "Only one lender allowed"
  else
    let newUser := User.mk (Date_now_toString now) name role now in
    Done (with_currentUser (Some newUser)
            (with_users (users s ++ [newUser]) s)).

(** [state.capital.reduce((sum, cap) => sum + cap.amount, 0)]. *)
Definition totalCapital (s : LendingState) : number :=
  fold_left (fun sum cap => sum + Capital.amount cap) (capital s) 0.

(** [state.loans.filter(loan => loan.status === 'approved')
      .reduce((sum, loan) => sum + loan.amount, 0)]. *)
Definition totalLoaned (s : LendingState) : number :=
  fold_left (fun sum loan => sum + Loan.amount loan)
    (filter (fun loan => LoanStatus_eqb (Loan.status loan) approved) (loans s))
    0.

(** [const availableCapital = totalCapital - totalLoaned], computed the same
    way in [withdrawCapital], in [approveLoan] and in the lender dashboard. *)
Definition availableCapital (s : LendingState) : number :=
  totalCapital s - totalLoaned s.

Definition isLender (s : LendingState) : bool :=
  match currentUser s with
  | Some u => Role_eqb (User.role u) lender
  | None => false
  end.

Definition isBorrower (s : LendingState) : bool :=
  match currentUser s with
  | Some u => Role_eqb (User.role u) borrower
  | None => false
  end.

Definition currentUserId (s : LendingState) : string :=
  match currentUser s with
  | Some u => User.id u
  | None => EmptyString
  end.

Definition currentUserName (s : LendingState) : string :=
  match currentUser s with
  | Some u => User.name u
  | None => EmptyString
  end.

Definition depositCapital (now : Date) (s : LendingState)
    (amount : number) : outcome :=
  if negb (isLender s) then Done s
  else
    let newCapital :=
      Capital.mk (Date_now_toString now) (currentUserId s) amount now in
    Done (with_capital (capital s ++ [newCapital]) s).

Definition withdrawCapital (now : Date) (s : LendingState)
    (amount : number) : outcome :=
  if negb (isLender s) then Done s
  else if gt amount (availableCapital s) then
    Throw "Insufficient available capital"
  else
    let newCapital :=
      Capital.mk (Date_now_toString now) (currentUserId s) (- amount) now in
    Done (with_capital (capital s ++ [newCapital]) s).

(** [loan.status === 'pending' || loan.status === 'approved'] for a loan of
    the given borrower: the "active loan" test of [requestLoan]. *)
Definition isActiveLoanOf (borrowerId : string) (loan : Loan.t) : bool :=
  String.eqb (Loan.borrowerId loan) borrowerId
  && (LoanStatus_eqb (Loan.status loan) pending
      || LoanStatus_eqb (Loan.status loan) approved).

Definition requestLoan (now : Date) (s : LendingState)
    (amount : number) (paymentSchedule : PaymentSchedule) : outcome :=
  if negb (isBorrower s) then Done s
  else if gt amount MAX_LOAN_AMOUNT then
    Throw "Maximum loan amount is $1000"
  else
    let hasActiveLoan := existsb (isActiveLoanOf (currentUserId s)) (loans s) in
    if hasActiveLoan then Throw "You already have an active loan"
    else
      let interestRate := interestRateOf paymentSchedule in
      let totalDue := amount + (amount * interestRate) in
      let newLoan :=
        Loan.mk (Date_now_toString now) (currentUserId s) (currentUserName s)
          amount interestRate paymentSchedule pending now None None
          totalDue 0 0 false false in
      Done (with_loans (loans s ++ [newLoan]) s).

Definition findLoan (loanId : string) (ls : list Loan.t) : option Loan.t :=
  find (fun l => String.eqb (Loan.id l) loanId) ls.

(** The due date one schedule period after [now]. *)
Definition nextDueDate {cal : Calendar} (now : Date)
    (paymentSchedule : PaymentSchedule) : Date :=
  match paymentSchedule with
  | weekly => addWeek now
  | monthly => addMonth now
  end.

Definition approveLoan {cal : Calendar} (now : Date) (s : LendingState)
    (loanId : string) (approve : bool) : outcome :=
  if negb (isLender s) then Done s
  else
    match findLoan loanId (loans s) with
    | None => Done s
    | Some loan =>
        if approve then
          if gt (Loan.amount loan) (availableCapital s) then
            Throw "Insufficient capital to approve loan"
          else
            let dueDate := nextDueDate now (Loan.paymentSchedule loan) in
            Done (with_loans
                    (map (fun l =>
                            if String.eqb (Loan.id l) loanId
                            then Loan.with_dueDate (Some dueDate)
                                   (Loan.with_approvedAt (Some now)
                                      (Loan.with_status approved l))
                            else l)
                         (loans s))
                    s)
        else
          Done (with_loans
                  (map (fun l =>
                          if String.eqb (Loan.id l) loanId
                          then Loan.with_status rejected l
                          else l)
                       (loans s))
                  s)
    end.

(** The interest still owed on a loan, as [recordPayment] computes it. *)
Definition remainingInterest (loan : Loan.t) : number :=
  (Loan.amount loan * Loan.interestRate loan) - Loan.interestPaid loan
  + (if Loan.overdueInterestApplied loan
     then Loan.amount loan * Loan.interestRate loan
     else 0).

Definition recordPayment {cal : Calendar} (now : Date) (s : LendingState)
    (loanId : string) (amount : number) (method : PaymentMethod) : outcome :=
  if negb (isBorrower s) then Done s
  else
    match findLoan loanId (loans s) with
    | None => Done s
    | Some loan =>
        if negb (LoanStatus_eqb (Loan.status loan) approved) then Done s
        else
          let remainingBalance :=
            Loan.totalDue loan - Loan.principalPaid loan - Loan.interestPaid loan in
          if gt amount remainingBalance then
            Throw "Payment amount exceeds remaining balance"
          else
            let interestAmount := Math_min amount (remainingInterest loan) in
            let principalAmount := amount - interestAmount in
            let newPayment :=
              Payment.mk (Date_now_toString now) loanId (currentUserId s)
                amount method now principalAmount interestAmount in
            let updatedLoan :=
              Loan.with_interestPaid (Loan.interestPaid loan + interestAmount)
                (Loan.with_principalPaid
                   (Loan.principalPaid loan + principalAmount) loan) in
            let updatedLoan :=
              if lt (Loan.principalPaid updatedLoan
                     + Loan.interestPaid updatedLoan)
                    (Loan.totalDue updatedLoan)
              then
                Loan.with_overdueInterestApplied false
                  (Loan.with_isOverdue false
                     (Loan.with_dueDate
                        (Some (nextDueDate now (Loan.paymentSchedule loan)))
                        updatedLoan))
              else updatedLoan in
            Done (with_payments (payments s ++ [newPayment])
                    (with_loans
                       (map (fun l =>
                               if String.eqb (Loan.id l) loanId
                               then updatedLoan else l)
                            (loans s))
                       s))
    end.

Definition systemReset (s : LendingState) : outcome :=
  match currentUser s with
  | None => Done s
  | Some u =>
      if negb (Role_eqb (User.role u) lender) then Done s
      else Done (mkState [u] [] [] [] (Some u))
  end.

Definition switchUser (s : LendingState) (userId : string) : LendingState :=
  match find (fun u => String.eqb (User.id u) userId) (users s) with
  | Some user => with_currentUser (Some user) s
  | None => s
  end.

(** ** The dashboards' form handlers

    The dashboards are the only callers of the commands.  Their submit
    handlers take the number parsed from the form field, refuse it when it
    is not positive ([isNaN(amount) || amount <= 0]), and otherwise call the
    command; an [Error] thrown on the way is shown to the user and no state
    is committed. *)

Definition handleDeposit (now : Date) (s : LendingState)
    (amount : number) : outcome :=
  if le amount 0 then Throw "Please enter a valid amount"
  else depositCapital now s amount.

Definition handleWithdraw (now : Date) (s : LendingState)
    (amount : number) : outcome :=
  if le amount 0 then Throw "Please enter a valid amount"
  else withdrawCapital now s amount.

Definition handleLoanRequest (now : Date) (s : LendingState)
    (amount : number) (paymentSchedule : PaymentSchedule) : outcome :=
  if le amount 0 then Throw "Please enter a valid amount"
  else if gt amount 1000 then Throw "Maximum loan amount is $1000"
  else requestLoan now s amount paymentSchedule.

Definition handlePayment {cal : Calendar} (now : Date) (s : LendingState)
    (loanId : string) (amount : number) (method : PaymentMethod) : outcome :=
  if le amount 0 then Throw "Please enter a valid payment amount"
  else recordPayment now s loanId amount method.

Definition handleLoanAction {cal : Calendar} (now : Date) (s : LendingState)
    (loanId : string) (approve : bool) : outcome :=
  approveLoan now s loanId approve.

(** ** Commands and reachable states *)

(** What can happen to the ledger: a form submitted in a dashboard, a
    registration, a user switch, or a tick of the one-minute timer. The
    registration form's own checks on the name are not modelled: any name
    reaches [registerUser]. *)
Inductive Command :=
| RegisterUser (name : string) (role : Role)
| SwitchUser (userId : string)
| DepositCapital (amount : number)
| WithdrawCapital (amount : number)
| RequestLoan (amount : number) (paymentSchedule : PaymentSchedule)
| DecideLoan (loanId : string) (approve : bool)
| RecordPayment (loanId : string) (amount : number) (method : PaymentMethod)
| SystemReset
| OverdueSweep.

Definition dispatch {cal : Calendar} (now : Date) (c : Command)
    (s : LendingState) : outcome :=
  match c with
  | RegisterUser name role => registerUser now s name role
  | SwitchUser userId => Done (switchUser s userId)
  | DepositCapital amount => handleDeposit now s amount
  | WithdrawCapital amount => handleWithdraw now s amount
  | RequestLoan amount paymentSchedule =>
      handleLoanRequest now s amount paymentSchedule
  | DecideLoan loanId approve => handleLoanAction now s loanId approve
  | RecordPayment loanId amount method =>
      handlePayment now s loanId amount method
  | SystemReset => systemReset s
  | OverdueSweep => Done (updateOverdueLoans now s)
  end.

(** A script of commands, each with the clock reading it runs at; the run
    stops at the first command that throws. *)
Fixpoint run {cal : Calendar} (script : list (Date * Command))
    (s : LendingState) : outcome :=
  match script with
  | [] => Done s
  | (now, c) :: rest =>
      match dispatch now c s with
      | Done s' => run rest s'
      | Throw msg => Throw msg
      end
  end.

(** Identifiers are clock readings, so a new loan gets a fresh identifier
    only if no loan was requested at the same millisecond: the code relies
    on this, and so does reachability. *)
Definition freshLoanId (now : Date) (c : Command) (s : LendingState) : Prop :=
  match c with
  | RequestLoan _ _ => ~ In (Date_now_toString now) (map Loan.id (loans s))
  | _ => True
  end.

Inductive reachable {cal : Calendar} : LendingState -> Prop :=
| reachable_init : reachable initialState
| reachable_step (now : Date) (c : Command) (s s' : LendingState) :
    reachable s ->
    freshLoanId now c s ->
    dispatch now c s = Done s' ->
    reachable s'.

(** ** A concrete calendar and the scenarios of the specification *)

(** The calendar of a runtime whose local time is UTC, where a day has
    86400000 milliseconds.  [daysFromCivil] and [civilFromDays] convert
    between a date of the Gregorian calendar (year, month 1 to 12, day of
    the month) and its day number, day 0 being 1 January 1970. *)
Definition msPerDay : Z := 86400000%Z.

Definition daysFromCivil (y m d : Z) : Z :=
  (let y' := if m <=? 2 then y - 1 else y in
   let era := y' / 400 in
   let yoe := y' - era * 400 in
   let mp := (m + 9) mod 12 in
   let doy := (153 * mp + 2) / 5 + d - 1 in
   let doe := yoe * 365 + yoe / 4 - yoe / 100 + doy in
   era * 146097 + doe - 719468)%Z.

Definition civilFromDays (days : Z) : Z * Z * Z :=
  (let z := days + 719468 in
   let era := z / 146097 in
   let doe := z - era * 146097 in
   let yoe := (doe - doe / 1460 + doe / 36524 - doe / 146096) / 365 in
   let doy := doe - (365 * yoe + yoe / 4 - yoe / 100) in
   let mp := (5 * doy + 2) / 153 in
   let d := doy - (153 * mp + 2) / 5 + 1 in
   let m := if mp <? 10 then mp + 3 else mp - 9 in
   let y := yoe + era * 400 in
   (if m <=? 2 then y + 1 else y, m, d))%Z.

(** [d.setMonth(d.getMonth() + 1)]: the same day of the month and time of
    day in the month that follows; a day the next month does not have
    runs over into the month after it (31 January becomes 3 March). *)
Definition setNextMonth (d : Date) : Date :=
  (let '(y, m, day) := civilFromDays (d / msPerDay) in
   let '(y', m') := if m =? 12 then (y + 1, 1) else (y, m + 1) in
   (daysFromCivil y' m' 1 + (day - 1)) * msPerDay + d mod msPerDay)%Z.

Definition plainCalendar : Calendar :=
  {| addWeek := fun d => (d + 7 * msPerDay)%Z;
     addMonth := setNextMonth |}.

Definition stateOf (o : outcome) : LendingState :=
  match o with
  | Done s => s
  | Throw _ => initialState
  end.

(** Scenario A: Alice (lender) deposits 500, Bob (borrower) requests 300
    on the monthly schedule and Alice approves. *)
Definition scenarioA : list (Date * Command) :=
  [ (1000%Z, RegisterUser "Alice" lender);
    (2000%Z, DepositCapital 500);
    (3000%Z, RegisterUser "Bob" borrower);
    (4000%Z, RequestLoan 300 monthly);
    (5000%Z, SwitchUser "1000");
    (6000%Z, DecideLoan "4000" true) ].

(** Scenario B: Bob then pays 150 in cash. *)
Definition scenarioB : list (Date * Command) :=
  scenarioA ++
  [ (7000%Z, SwitchUser "3000");
    (8000%Z, RecordPayment "4000" 150 cash) ].

(** Scenario E: the sweep runs after the due date set by that payment. *)
Definition scenarioE : list (Date * Command) :=
  scenarioB ++ [ (2680000000%Z, OverdueSweep) ].

Definition stateA : LendingState :=
  stateOf (run (cal := plainCalendar) scenarioA initialState).
Definition stateB : LendingState :=
  stateOf (run (cal := plainCalendar) scenarioB initialState).
Definition stateE : LendingState :=
  stateOf (run (cal := plainCalendar) scenarioE initialState).

(** The state of scenario B seen from the lender's dashboard. *)
Definition stateB_lender : LendingState := switchUser stateB "1000".

(** Bob pays the 168 still due after scenario B: the loan is fully paid. *)
Definition scenarioPaid : list (Date * Command) :=
  scenarioB ++ [ (9000%Z, RecordPayment "4000" 168 cash) ].
Definition statePaid : LendingState :=
  stateOf (run (cal := plainCalendar) scenarioPaid initialState).

(** After scenario A nothing is paid, the due date passes, the sweep runs
    and Bob opens his dashboard. *)
Definition scenarioPastDue : list (Date * Command) :=
  scenarioA ++
  [ (2678410000%Z, OverdueSweep);
    (2678411000%Z, SwitchUser "3000") ].
Definition statePastDue : LendingState :=
  stateOf (run (cal := plainCalendar) scenarioPastDue initialState).

(** Alice rejects Bob's request instead of approving it. *)
Definition scenarioRejected : list (Date * Command) :=
  [ (1000%Z, RegisterUser "Alice" lender);
    (2000%Z, DepositCapital 500);
    (3000%Z, RegisterUser "Bob" borrower);
    (4000%Z, RequestLoan 300 monthly);
    (5000%Z, SwitchUser "1000");
    (6000%Z, DecideLoan "4000" false) ].
Definition stateRejected : LendingState :=
  stateOf (run (cal := plainCalendar) scenarioRejected initialState).

Definition alice : User.t := User.mk "1000" "Alice" lender 1000%Z.
Definition bob : User.t := User.mk "3000" "Bob" borrower 3000%Z.

(** Alice has registered and deposited; she is the acting user. *)
Definition stateAlice : LendingState :=
  stateOf (run (cal := plainCalendar)
             [ (1000%Z, RegisterUser "Alice" lender);
               (2000%Z, DepositCapital 500) ] initialState).

(** Bob registers while Alice is the acting user. *)
Definition stateBobJoined : LendingState :=
  stateOf (registerUser 3000%Z stateAlice "Bob" borrower).

(** The state of scenario A seen from Bob's dashboard. *)
Definition stateA_borrower : LendingState := switchUser stateA "3000".

(** Bob pays off the whole balance of the overdue loan, 337.08. *)
Definition statePaidOff : LendingState :=
  stateOf (handlePayment (cal := plainCalendar) 2678412000%Z statePastDue
             "4000" (33708 # 100) cash).

(** The loan of the scenarios, as a given state holds it. *)
Definition loanIn (s : LendingState) : Loan.t :=
  match findLoan "4000" (loans s) with
  | Some loan => loan
  | None =>
      Loan.mk "" "" "" 0 0 weekly rejected 0%Z None None 0 0 0 false false
  end.

(** The payment recorded last in a state. *)
Definition lastPayment (s : LendingState) : Payment.t :=
  last (payments s) (Payment.mk "" "" "" 0 cash 0%Z 0 0).

(** ** Sums and the specification's reading of available capital *)

Definition sumOf (xs : list number) : number := fold_right Qplus 0 xs.

Definition isApproved (loan : Loan.t) : bool :=
  LoanStatus_eqb (Loan.status loan) approved.

(** The outstanding principal of a loan in the words of the specification:
    its original amount minus the cumulative principal paid. *)
Definition outstandingPrincipal (loan : Loan.t) : number :=
  Loan.amount loan - Loan.principalPaid loan.

(** [AvailableCapital] in the words of the specification: the sum of the
    capital entries minus the outstanding principal of the approved loans,
    a loan being deployed only while its outstanding principal is positive. *)
Definition availableCapital_spec (s : LendingState) : number :=
  sumOf (map Capital.amount (capital s))
  - sumOf (map outstandingPrincipal
             (filter (fun loan => isApproved loan
                                  && lt 0 (outstandingPrincipal loan))
                     (loans s))).

(** The outstanding interest in the words of the specification, for a loan
    whose overdue bump [bump] (the amount the sweep added to [totalDue]) is
    still unpaid. *)
Definition outstandingInterest_spec (loan : Loan.t) (bump : number) : number :=
  (Loan.amount loan * Loan.interestRate loan) - Loan.interestPaid loan
  + (if Loan.overdueInterestApplied loan then bump else 0).

(** A loan that is overdue and already carries its overdue bump. *)
Definition bumped (loan : Loan.t) : Prop :=
  Loan.isOverdue loan = true /\ Loan.overdueInterestApplied loan = true.

(** A function on loans that leaves a bumped loan bumped and its total due
    as it is. *)
Definition keepsBump (f : Loan.t -> Loan.t) : Prop :=
  forall l : Loan.t,
    bumped l -> bumped (f l) /\ Loan.totalDue (f l) = Loan.totalDue l.

(** The loan is fully paid. *)
Definition fullyPaid (loan : Loan.t) : Prop :=
  Loan.principalPaid loan + Loan.interestPaid loan == Loan.totalDue loan.


Definition uniqueLoanIds (s : LendingState) : Prop :=
  NoDup (map Loan.id (loans s)).

Definition nonnegativeLoans (s : LendingState) : Prop :=
  Forall (fun loan => 0 <= Loan.amount loan) (loans s).

(** What one loan contributes to [totalLoaned]. *)
Definition loanedOf (loan : Loan.t) : number :=
  if isApproved loan then Loan.amount loan else 0.

(** The invariant of the capital ledger: loan identifiers are unique, no
    loan has a negative amount, and the available capital is not negative. *)
Definition ledgerInv (s : LendingState) : Prop :=
  uniqueLoanIds s /\ nonnegativeLoans s /\ 0 <= availableCapital s.

(** Every loan request of a script gets a fresh identifier. *)
Fixpoint freshAlong {cal : Calendar} (script : list (Date * Command))
    (s : LendingState) : Prop :=
  match script with
  | [] => True
  | (now, c) :: rest =>
      freshLoanId now c s /\
      match dispatch now c s with
      | Done s' => freshAlong rest s'
      | Throw _ => True
      end
  end.

Definition isRecordPayment (c : Command) : bool :=
  match c with
  | RecordPayment _ _ _ => true
  | _ => false
  end.

(** ** The steps of the ledger

    Every committed command changes the state in one of a few ways; the
    records and updates below are the ones the commands build. *)

Definition newUser (now : Date) (name : string) (role : Role) : User.t :=
  User.mk (Date_now_toString now) name role now.

Definition newCapital (now : Date) (s : LendingState)
    (amount : number) : Capital.t :=
  Capital.mk (Date_now_toString now) (currentUserId s) amount now.

Definition newLoan (now : Date) (s : LendingState) (amount : number)
    (paymentSchedule : PaymentSchedule) : Loan.t :=
  Loan.mk (Date_now_toString now) (currentUserId s) (currentUserName s)
    amount (interestRateOf paymentSchedule) paymentSchedule pending now
    None None (amount + (amount * interestRateOf paymentSchedule)) 0 0
    false false.

(** [loans.map(l => l.id === loanId ? g(l) : l)]. *)
Definition updateLoans (loanId : string) (g : Loan.t -> Loan.t)
    (ls : list Loan.t) : list Loan.t :=
  map (fun l => if String.eqb (Loan.id l) loanId then g l else l) ls.

(** What an approval writes into a loan with the decided identifier; the
    due date follows the schedule of the loan that was found. *)
Definition approveUpdate {cal : Calendar} (now : Date)
    (loan l : Loan.t) : Loan.t :=
  Loan.with_dueDate (Some (nextDueDate now (Loan.paymentSchedule loan)))
    (Loan.with_approvedAt (Some now) (Loan.with_status approved l)).

(** The [updatedLoan] of [recordPayment]. *)
Definition applyPayment {cal : Calendar} (now : Date) (amount : number)
    (loan : Loan.t) : Loan.t :=
  let interestAmount := Math_min amount (remainingInterest loan) in
  let principalAmount := amount - interestAmount in
  let updatedLoan :=
    Loan.with_interestPaid (Loan.interestPaid loan + interestAmount)
      (Loan.with_principalPaid
         (Loan.principalPaid loan + principalAmount) loan) in
  if lt (Loan.principalPaid updatedLoan + Loan.interestPaid updatedLoan)
        (Loan.totalDue updatedLoan)
  then
    Loan.with_overdueInterestApplied false
      (Loan.with_isOverdue false
         (Loan.with_dueDate
            (Some (nextDueDate now (Loan.paymentSchedule loan)))
            updatedLoan))
  else updatedLoan.

(** The [newPayment] of [recordPayment]. *)
Definition newPayment (now : Date) (s : LendingState) (loanId : string)
    (amount : number) (method : PaymentMethod) (loan : Loan.t) : Payment.t :=
  Payment.mk (Date_now_toString now) loanId (currentUserId s) amount method
    now
    (amount - Math_min amount (remainingInterest loan))
    (Math_min amount (remainingInterest loan)).

(** What is left to pay on a loan. *)
Definition remainingBalance (loan : Loan.t) : number :=
  Loan.totalDue loan - Loan.principalPaid loan - Loan.interestPaid loan.

(** The ways a command [c] submitted at time [now] can commit. *)
Inductive transition {cal : Calendar} (now : Date) (s : LendingState) :
  Command -> LendingState -> Prop :=
| step_none (c : Command) : transition now s c s
| step_register (name : string) (role : Role) :
    (role = borrower -> (countRole borrower (users s) < MAX_BORROWERS)%nat) ->
    (role = lender -> countRole lender (users s) = 0%nat) ->
    transition now s (RegisterUser name role)
      (with_currentUser (Some (newUser now name role))
         (with_users (users s ++ [newUser now name role]) s))
| step_switch (userId : string) (user : User.t) :
    find (fun u => String.eqb (User.id u) userId) (users s) = Some user ->
    transition now s (SwitchUser userId) (with_currentUser (Some user) s)
| step_deposit (amount : number) :
    isLender s = true ->
    0 < amount ->
    transition now s (DepositCapital amount)
      (with_capital (capital s ++ [newCapital now s amount]) s)
| step_withdraw (amount : number) :
    isLender s = true ->
    0 < amount ->
    amount <= availableCapital s ->
    transition now s (WithdrawCapital amount)
      (with_capital (capital s ++ [newCapital now s (- amount)]) s)
| step_request (amount : number) (paymentSchedule : PaymentSchedule) :
    isBorrower s = true ->
    0 < amount ->
    amount <= MAX_LOAN_AMOUNT ->
    existsb (isActiveLoanOf (currentUserId s)) (loans s) = false ->
    ~ In (Date_now_toString now) (map Loan.id (loans s)) ->
    transition now s (RequestLoan amount paymentSchedule)
      (with_loans (loans s ++ [newLoan now s amount paymentSchedule]) s)
| step_approve (loanId : string) (loan : Loan.t) :
    isLender s = true ->
    findLoan loanId (loans s) = Some loan ->
    Loan.amount loan <= availableCapital s ->
    transition now s (DecideLoan loanId true)
      (with_loans (updateLoans loanId (approveUpdate now loan) (loans s)) s)
| step_reject (loanId : string) (loan : Loan.t) :
    isLender s = true ->
    findLoan loanId (loans s) = Some loan ->
    transition now s (DecideLoan loanId false)
      (with_loans
         (updateLoans loanId (Loan.with_status rejected) (loans s)) s)
| step_payment (loanId : string) (loan : Loan.t) (amount : number)
    (method : PaymentMethod) :
    isBorrower s = true ->
    findLoan loanId (loans s) = Some loan ->
    Loan.status loan = approved ->
    0 < amount ->
    amount <= remainingBalance loan ->
    transition now s (RecordPayment loanId amount method)
      (with_payments
         (payments s ++ [newPayment now s loanId amount method loan])
         (with_loans
            (updateLoans loanId (fun _ => applyPayment now amount loan)
               (loans s))
            s))
| step_reset (u : User.t) :
    currentUser s = Some u ->
    User.role u = lender ->
    transition now s SystemReset (mkState [u] [] [] [] (Some u))
| step_sweep : transition now s OverdueSweep (updateOverdueLoans now s).

(** ** What the screens show *)

(** The screen [LendingApp] renders. *)
Inductive Screen := RegistrationScreen | LenderScreen | BorrowerScreen.

Definition screen (s : LendingState) : Screen :=
  match currentUser s with
  | None => RegistrationScreen
  | Some u =>
      if Role_eqb (User.role u) lender then LenderScreen else BorrowerScreen
  end.

Record UserCount := mkUserCount {
  lenders : nat;
  borrowers : nat
}.

Definition getUserCount (s : LendingState) : UserCount :=
  mkUserCount (countRole lender (users s)) (countRole borrower (users s)).

(** The lists and totals of the dashboards. *)
Definition pendingLoans (ls : list Loan.t) : list Loan.t :=
  filter (fun loan => LoanStatus_eqb (Loan.status loan) pending) ls.

Definition activeLoans (ls : list Loan.t) : list Loan.t :=
  filter (fun loan => LoanStatus_eqb (Loan.status loan) approved) ls.

(** The [loans] and [payments] properties [LendingApp] hands to the
    borrower dashboard: those of the acting user. *)
Definition borrowerLoans (s : LendingState) : list Loan.t :=
  filter (fun l => String.eqb (Loan.borrowerId l) (currentUserId s)) (loans s).

(** [hasActiveLoan] of the borrower dashboard, which hides the request
    form. *)
Definition dashboardHasActiveLoan (ls : list Loan.t) : bool :=
  existsb (fun loan => LoanStatus_eqb (Loan.status loan) pending
                       || LoanStatus_eqb (Loan.status loan) approved) ls.

(** ** The registration form *)

(** The two string operations of the JavaScript runtime the form uses. *)
Class JSString := {
  trim : string -> string;
  toLowerCase : string -> string
}.

(** The [disabled] condition of the form's submit button, the flag of a
    submission in progress apart. *)
Definition submitDisabled (userCount : UserCount) (role : Role) : bool :=
  (Role_eqb role lender && (1 <=? lenders userCount)%nat)
  || (Role_eqb role borrower && (19 <=? borrowers userCount)%nat).

(** [handleSubmit] of the registration form. *)
Definition handleSubmit {js : JSString} (now : Date) (s : LendingState)
    (name : string) (role : Role) : outcome :=
  if String.eqb (trim name) "" then Throw "Name is required"
  else if existsb (fun user => String.eqb (toLowerCase (User.name user))
                                 (toLowerCase name))
            (users s)
  then Throw "A user with this name already exists"
  else registerUser now s (trim name) role.

(** ** What the dashboards offer *)

(** The commands the rendered dashboards let the acting user submit: the
    lender screen carries the capital forms, the reset button and the
    decision buttons of the pending loans; the borrower screen carries the
    request form while the borrower has no pending or approved loan, and a
    payment form for each of the borrower's approved loans. *)
Definition offered (s : LendingState) (c : Command) : Prop :=
  match c with
  | RegisterUser _ _ => True
  | SwitchUser _ => True
  | DepositCapital _ | WithdrawCapital _ | SystemReset =>
      screen s = LenderScreen
  | DecideLoan loanId _ =>
      screen s = LenderScreen /\
      In loanId (map Loan.id (pendingLoans (loans s)))
  | RequestLoan _ _ =>
      screen s = BorrowerScreen /\
      dashboardHasActiveLoan (borrowerLoans s) = false
  | RecordPayment loanId _ _ =>
      screen s = BorrowerScreen /\
      In loanId (map Loan.id (activeLoans (borrowerLoans s)))
  | OverdueSweep => True
  end.

(** States reached by commands the dashboards offer, registration being
    allowed at any time. *)
Inductive reachableOffered {cal : Calendar} : LendingState -> Prop :=
| offered_init : reachableOffered initialState
| offered_step (now : Date) (c : Command) (s s' : LendingState) :
    reachableOffered s ->
    offered s c ->
    freshLoanId now c s ->
    dispatch now c s = Done s' ->
    reachableOffered s'.

(** States reached through the screens as [LendingApp] renders them: the
    registration form is there only while nobody is the acting user. *)
Inductive reachableOnScreen {cal : Calendar} : LendingState -> Prop :=
| onScreen_init : reachableOnScreen initialState
| onScreen_step (now : Date) (c : Command) (s s' : LendingState) :
    reachableOnScreen s ->
    offered s c ->
    (forall name role, c = RegisterUser name role ->
                       screen s = RegistrationScreen) ->
    freshLoanId now c s ->
    dispatch now c s = Done s' ->
    reachableOnScreen s'.

(** ** Invariants of the loans *)

(** A loan nobody has decided or paid yet is as [requestLoan] built it. *)
Definition untouched (l : Loan.t) : Prop :=
  Loan.principalPaid l = 0 /\ Loan.interestPaid l = 0 /\
  Loan.approvedAt l = None /\ Loan.dueDate l = None /\
  Loan.isOverdue l = false /\ Loan.overdueInterestApplied l = false /\
  Loan.totalDue l = Loan.amount l + Loan.amount l * Loan.interestRate l.

Definition wellFormedLoan (l : Loan.t) : Prop :=
  0 < Loan.amount l /\
  Loan.amount l <= MAX_LOAN_AMOUNT /\
  Loan.interestRate l = interestRateOf (Loan.paymentSchedule l) /\
  Loan.isOverdue l = Loan.overdueInterestApplied l /\
  0 <= Loan.principalPaid l /\
  0 <= Loan.interestPaid l /\
  Loan.interestPaid l <= 2 * (Loan.amount l * Loan.interestRate l) /\
  Loan.principalPaid l + Loan.interestPaid l <= Loan.totalDue l /\
  Loan.amount l + Loan.amount l * Loan.interestRate l <= Loan.totalDue l /\
  (Loan.status l = pending -> untouched l) /\
  (Loan.status l = approved ->
   Loan.dueDate l <> None /\ Loan.approvedAt l <> None).

(** ** Invariants of the registry and of the payment history *)

(** At most one lender and nineteen borrowers are registered, the acting
    user is registered, and somebody is acting once anyone is
    registered. *)
Definition registryInv (s : LendingState) : Prop :=
  (countRole lender (users s) <= 1)%nat /\
  (countRole borrower (users s) <= MAX_BORROWERS)%nat /\
  (forall u, currentUser s = Some u -> In u (users s)) /\
  (currentUser s = None -> users s = []).

(** The payments recorded against the loan with a given identifier. *)
Definition paymentsOf (loanId : string) (ps : list Payment.t) : list Payment.t :=
  filter (fun p => String.eqb (Payment.loanId p) loanId) ps.

(** A payment is of a positive amount, split into its two portions, and
    names a loan of the ledger that is no longer pending. *)
Definition paymentRefers (ls : list Loan.t) (p : Payment.t) : Prop :=
  0 < Payment.amount p /\
  Payment.principalAmount p + Payment.interestAmount p == Payment.amount p /\
  exists loan : Loan.t,
    In loan ls /\ Loan.id loan = Payment.loanId p /\
    Loan.status loan <> pending.

(** The paid fields of a loan are the sums over its payments. *)
Definition loanBalances (ps : list Payment.t) (loan : Loan.t) : Prop :=
  Loan.principalPaid loan
  == sumOf (map Payment.principalAmount (paymentsOf (Loan.id loan) ps)) /\
  Loan.interestPaid loan
  == sumOf (map Payment.interestAmount (paymentsOf (Loan.id loan) ps)).

Definition historyInv (s : LendingState) : Prop :=
  Forall (paymentRefers (loans s)) (payments s) /\
  Forall (loanBalances (payments s)) (loans s).

(** ** What a step can do to one loan *)


(** ** Strings of ASCII characters

    An instance of the string operations that agrees with JavaScript on
    strings of ASCII characters: [trim] removes the ASCII white space at
    both ends, [toLowerCase] maps the letters A to Z to a to z. *)

Definition isSpace (c : Ascii.ascii) : bool :=
  let n := Ascii.nat_of_ascii c in
  ((9 <=? n) && (n <=? 13))%nat || (n =? 32)%nat.

Fixpoint trimStartChars (cs : list Ascii.ascii) : list Ascii.ascii :=
  match cs with
  | [] => []
  | c :: rest => if isSpace c then trimStartChars rest else cs
  end.

Definition asciiTrim (s : string) : string :=
  string_of_list_ascii
    (rev (trimStartChars (rev (trimStartChars (list_ascii_of_string s))))).

Definition lowerChar (c : Ascii.ascii) : Ascii.ascii :=
  let n := Ascii.nat_of_ascii c in
  if ((65 <=? n) && (n <=? 90))%nat then Ascii.ascii_of_nat (n + 32) else c.

Definition asciiToLowerCase (s : string) : string :=
  string_of_list_ascii (map lowerChar (list_ascii_of_string s)).

Definition asciiStrings : JSString :=
  {| trim := asciiTrim; toLowerCase := asciiToLowerCase |}.

(** The name of a user as the duplicate check of the form compares it. *)
Definition lowerName {js : JSString} (u : User.t) : string :=
  toLowerCase (User.name u).

(** ** Counting active loans *)

(** The number of pending or approved loans of a borrower. *)
Definition activeCount (borrowerId : string) (ls : list Loan.t) : nat :=
  length (filter (isActiveLoanOf borrowerId) ls).

(** A payment made by the borrower of the loan it names. *)
Definition paidByOwner (ls : list Loan.t) (p : Payment.t) : Prop :=
  exists loan : Loan.t,
    In loan ls /\ Loan.id loan = Payment.loanId p /\
    Loan.borrowerId loan = Payment.borrowerId p.

(** Every command of a script is offered by the dashboard of the state it
    runs in, and every loan request gets a fresh identifier. *)
Fixpoint offeredAlong {cal : Calendar} (script : list (Date * Command))
    (s : LendingState) : Prop :=
  match script with
  | [] => True
  | (now, c) :: rest =>
      offered s c /\ freshLoanId now c s /\
      match dispatch now c s with
      | Done s' => offeredAlong rest s'
      | Throw _ => True
      end
  end.

(** The first visitor registers as a borrower and requests a loan, all
    through the screens. *)
Definition scenarioAlone : list (Date * Command) :=
  [ (3000%Z, RegisterUser "Bob" borrower);
    (4000%Z, RequestLoan 300 monthly) ].
Definition stateAlone : LendingState :=
  stateOf (run (cal := plainCalendar) scenarioAlone initialState).

(** What the screens allow from an empty ledger: nobody is registered yet,
    or one user is and acts, the loans are pending and a lender has none. *)
Definition loneUser (s : LendingState) : Prop :=
  (currentUser s = None /\ users s = [] /\ loans s = [] /\ payments s = [])
  \/
  (exists u : User.t,
      currentUser s = Some u /\ users s = [u] /\ payments s = [] /\
      (forall l, In l (loans s) -> Loan.status l = pending) /\
      (User.role u = lender -> loans s = [])).

(** * The ledger in binary64 arithmetic

    The code computes with JavaScript numbers, the binary64 values of
    IEEE 754.  This module repeats the data model, the commands and the
    form handlers with those numbers: a number is a [spec_float] of
    precision 53 and exponent bound 1024, and [+], [-], [*] and [/] round
    to the nearest value, ties to even.  Statements that depend on how
    sums and differences round are made here. *)

Module Binary64.

Definition number : Set := spec_float.

Definition prec : Z := 53%Z.
Definition emax : Z := 1024%Z.

Definition add (a b : number) : number := SFadd prec emax a b.
Definition sub (a b : number) : number := SFsub prec emax a b.
Definition mul (a b : number) : number := SFmul prec emax a b.
Definition div (a b : number) : number := SFdiv prec emax a b.
Definition neg (a : number) : number := SFopp a.

Declare Scope b64_scope.
Delimit Scope b64_scope with b64.
Bind Scope b64_scope with number.
Infix "+" := add : b64_scope.
Infix "-" := sub : b64_scope.
Infix "*" := mul : b64_scope.
Infix "/" := div : b64_scope.
Notation "- a" := (neg a) : b64_scope.
Local Open Scope b64_scope.

(** The number an integer literal denotes, and the number a decimal
    literal [n/d] denotes ([d] a power of ten, both below 2^53): the
    binary64 value nearest to it. *)
Definition ofZ (z : Z) : number := binary_normalize prec emax z 0 false.
Definition decimal (n d : Z) : number := ofZ n / ofZ d.

Definition zero : number := S754_zero false.

Definition isNaN (a : number) : bool :=
  match a with
  | S754_nan => true
  | _ => false
  end.

(** [a > b], [a < b], [a <= b] and [a === b]: false when an operand is
    NaN. *)
Definition gt (a b : number) : bool := SFltb b a.
Definition lt (a b : number) : bool := SFltb a b.
Definition le (a b : number) : bool := SFleb a b.
Definition eqb (a b : number) : bool := SFeqb a b.

(** [Math.min(a, b)]: NaN when an operand is NaN, and [-0] is smaller
    than [+0]. *)
Definition Math_min (a b : number) : number :=
  if isNaN a || isNaN b then S754_nan
  else if lt a b then a
  else if lt b a then b
  else match a with
       | S754_zero true => a
       | _ => b
       end.

Definition MAX_LOAN_AMOUNT : number := ofZ 1000.
Definition WEEKLY_INTEREST_RATE : number := decimal 2 100.
Definition MONTHLY_INTEREST_RATE : number := decimal 6 100.

Module Capital.
Record t := mk {
  id : string;
  lenderId : string;
  amount : number;
  addedAt : Date
}.
End Capital.

Module Loan.
Record t := mk {
  id : string;
  borrowerId : string;
  borrowerName : string;
  amount : number;
  interestRate : number;
  paymentSchedule : PaymentSchedule;
  status : LoanStatus;
  requestedAt : Date;
  approvedAt : option Date;
  dueDate : option Date;
  totalDue : number;
  principalPaid : number;
  interestPaid : number;
  isOverdue : bool;
  overdueInterestApplied : bool
}.

Definition with_status (v : LoanStatus) (l : t) : t :=
  mk (id l) (borrowerId l) (borrowerName l) (amount l) (interestRate l)
     (paymentSchedule l) v (requestedAt l) (approvedAt l) (dueDate l)
     (totalDue l) (principalPaid l) (interestPaid l) (isOverdue l)
     (overdueInterestApplied l).

Definition with_approvedAt (v : option Date) (l : t) : t :=
  mk (id l) (borrowerId l) (borrowerName l) (amount l) (interestRate l)
     (paymentSchedule l) (status l) (requestedAt l) v (dueDate l)
     (totalDue l) (principalPaid l) (interestPaid l) (isOverdue l)
     (overdueInterestApplied l).

Definition with_dueDate (v : option Date) (l : t) : t :=
  mk (id l) (borrowerId l) (borrowerName l) (amount l) (interestRate l)
     (paymentSchedule l) (status l) (requestedAt l) (approvedAt l) v
     (totalDue l) (principalPaid l) (interestPaid l) (isOverdue l)
     (overdueInterestApplied l).

Definition with_totalDue (v : number) (l : t) : t :=
  mk (id l) (borrowerId l) (borrowerName l) (amount l) (interestRate l)
     (paymentSchedule l) (status l) (requestedAt l) (approvedAt l)
     (dueDate l) v (principalPaid l) (interestPaid l) (isOverdue l)
     (overdueInterestApplied l).

Definition with_principalPaid (v : number) (l : t) : t :=
  mk (id l) (borrowerId l) (borrowerName l) (amount l) (interestRate l)
     (paymentSchedule l) (status l) (requestedAt l) (approvedAt l)
     (dueDate l) (totalDue l) v (interestPaid l) (isOverdue l)
     (overdueInterestApplied l).

Definition with_interestPaid (v : number) (l : t) : t :=
  mk (id l) (borrowerId l) (borrowerName l) (amount l) (interestRate l)
     (paymentSchedule l) (status l) (requestedAt l) (approvedAt l)
     (dueDate l) (totalDue l) (principalPaid l) v (isOverdue l)
     (overdueInterestApplied l).

Definition with_isOverdue (v : bool) (l : t) : t :=
  mk (id l) (borrowerId l) (borrowerName l) (amount l) (interestRate l)
     (paymentSchedule l) (status l) (requestedAt l) (approvedAt l)
     (dueDate l) (totalDue l) (principalPaid l) (interestPaid l) v
     (overdueInterestApplied l).

Definition with_overdueInterestApplied (v : bool) (l : t) : t :=
  mk (id l) (borrowerId l) (borrowerName l) (amount l) (interestRate l)
     (paymentSchedule l) (status l) (requestedAt l) (approvedAt l)
     (dueDate l) (totalDue l) (principalPaid l) (interestPaid l)
     (isOverdue l) v.
End Loan.

Module Payment.
Record t := mk {
  id : string;
  loanId : string;
  borrowerId : string;
  amount : number;
  method : PaymentMethod;
  paidAt : Date;
  principalAmount : number;
  interestAmount : number
}.
End Payment.

Record LendingState := mkState {
  users : list User.t;
  capital : list Capital.t;
  loans : list Loan.t;
  payments : list Payment.t;
  currentUser : option User.t
}.

Definition with_users (v : list User.t) (s : LendingState) : LendingState :=
  mkState v (capital s) (loans s) (payments s) (currentUser s).
Definition with_capital (v : list Capital.t) (s : LendingState) : LendingState :=
  mkState (users s) v (loans s) (payments s) (currentUser s).
Definition with_loans (v : list Loan.t) (s : LendingState) : LendingState :=
  mkState (users s) (capital s) v (payments s) (currentUser s).
Definition with_payments (v : list Payment.t) (s : LendingState) : LendingState :=
  mkState (users s) (capital s) (loans s) v (currentUser s).
Definition with_currentUser (v : option User.t) (s : LendingState) : LendingState :=
  mkState (users s) (capital s) (loans s) (payments s) v.

Definition initialState : LendingState := mkState [] [] [] [] None.

Inductive outcome :=
| Done (s : LendingState)
| Throw (msg : string).

Definition interestRateOf (paymentSchedule : PaymentSchedule) : number :=
  match paymentSchedule with
  | weekly => WEEKLY_INTEREST_RATE
  | monthly => MONTHLY_INTEREST_RATE
  end.

Definition sweepLoan (now : Date) (loan : Loan.t) : Loan.t :=
  if LoanStatus_eqb (Loan.status loan) approved
     && match Loan.dueDate loan with
        | Some dueDate => (now >? dueDate)%Z
        | None => false
        end
  then
    let wasOverdue := Loan.isOverdue loan in
    let newLoan := Loan.with_isOverdue true loan in
    if negb wasOverdue && negb (Loan.overdueInterestApplied loan) then
      let remainingBalance :=
        Loan.totalDue loan - Loan.principalPaid loan - Loan.interestPaid loan in
      let overdueInterest :=
        remainingBalance * interestRateOf (Loan.paymentSchedule loan) in
      Loan.with_overdueInterestApplied true
        (Loan.with_totalDue (Loan.totalDue newLoan + overdueInterest) newLoan)
    else newLoan
  else loan.

Definition updateOverdueLoans (now : Date) (s : LendingState) : LendingState :=
  with_loans (map (sweepLoan now) (loans s)) s.

Definition registerUser (now : Date) (s : LendingState)
    (name : string) (role : Role) : outcome :=
  let borrowerCount := countRole borrower (users s) in
  let lenderCount := countRole lender (users s) in
  if Role_eqb role borrower && (MAX_BORROWERS <=? borrowerCount)%nat then
    Throw "Maximum 19 borrowers allowed"
  else if Role_eqb role lender && (1 <=? lenderCount)%nat then
    Throw "Only one lender allowed"
  else
    let newUser := User.mk (Date_now_toString now) name role now in
    Done (with_currentUser (Some newUser)
            (with_users (users s ++ [newUser]) s)).

Definition totalCapital (s : LendingState) : number :=
  fold_left (fun sum cap => sum + Capital.amount cap) (capital s) zero.

Definition totalLoaned (s : LendingState) : number :=
  fold_left (fun sum loan => sum + Loan.amount loan)
    (filter (fun loan => LoanStatus_eqb (Loan.status loan) approved) (loans s))
    zero.

Definition availableCapital (s : LendingState) : number :=
  totalCapital s - totalLoaned s.

Definition isLender (s : LendingState) : bool :=
  match currentUser s with
  | Some u => Role_eqb (User.role u) lender
  | None => false
  end.

Definition isBorrower (s : LendingState) : bool :=
  match currentUser s with
  | Some u => Role_eqb (User.role u) borrower
  | None => false
  end.

Definition currentUserId (s : LendingState) : string :=
  match currentUser s with
  | Some u => User.id u
  | None => EmptyString
  end.

Definition currentUserName (s : LendingState) : string :=
  match currentUser s with
  | Some u => User.name u
  | None => EmptyString
  end.

Definition depositCapital (now : Date) (s : LendingState)
    (amount : number) : outcome :=
  if negb (isLender s) then Done s
  else
    let newCapital :=
      Capital.mk (Date_now_toString now) (currentUserId s) amount now in
    Done (with_capital (capital s ++ [newCapital]) s).

Definition withdrawCapital (now : Date) (s : LendingState)
    (amount : number) : outcome :=
  if negb (isLender s) then Done s
  else if gt amount (availableCapital s) then
    Throw "Insufficient available capital"
  else
    let newCapital :=
      Capital.mk (Date_now_toString now) (currentUserId s) (- amount) now in
    Done (with_capital (capital s ++ [newCapital]) s).

Definition isActiveLoanOf (borrowerId : string) (loan : Loan.t) : bool :=
  String.eqb (Loan.borrowerId loan) borrowerId
  && (LoanStatus_eqb (Loan.status loan) pending
      || LoanStatus_eqb (Loan.status loan) approved).

Definition requestLoan (now : Date) (s : LendingState)
    (amount : number) (paymentSchedule : PaymentSchedule) : outcome :=
  if negb (isBorrower s) then Done s
  else if gt amount MAX_LOAN_AMOUNT then
    Throw "Maximum loan amount is $1000"
  else
    let hasActiveLoan := existsb (isActiveLoanOf (currentUserId s)) (loans s) in
    if hasActiveLoan then Throw "You already have an active loan"
    else
      let interestRate := interestRateOf paymentSchedule in
      let totalDue := amount + (amount * interestRate) in
      let newLoan :=
        Loan.mk (Date_now_toString now) (currentUserId s) (currentUserName s)
          amount interestRate paymentSchedule pending now None None
          totalDue zero zero false false in
      Done (with_loans (loans s ++ [newLoan]) s).

Definition findLoan (loanId : string) (ls : list Loan.t) : option Loan.t :=
  find (fun l => String.eqb (Loan.id l) loanId) ls.

Definition approveLoan {cal : Calendar} (now : Date) (s : LendingState)
    (loanId : string) (approve : bool) : outcome :=
  if negb (isLender s) then Done s
  else
    match findLoan loanId (loans s) with
    | None => Done s
    | Some loan =>
        if approve then
          if gt (Loan.amount loan) (availableCapital s) then
            Throw "Insufficient capital to approve loan"
          else
            let dueDate := nextDueDate now (Loan.paymentSchedule loan) in
            Done (with_loans
                    (map (fun l =>
                            if String.eqb (Loan.id l) loanId
                            then Loan.with_dueDate (Some dueDate)
                                   (Loan.with_approvedAt (Some now)
                                      (Loan.with_status approved l))
                            else l)
                         (loans s))
                    s)
        else
          Done (with_loans
                  (map (fun l =>
                          if String.eqb (Loan.id l) loanId
                          then Loan.with_status rejected l
                          else l)
                       (loans s))
                  s)
    end.

(** The interest still owed on a loan, as [recordPayment] computes it. *)
Definition remainingInterest (loan : Loan.t) : number :=
  (Loan.amount loan * Loan.interestRate loan) - Loan.interestPaid loan
  + (if Loan.overdueInterestApplied loan
     then Loan.amount loan * Loan.interestRate loan
     else zero).

Definition recordPayment {cal : Calendar} (now : Date) (s : LendingState)
    (loanId : string) (amount : number) (method : PaymentMethod) : outcome :=
  if negb (isBorrower s) then Done s
  else
    match findLoan loanId (loans s) with
    | None => Done s
    | Some loan =>
        if negb (LoanStatus_eqb (Loan.status loan) approved) then Done s
        else
          let remainingBalance :=
            Loan.totalDue loan - Loan.principalPaid loan - Loan.interestPaid loan in
          if gt amount remainingBalance then
            Throw "Payment amount exceeds remaining balance"
          else
            let interestAmount := Math_min amount (remainingInterest loan) in
            let principalAmount := amount - interestAmount in
            let newPayment :=
              Payment.mk (Date_now_toString now) loanId (currentUserId s)
                amount method now principalAmount interestAmount in
            let updatedLoan :=
              Loan.with_interestPaid (Loan.interestPaid loan + interestAmount)
                (Loan.with_principalPaid
                   (Loan.principalPaid loan + principalAmount) loan) in
            let updatedLoan :=
              if lt (Loan.principalPaid updatedLoan
                     + Loan.interestPaid updatedLoan)
                    (Loan.totalDue updatedLoan)
              then
                Loan.with_overdueInterestApplied false
                  (Loan.with_isOverdue false
                     (Loan.with_dueDate
                        (Some (nextDueDate now (Loan.paymentSchedule loan)))
                        updatedLoan))
              else updatedLoan in
            Done (with_payments (payments s ++ [newPayment])
                    (with_loans
                       (map (fun l =>
                               if String.eqb (Loan.id l) loanId
                               then updatedLoan else l)
                            (loans s))
                       s))
    end.

Definition systemReset (s : LendingState) : outcome :=
  match currentUser s with
  | None => Done s
  | Some u =>
      if negb (Role_eqb (User.role u) lender) then Done s
      else Done (mkState [u] [] [] [] (Some u))
  end.

Definition switchUser (s : LendingState) (userId : string) : LendingState :=
  match find (fun u => String.eqb (User.id u) userId) (users s) with
  | Some user => with_currentUser (Some user) s
  | None => s
  end.

(** The form handlers: [isNaN(amount) || amount <= 0] refuses the parsed
    number. *)
Definition handleDeposit (now : Date) (s : LendingState)
    (amount : number) : outcome :=
  if isNaN amount || le amount zero then Throw "Please enter a valid amount"
  else depositCapital now s amount.

Definition handleWithdraw (now : Date) (s : LendingState)
    (amount : number) : outcome :=
  if isNaN amount || le amount zero then Throw "Please enter a valid amount"
  else withdrawCapital now s amount.

Definition handleLoanRequest (now : Date) (s : LendingState)
    (amount : number) (paymentSchedule : PaymentSchedule) : outcome :=
  if isNaN amount || le amount zero then Throw "Please enter a valid amount"
  else if gt amount (ofZ 1000) then Throw "Maximum loan amount is $1000"
  else requestLoan now s amount paymentSchedule.

Definition handlePayment {cal : Calendar} (now : Date) (s : LendingState)
    (loanId : string) (amount : number) (method : PaymentMethod) : outcome :=
  if isNaN amount || le amount zero
  then Throw "Please enter a valid payment amount"
  else recordPayment now s loanId amount method.

Definition handleLoanAction {cal : Calendar} (now : Date) (s : LendingState)
    (loanId : string) (approve : bool) : outcome :=
  approveLoan now s loanId approve.

Inductive Command :=
| RegisterUser (name : string) (role : Role)
| SwitchUser (userId : string)
| DepositCapital (amount : number)
| WithdrawCapital (amount : number)
| RequestLoan (amount : number) (paymentSchedule : PaymentSchedule)
| DecideLoan (loanId : string) (approve : bool)
| RecordPayment (loanId : string) (amount : number) (method : PaymentMethod)
| SystemReset
| OverdueSweep.

Definition dispatch {cal : Calendar} (now : Date) (c : Command)
    (s : LendingState) : outcome :=
  match c with
  | RegisterUser name role => registerUser now s name role
  | SwitchUser userId => Done (switchUser s userId)
  | DepositCapital amount => handleDeposit now s amount
  | WithdrawCapital amount => handleWithdraw now s amount
  | RequestLoan amount paymentSchedule =>
      handleLoanRequest now s amount paymentSchedule
  | DecideLoan loanId approve => handleLoanAction now s loanId approve
  | RecordPayment loanId amount method =>
      handlePayment now s loanId amount method
  | SystemReset => systemReset s
  | OverdueSweep => Done (updateOverdueLoans now s)
  end.

Fixpoint run {cal : Calendar} (script : list (Date * Command))
    (s : LendingState) : outcome :=
  match script with
  | [] => Done s
  | (now, c) :: rest =>
      match dispatch now c s with
      | Done s' => run rest s'
      | Throw msg => Throw msg
      end
  end.

Definition freshLoanId (now : Date) (c : Command) (s : LendingState) : Prop :=
  match c with
  | RequestLoan _ _ => ~ In (Date_now_toString now) (map Loan.id (loans s))
  | _ => True
  end.

Inductive reachable {cal : Calendar} : LendingState -> Prop :=
| reachable_init : reachable initialState
| reachable_step (now : Date) (c : Command) (s s' : LendingState) :
    reachable s ->
    freshLoanId now c s ->
    dispatch now c s = Done s' ->
    reachable s'.

Definition stateOf (o : outcome) : LendingState :=
  match o with
  | Done s => s
  | Throw _ => initialState
  end.

(** ** Names for the quantities of [recordPayment] *)

(** [loan.totalDue - loan.principalPaid - loan.interestPaid]. *)
Definition remainingBalance (loan : Loan.t) : number :=
  Loan.totalDue loan - Loan.principalPaid loan - Loan.interestPaid loan.

(** [interestAmount] and [principalAmount] of a payment of [amount]. *)
Definition interestPortion (amount : number) (loan : Loan.t) : number :=
  Math_min amount (remainingInterest loan).
Definition principalPortion (amount : number) (loan : Loan.t) : number :=
  amount - interestPortion amount loan.

(** [updatedLoan] before the due date is looked at: the paid fields have
    grown by the two portions. *)
Definition creditPayment (amount : number) (loan : Loan.t) : Loan.t :=
  Loan.with_interestPaid (Loan.interestPaid loan + interestPortion amount loan)
    (Loan.with_principalPaid
       (Loan.principalPaid loan + principalPortion amount loan) loan).

(** The test [updatedLoan.principalPaid + updatedLoan.interestPaid <
    updatedLoan.totalDue], which decides whether the due date is reset. *)
Definition stillOwing (updatedLoan : Loan.t) : bool :=
  lt (Loan.principalPaid updatedLoan + Loan.interestPaid updatedLoan)
     (Loan.totalDue updatedLoan).

(** [updatedLoan] as it is stored. *)
Definition applyPayment {cal : Calendar} (now : Date) (amount : number)
    (loan : Loan.t) : Loan.t :=
  if stillOwing (creditPayment amount loan) then
    Loan.with_overdueInterestApplied false
      (Loan.with_isOverdue false
         (Loan.with_dueDate
            (Some (nextDueDate now (Loan.paymentSchedule loan)))
            (creditPayment amount loan)))
  else creditPayment amount loan.

(** The payment [recordPayment] appends. *)
Definition newPayment (now : Date) (s : LendingState) (loanId : string)
    (amount : number) (method : PaymentMethod) (loan : Loan.t) : Payment.t :=
  Payment.mk (Date_now_toString now) loanId (currentUserId s) amount method
    now (principalPortion amount loan) (interestPortion amount loan).

(** ** The payment history of a loan *)

Definition paymentsOf (loanId : string) (ps : list Payment.t) : list Payment.t :=
  filter (fun p => String.eqb (Payment.loanId p) loanId) ps.

(** The portions of the payments, added up in the order of recording, as
    [recordPayment] adds them to the paid fields. *)
Definition principalRecorded (ps : list Payment.t) : number :=
  fold_left (fun sum p => sum + Payment.principalAmount p) ps zero.
Definition interestRecorded (ps : list Payment.t) : number :=
  fold_left (fun sum p => sum + Payment.interestAmount p) ps zero.

(** Loan identifiers are unique, every payment names a loan of the ledger,
    and the paid fields of every loan are the running sums of the portions
    recorded against it. *)
Definition historyInv (s : LendingState) : Prop :=
  NoDup (map Loan.id (loans s)) /\
  (forall p, In p (payments s) -> In (Payment.loanId p) (map Loan.id (loans s))) /\
  (forall loan, In loan (loans s) ->
     Loan.principalPaid loan
     = principalRecorded (paymentsOf (Loan.id loan) (payments s)) /\
     Loan.interestPaid loan
     = interestRecorded (paymentsOf (Loan.id loan) (payments s))).

(** ** Scenarios *)

Fixpoint freshAlong {cal : Calendar} (script : list (Date * Command))
    (s : LendingState) : Prop :=
  match script with
  | [] => True
  | (now, c) :: rest =>
      freshLoanId now c s /\
      match dispatch now c s with
      | Done s' => freshAlong rest s'
      | Throw _ => True
      end
  end.

(** Alice (lender) deposits [funds], Bob (borrower) requests [amount] on
    the given schedule, Alice approves, and Bob is the acting user. *)
Definition scenarioLoan (funds amount : number)
    (paymentSchedule : PaymentSchedule) : list (Date * Command) :=
  [ (1000%Z, RegisterUser "Alice" lender);
    (2000%Z, DepositCapital funds);
    (3000%Z, RegisterUser "Bob" borrower);
    (4000%Z, RequestLoan amount paymentSchedule);
    (5000%Z, SwitchUser "1000");
    (6000%Z, DecideLoan "4000" true);
    (7000%Z, SwitchUser "3000") ].

Definition after (script : list (Date * Command)) : LendingState :=
  stateOf (run (cal := plainCalendar) script initialState).

(** A loan of 3 on the weekly schedule (total due 3.06), and Bob's payment
    of 0.57 on it. *)
Definition scenarioSmallLoan : list (Date * Command) :=
  scenarioLoan (ofZ 500) (ofZ 3) weekly.
Definition scenarioSplit : list (Date * Command) :=
  scenarioSmallLoan ++ [ (8000%Z, RecordPayment "4000" (decimal 57 100) cash) ].
Definition stateSmallLoan : LendingState := after scenarioSmallLoan.
Definition stateSplit : LendingState := after scenarioSplit.

(** A loan of 507 on the weekly schedule (total due 517.14), paid with 0.43
    and then with the 516.71 that remain. *)
Definition scenarioOverpaid : list (Date * Command) :=
  scenarioLoan (ofZ 1000) (ofZ 507) weekly ++
  [ (8000%Z, RecordPayment "4000" (decimal 43 100) cash);
    (9000%Z, RecordPayment "4000" (decimal 51671 100) cash) ].
Definition stateOverpaid : LendingState := after scenarioOverpaid.



(** The loan of 300 on the monthly schedule (total due 318) of the
    specification's scenarios; Bob pays 150, and then the 168 that
    remain. *)
Definition scenarioMonthly : list (Date * Command) :=
  scenarioLoan (ofZ 500) (ofZ 300) monthly.
Definition stateMonthly : LendingState := after scenarioMonthly.
Definition stateHalfPaid : LendingState :=
  after (scenarioMonthly ++ [ (8000%Z, RecordPayment "4000" (ofZ 150) cash) ]).

(** Nothing is paid on that loan, the sweep runs after the due date, and
    Bob then pays 100: the interest paid is 36, twice the schedule
    interest, and the overdue flags are clear again. *)
Definition stateInterestAhead : LendingState :=
  after (scenarioMonthly ++
         [ (2678410000%Z, OverdueSweep);
           (2678412000%Z, RecordPayment "4000" (ofZ 100) cash) ]).

(** After Bob's loan is approved a second borrower, Carol, registers and
    is the acting user. *)
Definition stateCarol : LendingState :=
  after (scenarioMonthly ++ [ (7500%Z, RegisterUser "Carol" borrower) ]).

(** Alice rejects Bob's request instead of approving it. *)
Definition stateRejected : LendingState :=
  after [ (1000%Z, RegisterUser "Alice" lender);
          (2000%Z, DepositCapital (ofZ 500));
          (3000%Z, RegisterUser "Bob" borrower);
          (4000%Z, RequestLoan (ofZ 300) monthly);
          (5000%Z, SwitchUser "1000");
          (6000%Z, DecideLoan "4000" false) ].

(** The loan of the scenarios, as a given state holds it. *)
Definition loanIn (s : LendingState) : Loan.t :=
  match findLoan "4000" (loans s) with
  | Some loan => loan
  | None =>
      Loan.mk "" "" "" zero zero weekly rejected 0%Z None None zero zero zero
        false false
  end.

(** The payment recorded last in a state. *)
Definition lastPayment (s : LendingState) : Payment.t :=
  last (payments s) (Payment.mk "" "" "" zero cash 0%Z zero zero).

End Binary64.

(** * Properties *)

(** ** The scenarios of the specification, run on the code *)

(** Scenario A: the loan of 300 on the monthly schedule has a total due of
    318; once it is approved the available capital is 200. *)
Example scenarioA_values :
  Loan.status (loanIn stateA) = approved /\
  Loan.totalDue (loanIn stateA) == 318 /\
  availableCapital stateA == 200.
Proof.
  split; [vm_compute; reflexivity|].
  split; vm_compute; reflexivity.
Qed.

(** Scenario B: the payment of 150 is split into 18 of interest and 132 of
    principal, and the overdue flags are clear. *)
Example scenarioB_values :
  Payment.interestAmount (lastPayment stateB) == 18 /\
  Payment.principalAmount (lastPayment stateB) == 132 /\
  Loan.isOverdue (loanIn stateB) = false /\
  Loan.overdueInterestApplied (loanIn stateB) = false.
Proof.
  split; [vm_compute; reflexivity|].
  split; [vm_compute; reflexivity|].
  split; vm_compute; reflexivity.
Qed.

(** Scenarios C, D and F: a request above the cap, a second request while
    the first loan is approved, and a withdrawal above the available
    capital all throw. *)
Example scenario_refusals :
  handleLoanRequest 9000 stateB 1200 weekly
    = Throw "Maximum loan amount is $1000" /\
  handleLoanRequest 9000 stateB 100 weekly
    = Throw "You already have an active loan" /\
  handleWithdraw 9000 stateA 201 = Throw "Insufficient available capital".
Proof.
  split; [vm_compute; reflexivity|].
  split; vm_compute; reflexivity.
Qed.

(** ** Comparisons and sums *)

Lemma gt_true (a b : number) : gt a b = true <-> b < a.
Proof.
  unfold gt. rewrite negb_true_iff.
  split; intro Hab.
  - apply Qnot_le_lt. intro Hle. apply Qle_bool_iff in Hle. congruence.
  - destruct (Qle_bool a b) eqn:E; [|reflexivity].
    apply Qle_bool_iff in E. exfalso. apply (Qlt_not_le _ _ Hab E).
Qed.

Lemma gt_false (a b : number) : gt a b = false <-> a <= b.
Proof.
  unfold gt. rewrite negb_false_iff. apply Qle_bool_iff.
Qed.

Lemma lt_true (a b : number) : lt a b = true <-> a < b.
Proof. unfold lt. apply (gt_true b a). Qed.

Lemma lt_false (a b : number) : lt a b = false <-> b <= a.
Proof. unfold lt. apply (gt_false b a). Qed.

Lemma le_false (a b : number) : le a b = false <-> b < a.
Proof.
  unfold le. rewrite <- (gt_true a b). unfold gt.
  rewrite negb_true_iff. tauto.
Qed.

Lemma Math_min_sum (a b : number) : a - Math_min a b + Math_min a b == a.
Proof. ring. Qed.

Lemma fold_left_sum {A : Type} (f : A -> number) (xs : list A) (acc : number) :
  fold_left (fun sum x => sum + f x) xs acc == acc + sumOf (map f xs).
Proof.
  revert acc. induction xs as [|x xs IH]; intro acc; simpl.
  - ring.
  - rewrite IH. ring.
Qed.

Lemma totalCapital_sum (s : LendingState) :
  totalCapital s == sumOf (map Capital.amount (capital s)).
Proof. unfold totalCapital. rewrite fold_left_sum. ring. Qed.

Lemma totalLoaned_sum (s : LendingState) :
  totalLoaned s == sumOf (map Loan.amount (filter isApproved (loans s))).
Proof. unfold totalLoaned. rewrite fold_left_sum. unfold isApproved. ring. Qed.

Lemma sumOf_app (xs ys : list number) :
  sumOf (xs ++ ys) == sumOf xs + sumOf ys.
Proof.
  induction xs as [|x xs IH]; simpl.
  - ring.
  - rewrite IH. ring.
Qed.

(** ** Taking a command's result apart *)

Ltac split_if H :=
  match type of H with
  | context [if ?b then _ else _] =>
      let E := fresh "E" in destruct b eqn:E
  | context [match ?o with Some _ => _ | None => _ end] =>
      let E := fresh "E" in destruct o eqn:E
  end.

Ltac done_inv H :=
  repeat (split_if H; try discriminate H);
  try (injection H as H; subst).

(** ** Registration *)

(** What [registerUser] commits. *)
Lemma registerUser_Done :
  forall (now : Date) (s s' : LendingState) (name : string) (role : Role),
    registerUser now s name role = Done s' ->
    s' = with_currentUser
           (Some (User.mk (Date_now_toString now) name role now))
           (with_users
              (users s ++ [User.mk (Date_now_toString now) name role now]) s).
Proof.
  intros now s s' name role Hreg.
  unfold registerUser in Hreg.
  done_inv Hreg. reflexivity.
Qed.

(** C10. A successful [registerUser] appends the new user to the registry
    and also makes that new user the acting current user, whoever was
    acting before; capital, loans and payments are untouched. *)
Theorem registerUser_sets_currentUser :
  forall (now : Date) (s s' : LendingState) (name : string) (role : Role),
    registerUser now s name role = Done s' ->
    exists newUser : User.t,
      users s' = users s ++ [newUser] /\
      currentUser s' = Some newUser /\
      User.name newUser = name /\
      User.role newUser = role /\
      User.id newUser = Date_now_toString now /\
      capital s' = capital s /\ loans s' = loans s /\ payments s' = payments s.
Proof.
  intros now s s' name role Hreg.
  apply registerUser_Done in Hreg. subst s'.
  eexists. repeat split; reflexivity.
Qed.

Lemma registerUser_sets_currentUser_witness :
  currentUser stateAlice = Some alice /\
  exists newUser : User.t,
    users stateBobJoined = users stateAlice ++ [newUser] /\
    currentUser stateBobJoined = Some newUser /\
    User.name newUser = "Bob"%string /\
    User.role newUser = borrower /\
    User.id newUser = Date_now_toString 3000 /\
    capital stateBobJoined = capital stateAlice /\
    loans stateBobJoined = loans stateAlice /\
    payments stateBobJoined = payments stateAlice.
Proof.
  split.
  - reflexivity.
  - apply (registerUser_sets_currentUser 3000%Z stateAlice stateBobJoined
             "Bob" borrower).
    reflexivity.
Defined.

(** ** System reset *)

(** C2, as the code has it. [systemReset], invoked by the lender, discards
    all capital entries, loans and payments, and keeps a registry of one
    user, the acting lender; every other registered user is discarded. *)
Theorem systemReset_keeps_only_current_user :
  forall (s : LendingState) (u : User.t),
    currentUser s = Some u ->
    User.role u = lender ->
    systemReset s = Done (mkState [u] [] [] [] (Some u)).
Proof.
  intros s u Hcur Hrole. unfold systemReset.
  rewrite Hcur, Hrole. reflexivity.
Qed.

Lemma systemReset_keeps_only_current_user_witness :
  currentUser stateA = Some alice /\
  systemReset stateA = Done (mkState [alice] [] [] [] (Some alice)).
Proof.
  split.
  - reflexivity.
  - apply (systemReset_keeps_only_current_user stateA alice); reflexivity.
Defined.

(** C2, as stated, fails: after scenario A the registry holds Alice and
    Bob; Alice resets the system and Bob is gone from the registry. *)
Lemma systemReset_discards_other_users :
  isLender stateA = true /\
  users stateA = [alice; bob] /\
  exists s' : LendingState,
    systemReset stateA = Done s' /\
    users s' = [alice] /\
    users s' <> users stateA.
Proof.
  split; [reflexivity|]. split; [reflexivity|].
  eexists. split; [reflexivity|]. split; [reflexivity|].
  discriminate.
Qed.

(** ** Payment allocation *)

(** What [recordPayment] does when it commits: the payment it appends and
    the loan it writes back. *)
Lemma recordPayment_Done {cal : Calendar} :
  forall (now : Date) (s s' : LendingState) (loanId : string)
         (amount : number) (method : PaymentMethod),
    recordPayment now s loanId amount method = Done s' ->
    s' = s \/
    exists loan : Loan.t,
      findLoan loanId (loans s) = Some loan /\
      Loan.status loan = approved /\
      amount <= Loan.totalDue loan - Loan.principalPaid loan - Loan.interestPaid loan /\
      payments s' =
        payments s ++
        [Payment.mk (Date_now_toString now) loanId (currentUserId s) amount
           method now
           (amount - Math_min amount (remainingInterest loan))
           (Math_min amount (remainingInterest loan))] /\
      users s' = users s /\ capital s' = capital s /\
      currentUser s' = currentUser s /\
      exists updatedLoan : Loan.t,
        loans s' =
          map (fun l => if String.eqb (Loan.id l) loanId then updatedLoan else l)
              (loans s) /\
        Loan.id updatedLoan = Loan.id loan /\
        Loan.amount updatedLoan = Loan.amount loan /\
        Loan.status updatedLoan = Loan.status loan /\
        Loan.totalDue updatedLoan = Loan.totalDue loan /\
        Loan.principalPaid updatedLoan =
          Loan.principalPaid loan
          + (amount - Math_min amount (remainingInterest loan)) /\
        Loan.interestPaid updatedLoan =
          Loan.interestPaid loan + Math_min amount (remainingInterest loan).
Proof.
  intros now s s' loanId amount method Hpay.
  unfold recordPayment in Hpay.
  destruct (negb (isBorrower s)); [left; congruence|].
  destruct (findLoan loanId (loans s)) as [loan|] eqn:Hfind; [|left; congruence].
  destruct (LoanStatus_eqb (Loan.status loan) approved) eqn:Hst;
    simpl in Hpay; [|left; congruence].
  destruct (gt amount _) eqn:Hgt; [discriminate|].
  apply gt_false in Hgt.
  right. exists loan.
  assert (Hap : Loan.status loan = approved)
    by (destruct (Loan.status loan); simpl in Hst; congruence).
  injection Hpay as Hs'. subst s'. simpl.
  repeat split; try assumption.
  match goal with
  | |- context [map (fun l => if _ then ?u else l)] => exists u
  end.
  split; [reflexivity|].
  destruct (lt _ _); simpl; repeat split; reflexivity.
Qed.

(** ** The overdue sweep *)

Lemma with_isOverdue_same (l : Loan.t) :
  Loan.isOverdue l = true -> Loan.with_isOverdue true l = l.
Proof.
  destruct l; simpl; intros ->; reflexivity.
Qed.

(** The sweep never touches a loan that is already flagged overdue. *)
Lemma sweepLoan_overdue (now : Date) (l : Loan.t) :
  Loan.isOverdue l = true -> sweepLoan now l = l.
Proof.
  intro Hover. unfold sweepLoan.
  destruct (_ && _); [|reflexivity].
  rewrite Hover. simpl. apply with_isOverdue_same, Hover.
Qed.

(** It changes the total due only of a loan that carries neither flag. *)
Lemma sweepLoan_totalDue (now : Date) (l : Loan.t) :
  Loan.totalDue (sweepLoan now l) <> Loan.totalDue l ->
  Loan.isOverdue l = false /\ Loan.overdueInterestApplied l = false.
Proof.
  unfold sweepLoan.
  destruct (_ && _); [|intro Hne; now elim Hne].
  destruct (Loan.isOverdue l), (Loan.overdueInterestApplied l); simpl;
    intro Hne; try (now elim Hne).
  split; reflexivity.
Qed.

Lemma sweepLoan_flagged (now : Date) (l : Loan.t) :
  sweepLoan now l = l \/ Loan.isOverdue (sweepLoan now l) = true.
Proof.
  unfold sweepLoan.
  destruct (_ && _); [right|left; reflexivity].
  destruct (negb _ && negb _); reflexivity.
Qed.

Lemma sweepLoan_idempotent (now : Date) (l : Loan.t) :
  sweepLoan now (sweepLoan now l) = sweepLoan now l.
Proof.
  destruct (sweepLoan_flagged now l) as [Hsame | Hflag].
  - rewrite Hsame. exact Hsame.
  - apply sweepLoan_overdue, Hflag.
Qed.

Lemma keepsBump_id : keepsBump (fun l => l).
Proof. intros l Hb. split; [exact Hb | reflexivity]. Qed.

Lemma keepsBump_sweep (now : Date) : keepsBump (sweepLoan now).
Proof.
  intros l [Hover Happlied].
  rewrite (sweepLoan_overdue now l Hover). repeat split; assumption.
Qed.

Lemma keepsBump_decide (loanId : string) (g : Loan.t -> Loan.t) :
  (forall l, Loan.isOverdue (g l) = Loan.isOverdue l /\
             Loan.overdueInterestApplied (g l) = Loan.overdueInterestApplied l /\
             Loan.totalDue (g l) = Loan.totalDue l) ->
  keepsBump (fun l => if String.eqb (Loan.id l) loanId then g l else l).
Proof.
  intros Hg l [Hover Happlied]. unfold bumped.
  destruct (String.eqb (Loan.id l) loanId).
  - destruct (Hg l) as (-> & -> & ->). repeat split; assumption.
  - repeat split; assumption.
Qed.

(** Every command except a payment acts on the loans that exist by a
    function that keeps bumped loans as they are, possibly adding a new
    loan at the end, or empties the ledger. *)
Lemma dispatch_loans {cal : Calendar} :
  forall (now : Date) (c : Command) (s s' : LendingState),
    isRecordPayment c = false ->
    dispatch now c s = Done s' ->
    loans s' = [] \/
    exists (f : Loan.t -> Loan.t) (added : list Loan.t),
      keepsBump f /\ loans s' = map f (loans s) ++ added.
Proof.
  intros now c s s' Hc Hd.
  assert (Hid : forall ls : list Loan.t, ls = map (fun l => l) ls ++ [])
    by (intro ls; rewrite map_id, app_nil_r; reflexivity).
  destruct c; simpl in Hd; try discriminate Hc.
  - (* RegisterUser *)
    apply registerUser_Done in Hd. subst s'.
    right. exists (fun l => l), []. split; [apply keepsBump_id|].
    apply Hid.
  - (* SwitchUser *)
    injection Hd as <-. right. exists (fun l => l), [].
    split; [apply keepsBump_id|].
    unfold switchUser. destruct (find _ _); apply Hid.
  - (* DepositCapital *)
    unfold handleDeposit, depositCapital in Hd. done_inv Hd;
      right; exists (fun l => l), []; (split; [apply keepsBump_id|apply Hid]).
  - (* WithdrawCapital *)
    unfold handleWithdraw, withdrawCapital in Hd. done_inv Hd;
      right; exists (fun l => l), []; (split; [apply keepsBump_id|apply Hid]).
  - (* RequestLoan *)
    unfold handleLoanRequest, requestLoan in Hd. done_inv Hd; right.
    + exists (fun l => l), []. split; [apply keepsBump_id|apply Hid].
    + eexists (fun l => l), _. split; [apply keepsBump_id|].
      simpl. rewrite map_id. reflexivity.
  - (* DecideLoan *)
    unfold handleLoanAction, approveLoan in Hd. done_inv Hd; right;
      try (exists (fun l => l), []; split; [apply keepsBump_id|apply Hid]).
    + eexists _, []. split; [|simpl; rewrite app_nil_r; reflexivity].
      apply keepsBump_decide. intro l. repeat split.
    + eexists _, []. split; [|simpl; rewrite app_nil_r; reflexivity].
      apply keepsBump_decide. intro l. repeat split.
  - (* SystemReset *)
    unfold systemReset in Hd. done_inv Hd;
      try (right; exists (fun l => l), [];
           split; [apply keepsBump_id|apply Hid]).
    left. reflexivity.
  - (* OverdueSweep *)
    injection Hd as <-. right. exists (sweepLoan now), [].
    split; [apply keepsBump_sweep|]. simpl. rewrite app_nil_r. reflexivity.
Qed.

(** A bumped loan stays bumped, with the same total due, through every
    command that is not a payment. *)
Lemma nonpayment_keeps_bump {cal : Calendar} :
  forall (now : Date) (c : Command) (s s' : LendingState) (i : nat)
         (l l' : Loan.t),
    isRecordPayment c = false ->
    dispatch now c s = Done s' ->
    nth_error (loans s) i = Some l ->
    nth_error (loans s') i = Some l' ->
    bumped l ->
    bumped l' /\ Loan.totalDue l' = Loan.totalDue l.
Proof.
  intros now c s s' i l l' Hc Hd Hl Hl' Hb.
  destruct (dispatch_loans now c s s' Hc Hd) as [Hnil | (f & added & Hf & Hmap)].
  - rewrite Hnil in Hl'. destruct i; discriminate.
  - rewrite Hmap in Hl'.
    rewrite nth_error_app1 in Hl'
      by (rewrite length_map; apply nth_error_Some; congruence).
    rewrite (map_nth_error f _ _ Hl) in Hl'. injection Hl' as <-.
    apply Hf, Hb.
Qed.

(** C7. The sweep is idempotent per overdue episode. A sweep leaves a loan
    that is already overdue with its bump applied exactly as it is, so its
    total due is unchanged, and sweeping twice at the same time is the same
    as sweeping once. The sweep raises the total due only of a loan that
    carries neither overdue flag, and no command other than a payment takes
    the flags off a bumped loan or changes its total due: a new bump needs
    a payment that cleared the flags first. *)
Theorem overdue_sweep_idempotent {cal : Calendar} :
  forall now : Date,
    (forall l : Loan.t, bumped l -> sweepLoan now l = l) /\
    (forall s : LendingState,
        updateOverdueLoans now (updateOverdueLoans now s)
        = updateOverdueLoans now s) /\
    (forall l : Loan.t,
        Loan.totalDue (sweepLoan now l) <> Loan.totalDue l ->
        Loan.isOverdue l = false /\ Loan.overdueInterestApplied l = false) /\
    (forall (c : Command) (s s' : LendingState) (i : nat) (l l' : Loan.t),
        isRecordPayment c = false ->
        dispatch now c s = Done s' ->
        nth_error (loans s) i = Some l ->
        nth_error (loans s') i = Some l' ->
        bumped l ->
        bumped l' /\ Loan.totalDue l' = Loan.totalDue l).
Proof.
  intro now.
  split; [|split; [|split]].
  - intros l [Hover _]. apply sweepLoan_overdue, Hover.
  - intro s. unfold updateOverdueLoans, with_loans. simpl.
    rewrite map_map. f_equal.
    apply map_ext. intro l. apply sweepLoan_idempotent.
  - intro l. apply sweepLoan_totalDue.
  - apply nonpayment_keeps_bump.
Qed.

Lemma overdue_sweep_idempotent_witness :
  bumped (loanIn stateE) /\
  nth_error (loans stateE) 0 = Some (loanIn stateE) /\
  sweepLoan 2700000000 (loanIn stateE) = loanIn stateE /\
  (bumped (loanIn (updateOverdueLoans 2700000000 stateE)) /\
   Loan.totalDue (loanIn (updateOverdueLoans 2700000000 stateE))
   = Loan.totalDue (loanIn stateE)).
Proof.
  assert (Hb : bumped (loanIn stateE)) by (split; vm_compute; reflexivity).
  split; [exact Hb|]. split; [vm_compute; reflexivity|]. split.
  - apply (proj1 (overdue_sweep_idempotent (cal := plainCalendar) 2700000000%Z)).
    exact Hb.
  - apply (proj2 (proj2 (proj2
             (overdue_sweep_idempotent (cal := plainCalendar) 2700000000%Z)))
             OverdueSweep stateE (updateOverdueLoans 2700000000 stateE)
             0%nat (loanIn stateE)).
    + reflexivity.
    + reflexivity.
    + vm_compute; reflexivity.
    + vm_compute; reflexivity.
    + exact Hb.
Defined.

(** The first sweep after the due date does apply the bump: in scenario E
    the balance is 168 and the total due grows by 168 * 0.06 = 10.08. *)
Example scenarioE_bump :
  Loan.totalDue (loanIn stateB) == 318 /\
  Loan.totalDue (loanIn stateE) == 328.08 /\
  Loan.isOverdue (loanIn stateB) = false /\
  bumped (loanIn stateE).
Proof.
  split; [vm_compute; reflexivity|].
  split; [vm_compute; reflexivity|].
  split; [vm_compute; reflexivity|].
  split; vm_compute; reflexivity.
Qed.

(** ** Deciding a loan *)

Lemma findLoan_In (loanId : string) (ls : list Loan.t) (loan : Loan.t) :
  findLoan loanId ls = Some loan -> In loan ls /\ Loan.id loan = loanId.
Proof.
  intro Hfind. apply find_some in Hfind. destruct Hfind as [Hin Heq].
  split; [exact Hin | apply String.eqb_eq, Heq].
Qed.

Lemma findLoan_map_update (loanId : string) (g : Loan.t -> Loan.t)
    (ls : list Loan.t) (loan : Loan.t) :
  (forall l, Loan.id (g l) = Loan.id l) ->
  findLoan loanId ls = Some loan ->
  findLoan loanId
    (map (fun l => if String.eqb (Loan.id l) loanId then g l else l) ls)
  = Some (g loan).
Proof.
  intros Hg. unfold findLoan.
  induction ls as [|a ls IH]; simpl; [discriminate|].
  destruct (String.eqb (Loan.id a) loanId) eqn:Ea.
  - intro Hsome. injection Hsome as <-. rewrite Hg, Ea. reflexivity.
  - rewrite Ea. exact IH.
Qed.

(** C3, as the code has it. [approveLoan] never looks at the status of the
    loan it decides. For the lender and a loan found by its identifier,
    whatever the loan's status: a reject decision sets the status to
    rejected; an approve decision sets it to approved, with a new approval
    time and due date, when the loan amount does not exceed the available
    capital, and throws the insufficient-capital error otherwise. That
    error is the only failure of a decision. *)
Theorem approveLoan_ignores_status {cal : Calendar} :
  forall (now : Date) (s : LendingState) (loanId : string) (loan : Loan.t),
    isLender s = true ->
    findLoan loanId (loans s) = Some loan ->
    (exists s' : LendingState,
        approveLoan now s loanId false = Done s' /\
        findLoan loanId (loans s') = Some (Loan.with_status rejected loan)) /\
    (Loan.amount loan <= availableCapital s ->
     exists s' : LendingState,
        approveLoan now s loanId true = Done s' /\
        findLoan loanId (loans s')
        = Some (Loan.with_dueDate
                  (Some (nextDueDate now (Loan.paymentSchedule loan)))
                  (Loan.with_approvedAt (Some now)
                     (Loan.with_status approved loan)))) /\
    (availableCapital s < Loan.amount loan ->
     approveLoan now s loanId true
     = Throw "Insufficient capital to approve loan") /\
    (forall (approve : bool) (msg : string),
        approveLoan now s loanId approve = Throw msg ->
        approve = true /\
        msg = "Insufficient capital to approve loan"%string /\
        availableCapital s < Loan.amount loan).
Proof.
  intros now s loanId loan Hlender Hfind.
  unfold approveLoan. rewrite Hlender, Hfind. simpl.
  split; [|split; [|split]].
  - eexists. split; [reflexivity|]. simpl.
    apply (findLoan_map_update loanId (Loan.with_status rejected));
      [reflexivity | exact Hfind].
  - intro Hle. apply gt_false in Hle. rewrite Hle.
    eexists. split; [reflexivity|]. simpl.
    apply (findLoan_map_update loanId
             (fun l => Loan.with_dueDate _
                         (Loan.with_approvedAt _ (Loan.with_status approved l))));
      [reflexivity | exact Hfind].
  - intro Hlt. apply gt_true in Hlt. rewrite Hlt. reflexivity.
  - intros approve msg Hthrow.
    destruct approve; [|discriminate].
    destruct (gt (Loan.amount loan) (availableCapital s)) eqn:Hgt;
      [|discriminate].
    apply gt_true in Hgt. injection Hthrow as <-.
    repeat split. exact Hgt.
Qed.

Lemma approveLoan_ignores_status_witness :
  isLender stateRejected = true /\
  findLoan "4000" (loans stateRejected) = Some (loanIn stateRejected) /\
  Loan.status (loanIn stateRejected) = rejected /\
  Loan.amount (loanIn stateRejected) <= availableCapital stateRejected /\
  exists s' : LendingState,
    approveLoan (cal := plainCalendar) 7000 stateRejected "4000" true = Done s' /\
    findLoan "4000" (loans s')
    = Some (Loan.with_dueDate (Some 2678407000%Z)
              (Loan.with_approvedAt (Some 7000%Z)
                 (Loan.with_status approved (loanIn stateRejected)))).
Proof.
  assert (Hlender : isLender stateRejected = true)
    by (vm_compute; reflexivity).
  assert (Hfind : findLoan "4000" (loans stateRejected)
                  = Some (loanIn stateRejected))
    by (vm_compute; reflexivity).
  assert (Hle : Loan.amount (loanIn stateRejected)
                <= availableCapital stateRejected)
    by (vm_compute; discriminate).
  split; [exact Hlender|]. split; [exact Hfind|].
  split; [vm_compute; reflexivity|].
  split; [exact Hle|].
  apply (proj1 (proj2
           (approveLoan_ignores_status (cal := plainCalendar) 7000%Z
              stateRejected "4000" (loanIn stateRejected)
              Hlender Hfind))).
  exact Hle.
Defined.

(** C3, as stated, fails: Alice rejects Bob's request and then approves the
    rejected loan; the second decision is accepted and the loan becomes
    approved. *)
Lemma rejected_loan_becomes_approved :
  Loan.status (loanIn stateRejected) = rejected /\
  exists s' : LendingState,
    approveLoan (cal := plainCalendar) 7000 stateRejected "4000" true = Done s' /\
    Loan.status (loanIn s') = approved /\
    s' <> stateRejected.
Proof.
  split; [vm_compute; reflexivity|].
  eexists. split; [vm_compute; reflexivity|]. split; [vm_compute; reflexivity|].
  intro Heq. apply (f_equal (fun st => Loan.status (loanIn st))) in Heq.
  vm_compute in Heq. discriminate Heq.
Qed.

(** ** Available capital *)

Lemma unique_by_id (ls : list Loan.t) (a b : Loan.t) :
  NoDup (map Loan.id ls) ->
  In a ls -> In b ls -> Loan.id a = Loan.id b -> a = b.
Proof.
  induction ls as [|x ls IH]; simpl; intros Hnd Ha Hb Hid; [contradiction|].
  inversion Hnd as [|? ? Hnotin Hnd']; subst.
  destruct Ha as [-> | Ha], Hb as [-> | Hb].
  - reflexivity.
  - exfalso. apply Hnotin. rewrite Hid. apply in_map, Hb.
  - exfalso. apply Hnotin. rewrite <- Hid. apply in_map, Ha.
  - apply IH; assumption.
Qed.

(** A rewrite of the loans that keeps every status and amount keeps the
    amounts that count as loaned. *)
Lemma loaned_amounts_map (f : Loan.t -> Loan.t) (ls : list Loan.t) :
  (forall l, In l ls ->
             Loan.status (f l) = Loan.status l /\
             Loan.amount (f l) = Loan.amount l) ->
  map Loan.amount (filter isApproved (map f ls))
  = map Loan.amount (filter isApproved ls).
Proof.
  induction ls as [|a ls IH]; simpl; intro Hf; [reflexivity|].
  destruct (Hf a (or_introl eq_refl)) as [Hst Hamt].
  assert (IH' := IH (fun l Hin => Hf l (or_intror Hin))).
  assert (Hap : isApproved (f a) = isApproved a)
    by (unfold isApproved; rewrite Hst; reflexivity).
  rewrite Hap.
  destruct (isApproved a); simpl; rewrite ?Hamt, IH'; reflexivity.
Qed.

(** A payment never changes the available capital: the amount that counts
    as loaned is the loan's original amount while its status is approved,
    whatever has been repaid. *)
Lemma recordPayment_availableCapital {cal : Calendar} :
  forall (now : Date) (s s' : LendingState) (loanId : string)
         (amount : number) (method : PaymentMethod),
    uniqueLoanIds s ->
    recordPayment now s loanId amount method = Done s' ->
    availableCapital s' == availableCapital s.
Proof.
  intros now s s' loanId amount method Huniq Hpay.
  destruct (recordPayment_Done _ _ _ _ _ _ Hpay)
    as [-> | (loan & Hfind & _ & _ & _ & _ & Hcap & _ & u & Hloans & Hid & Hamt & Hst & _)];
    [reflexivity|].
  unfold availableCapital.
  rewrite !totalLoaned_sum. unfold totalCapital. rewrite Hcap, Hloans.
  rewrite loaned_amounts_map; [reflexivity|].
  intros l Hin.
  destruct (String.eqb (Loan.id l) loanId) eqn:El; [|split; reflexivity].
  apply String.eqb_eq in El.
  destruct (findLoan_In _ _ _ Hfind) as [Hin' Hid'].
  assert (l = loan) as ->
    by (apply (unique_by_id (loans s)); try assumption; congruence).
  split; assumption.
Qed.

(** C1, as the code has it. The available capital is the sum of all capital
    entries minus the sum of the original amounts of all loans whose status
    is approved; what has been repaid of an approved loan does not count,
    so a payment leaves the available capital as it is. This value is the
    one [withdrawCapital] and the approval of a loan check against. *)
Theorem availableCapital_counts_original_amounts {cal : Calendar} :
  forall (now : Date) (s : LendingState),
    availableCapital s
    == sumOf (map Capital.amount (capital s))
       - sumOf (map Loan.amount (filter isApproved (loans s))) /\
    (forall (loanId : string) (amount : number) (method : PaymentMethod)
            (s' : LendingState),
        uniqueLoanIds s ->
        recordPayment now s loanId amount method = Done s' ->
        availableCapital s' == availableCapital s) /\
    (forall amount : number,
        isLender s = true ->
        withdrawCapital now s amount
        = if gt amount (availableCapital s)
          then Throw "Insufficient available capital"
          else Done (with_capital
                       (capital s ++
                        [Capital.mk (Date_now_toString now) (currentUserId s)
                           (- amount) now]) s)) /\
    (forall (loanId : string) (loan : Loan.t),
        isLender s = true ->
        findLoan loanId (loans s) = Some loan ->
        (approveLoan now s loanId true
         = Throw "Insufficient capital to approve loan"
         <-> availableCapital s < Loan.amount loan)).
Proof.
  intros now s. split; [|split; [|split]].
  - unfold availableCapital.
    rewrite totalCapital_sum, totalLoaned_sum. reflexivity.
  - intros loanId amount method s' Huniq Hpay.
    exact (recordPayment_availableCapital _ _ _ _ _ _ Huniq Hpay).
  - intros amount Hlender. unfold withdrawCapital.
    rewrite Hlender. reflexivity.
  - intros loanId loan Hlender Hfind. unfold approveLoan.
    rewrite Hlender, Hfind. simpl.
    destruct (gt (Loan.amount loan) (availableCapital s)) eqn:Hgt.
    + apply gt_true in Hgt. split; [intros _; exact Hgt | reflexivity].
    + apply gt_false in Hgt. split; [discriminate|].
      intro Hlt. exfalso. apply (Qlt_not_le _ _ Hlt Hgt).
Qed.

Lemma availableCapital_counts_original_amounts_witness :
  uniqueLoanIds stateA_borrower /\
  recordPayment (cal := plainCalendar) 8000 stateA_borrower "4000" 150 cash
    = Done stateB /\
  availableCapital stateB == availableCapital stateA_borrower /\
  availableCapital stateB == 200.
Proof.
  assert (Huniq : uniqueLoanIds stateA_borrower).
  { unfold uniqueLoanIds.
    replace (map Loan.id (loans stateA_borrower)) with ["4000"%string]
      by (vm_compute; reflexivity).
    constructor; [intros [] | constructor]. }
  assert (Hpay : recordPayment (cal := plainCalendar) 8000 stateA_borrower
                   "4000" 150 cash = Done stateB)
    by (vm_compute; reflexivity).
  split; [exact Huniq|]. split; [exact Hpay|]. split.
  - apply (proj1 (proj2
             (availableCapital_counts_original_amounts (cal := plainCalendar)
                8000%Z stateA_borrower))
             "4000"%string 150 cash stateB Huniq Hpay).
  - vm_compute. reflexivity.
Defined.

(** C1, as stated, fails: after scenario B, 132 of the principal of 300 is
    repaid. The specification's available capital is 500 - (300 - 132) =
    332, the code's is 500 - 300 = 200, and the lender's withdrawal of 250
    is refused. *)
Lemma availableCapital_ignores_principal_paid :
  isLender stateB_lender = true /\
  Loan.principalPaid (loanIn stateB_lender) == 132 /\
  availableCapital_spec stateB_lender == 332 /\
  availableCapital stateB_lender == 200 /\
  ~ availableCapital stateB_lender == availableCapital_spec stateB_lender /\
  withdrawCapital 9000 stateB_lender 250
  = Throw "Insufficient available capital".
Proof.
  split; [vm_compute; reflexivity|].
  split; [vm_compute; reflexivity|].
  split; [vm_compute; reflexivity|].
  split; [vm_compute; reflexivity|].
  split; [vm_compute; discriminate|].
  vm_compute; reflexivity.
Qed.

(** ** Interest owed on an overdue loan *)

(** C4, evaluated on the code. After scenario A nothing is paid and the
    sweep finds the loan past due: the balance is 318 and the bump added to
    the total due is 318 * 0.06 = 19.08. The interest then outstanding is
    18 + 19.08 = 37.08, but [recordPayment] counts 18 + 300 * 0.06 = 36:
    paying off the 337.08 due records 36 of interest and 301.08 of
    principal on a loan of 300. *)
Theorem overdue_interest_is_not_the_bump :
  Loan.status (loanIn statePastDue) = approved /\
  Loan.overdueInterestApplied (loanIn statePastDue) = true /\
  Loan.totalDue (loanIn stateA) == 318 /\
  Loan.totalDue (loanIn statePastDue) - Loan.totalDue (loanIn stateA) == 19.08 /\
  outstandingInterest_spec (loanIn statePastDue) 19.08 == 37.08 /\
  remainingInterest (loanIn statePastDue) == 36 /\
  Payment.amount (lastPayment statePaidOff) == 337.08 /\
  Payment.interestAmount (lastPayment statePaidOff) == 36 /\
  Payment.principalAmount (lastPayment statePaidOff) == 301.08 /\
  Loan.amount (loanIn statePaidOff) == 300 /\
  Loan.principalPaid (loanIn statePaidOff) == 301.08 /\
  Loan.interestPaid (loanIn statePaidOff) == 36.
Proof.
  repeat (split; [vm_compute; reflexivity|]).
  vm_compute; reflexivity.
Qed.

(** The same divergence after a partial payment (scenario E): the whole
    schedule interest of 18 is paid, the bump is 10.08, and a payment of 20
    is still split into 18 of interest and 2 of principal. *)
Example scenarioE_payment_split :
  Loan.interestPaid (loanIn stateE) == 18 /\
  outstandingInterest_spec (loanIn stateE) 10.08 == 10.08 /\
  remainingInterest (loanIn stateE) == 18 /\
  Math_min 20 (remainingInterest (loanIn stateE)) == 18.
Proof.
  repeat (split; [vm_compute; reflexivity|]).
  vm_compute; reflexivity.
Qed.

(** ** Requesting a loan *)

(** [requestLoan] refuses a borrower who has a pending or approved loan,
    whatever that loan's balance. *)
Lemma requestLoan_blocked_by_status :
  forall (now : Date) (s : LendingState) (amount : number)
         (paymentSchedule : PaymentSchedule) (loan : Loan.t),
    isBorrower s = true ->
    amount <= MAX_LOAN_AMOUNT ->
    In loan (loans s) ->
    Loan.borrowerId loan = currentUserId s ->
    Loan.status loan = pending \/ Loan.status loan = approved ->
    requestLoan now s amount paymentSchedule
    = Throw "You already have an active loan".
Proof.
  intros now s amount paymentSchedule loan Hb Hamt Hin Hown Hst.
  unfold requestLoan. rewrite Hb. simpl.
  apply gt_false in Hamt. rewrite Hamt.
  assert (Hex : existsb (isActiveLoanOf (currentUserId s)) (loans s) = true).
  { apply existsb_exists. exists loan. split; [exact Hin|].
    unfold isActiveLoanOf. rewrite Hown, String.eqb_refl. simpl.
    destruct Hst as [-> | ->]; reflexivity. }
  rewrite Hex. reflexivity.
Qed.

(** C5, evaluated on the code. Bob has paid his loan in full (132 + 168 of
    principal and 18 of interest, against a total due of 318); the loan
    still has status approved, and his next request is refused. *)
Theorem fully_paid_loan_blocks_new_request :
  isBorrower statePaid = true /\
  Loan.borrowerId (loanIn statePaid) = currentUserId statePaid /\
  Loan.status (loanIn statePaid) = approved /\
  fullyPaid (loanIn statePaid) /\
  requestLoan 10000 statePaid 100 weekly
  = Throw "You already have an active loan" /\
  handleLoanRequest 10000 statePaid 100 weekly
  = Throw "You already have an active loan".
Proof.
  repeat (split; [vm_compute; reflexivity|]).
  vm_compute; reflexivity.
Qed.

(** ** With exact amounts, paid amounts stay within the total due *)

Lemma interestRateOf_nonneg (paymentSchedule : PaymentSchedule) :
  0 <= interestRateOf paymentSchedule.
Proof.
  destruct paymentSchedule; unfold interestRateOf, WEEKLY_INTEREST_RATE,
    MONTHLY_INTEREST_RATE; discriminate.
Qed.


Lemma Math_min_cases (a b : number) :
  Math_min a b = a \/ Math_min a b = b.
Proof. unfold Math_min. destruct (Qle_bool a b); auto. Qed.





(** The states a script runs through are reachable. *)
Lemma run_reachable {cal : Calendar} :
  forall (script : list (Date * Command)) (s s' : LendingState),
    reachable s ->
    freshAlong script s ->
    run script s = Done s' ->
    reachable s'.
Proof.
  induction script as [|[now c] rest IH]; simpl; intros s s' Hreach Hfresh Hrun.
  - injection Hrun as <-. exact Hreach.
  - destruct Hfresh as [Hfresh Hrest].
    destruct (dispatch now c s) as [s1|msg] eqn:Hd; [|discriminate].
    apply (IH s1 s'); [|exact Hrest|exact Hrun].
    exact (reachable_step now c s s1 Hreach Hfresh Hd).
Qed.

Lemma stateB_reachable : reachable (cal := plainCalendar) stateB.
Proof.
  apply (run_reachable (cal := plainCalendar) scenarioB initialState).
  - apply reachable_init.
  - vm_compute. tauto.
  - vm_compute. reflexivity.
Qed.

Lemma stateE_reachable : reachable (cal := plainCalendar) stateE.
Proof.
  apply (run_reachable (cal := plainCalendar) scenarioE initialState).
  - apply reachable_init.
  - vm_compute. tauto.
  - vm_compute. reflexivity.
Qed.

(** ** With exact amounts, the available capital is not negative *)

Lemma loaned_as_sum (ls : list Loan.t) :
  sumOf (map Loan.amount (filter isApproved ls)) == sumOf (map loanedOf ls).
Proof.
  induction ls as [|a ls IH]; simpl; [reflexivity|].
  unfold loanedOf at 1. destruct (isApproved a); simpl; rewrite IH; ring.
Qed.

Lemma availableCapital_eq (s : LendingState) :
  availableCapital s
  == sumOf (map Capital.amount (capital s)) - sumOf (map loanedOf (loans s)).
Proof.
  unfold availableCapital.
  rewrite totalCapital_sum, totalLoaned_sum, loaned_as_sum. reflexivity.
Qed.

Lemma availableCapital_frame (s s' : LendingState) :
  capital s' = capital s -> loans s' = loans s ->
  availableCapital s' = availableCapital s.
Proof.
  intros Hc Hl. unfold availableCapital, totalCapital, totalLoaned.
  rewrite Hc, Hl. reflexivity.
Qed.

Lemma NoDup_snoc {A : Type} (xs : list A) (x : A) :
  NoDup xs -> ~ In x xs -> NoDup (xs ++ [x]).
Proof.
  induction xs as [|a xs IH]; simpl; intros Hnd Hnotin.
  - constructor; [intros [] | constructor].
  - inversion Hnd as [|? ? Ha Hnd']; subst. constructor.
    + intro Hin. apply in_app_or in Hin. destruct Hin as [Hin | [-> | []]].
      * exact (Ha Hin).
      * apply Hnotin. left. reflexivity.
    + apply IH; [exact Hnd' | intro Hin; apply Hnotin; right; exact Hin].
Qed.

(** Rewriting the loans with a given identifier keeps the identifiers. *)
Lemma ids_update (loanId : string) (g : Loan.t -> Loan.t) (ls : list Loan.t) :
  (forall l, Loan.id l = loanId -> Loan.id (g l) = Loan.id l) ->
  map Loan.id
    (map (fun l => if String.eqb (Loan.id l) loanId then g l else l) ls)
  = map Loan.id ls.
Proof.
  intro Hg. rewrite map_map. apply map_ext. intro l.
  destruct (String.eqb (Loan.id l) loanId) eqn:El; [|reflexivity].
  apply Hg, String.eqb_eq, El.
Qed.

(** With unique identifiers, rewriting the loans with a given identifier
    changes the contribution of the one loan found and nothing else. *)
Lemma loaned_update (loanId : string) (g : Loan.t -> Loan.t)
    (ls : list Loan.t) (loan : Loan.t) :
  NoDup (map Loan.id ls) ->
  findLoan loanId ls = Some loan ->
  sumOf (map loanedOf
           (map (fun l => if String.eqb (Loan.id l) loanId then g l else l) ls))
  == sumOf (map loanedOf ls) - loanedOf loan + loanedOf (g loan).
Proof.
  unfold findLoan.
  induction ls as [|a ls IH]; simpl; intros Hnd Hfind; [discriminate|].
  inversion Hnd as [|? ? Ha Hnd']; subst.
  destruct (String.eqb (Loan.id a) loanId) eqn:Ea.
  - injection Hfind as <-.
    apply String.eqb_eq in Ea.
    rewrite (map_ext_in _ (fun l => l)), map_id; [ring|].
    intros l Hl.
    destruct (String.eqb (Loan.id l) loanId) eqn:El; [|reflexivity].
    exfalso. apply Ha. apply String.eqb_eq in El.
    rewrite Ea, <- El. apply in_map, Hl.
  - rewrite (IH Hnd' Hfind). ring.
Qed.

Lemma loanedOf_nonneg (ls : list Loan.t) (loan : Loan.t) :
  Forall (fun l => 0 <= Loan.amount l) ls -> In loan ls -> 0 <= loanedOf loan.
Proof.
  intros Hpos Hin. rewrite Forall_forall in Hpos.
  unfold loanedOf. destruct (isApproved loan); [apply Hpos, Hin | apply Qle_refl].
Qed.

Lemma depositCapital_ledgerInv :
  forall (now : Date) (s s' : LendingState) (amount : number),
    ledgerInv s -> 0 <= amount ->
    depositCapital now s amount = Done s' ->
    ledgerInv s'.
Proof.
  intros now s s' amount (Huniq & Hpos & Hav) Hamt Hdep.
  unfold depositCapital in Hdep.
  destruct (negb (isLender s)); injection Hdep as <-;
    [repeat split; assumption|].
  split; [exact Huniq|]. split; [exact Hpos|].
  rewrite availableCapital_eq in *. simpl.
  rewrite map_app, sumOf_app. simpl. lra.
Qed.

Lemma withdrawCapital_ledgerInv :
  forall (now : Date) (s s' : LendingState) (amount : number),
    ledgerInv s ->
    withdrawCapital now s amount = Done s' ->
    ledgerInv s'.
Proof.
  intros now s s' amount (Huniq & Hpos & Hav) Hw.
  unfold withdrawCapital in Hw.
  destruct (negb (isLender s));
    [injection Hw as <-; repeat split; assumption|].
  destruct (gt amount (availableCapital s)) eqn:Hgt; [discriminate|].
  apply gt_false in Hgt. injection Hw as <-.
  split; [exact Huniq|]. split; [exact Hpos|].
  rewrite availableCapital_eq in *. simpl.
  rewrite map_app, sumOf_app. simpl. lra.
Qed.

Lemma requestLoan_ledgerInv :
  forall (now : Date) (s s' : LendingState) (amount : number)
         (paymentSchedule : PaymentSchedule),
    ledgerInv s -> 0 <= amount ->
    ~ In (Date_now_toString now) (map Loan.id (loans s)) ->
    requestLoan now s amount paymentSchedule = Done s' ->
    ledgerInv s'.
Proof.
  intros now s s' amount paymentSchedule (Huniq & Hpos & Hav) Hamt Hfresh Hreq.
  unfold requestLoan in Hreq.
  done_inv Hreq; [repeat split; assumption|].
  split; [|split].
  - unfold uniqueLoanIds. simpl. rewrite map_app. simpl.
    apply NoDup_snoc; assumption.
  - unfold nonnegativeLoans. simpl. apply Forall_app.
    split; [exact Hpos|]. constructor; [exact Hamt | constructor].
  - rewrite availableCapital_eq in *. simpl.
    rewrite map_app, sumOf_app. simpl.
    unfold loanedOf at 2. simpl. lra.
Qed.

Lemma approveLoan_ledgerInv {cal : Calendar} :
  forall (now : Date) (s s' : LendingState) (loanId : string) (approve : bool),
    ledgerInv s ->
    approveLoan now s loanId approve = Done s' ->
    ledgerInv s'.
Proof.
  intros now s s' loanId approve (Huniq & Hpos & Hav) Hdec.
  unfold approveLoan in Hdec.
  destruct (negb (isLender s));
    [injection Hdec as <-; repeat split; assumption|].
  destruct (findLoan loanId (loans s)) as [loan|] eqn:Hfind;
    [|injection Hdec as <-; repeat split; assumption].
  destruct (findLoan_In _ _ _ Hfind) as [Hin _].
  assert (Hloaned := loanedOf_nonneg _ _ Hpos Hin).
  destruct approve.
  - destruct (gt (Loan.amount loan) (availableCapital s)) eqn:Hgt;
      [discriminate|].
    apply gt_false in Hgt. injection Hdec as <-.
    split; [|split].
    + unfold uniqueLoanIds. simpl. rewrite ids_update; [exact Huniq|].
      reflexivity.
    + unfold nonnegativeLoans. simpl. apply Forall_map.
      apply (Forall_impl _ (P := fun l => 0 <= Loan.amount l));
        [|exact Hpos].
      intros l Hl. destruct (String.eqb (Loan.id l) loanId); exact Hl.
    + rewrite availableCapital_eq in *. simpl.
      rewrite (loaned_update loanId _ (loans s) loan Huniq Hfind).
      unfold loanedOf at 3. simpl.
      unfold loanedOf in *. destruct (isApproved loan); lra.
  - injection Hdec as <-.
    split; [|split].
    + unfold uniqueLoanIds. simpl. rewrite ids_update; [exact Huniq|].
      reflexivity.
    + unfold nonnegativeLoans. simpl. apply Forall_map.
      apply (Forall_impl _ (P := fun l => 0 <= Loan.amount l));
        [|exact Hpos].
      intros l Hl. destruct (String.eqb (Loan.id l) loanId); exact Hl.
    + rewrite availableCapital_eq in *. simpl.
      rewrite (loaned_update loanId _ (loans s) loan Huniq Hfind).
      unfold loanedOf at 3. simpl. lra.
Qed.

Lemma recordPayment_ledgerInv {cal : Calendar} :
  forall (now : Date) (s s' : LendingState) (loanId : string)
         (amount : number) (method : PaymentMethod),
    ledgerInv s ->
    recordPayment now s loanId amount method = Done s' ->
    ledgerInv s'.
Proof.
  intros now s s' loanId amount method (Huniq & Hpos & Hav) Hpay.
  assert (Hsame := recordPayment_availableCapital _ _ _ _ _ _ Huniq Hpay).
  destruct (recordPayment_Done _ _ _ _ _ _ Hpay)
    as [-> | (loan & Hfind & _ & _ & _ & _ & _ & _ & u & Hloans & Hid & Hamt & _)];
    [repeat split; assumption|].
  destruct (findLoan_In _ _ _ Hfind) as [Hin Hid'].
  split; [|split].
  - unfold uniqueLoanIds. rewrite Hloans.
    rewrite (ids_update loanId (fun _ => u)); [exact Huniq|].
    intros l Hl. congruence.
  - unfold nonnegativeLoans. rewrite Hloans. apply Forall_map.
    assert (Hpos' := Hpos). unfold nonnegativeLoans in Hpos'.
    rewrite Forall_forall in Hpos'.
    apply (Forall_impl _ (P := fun l => 0 <= Loan.amount l)); [|exact Hpos].
    intros l Hl. destruct (String.eqb (Loan.id l) loanId); [|exact Hl].
    rewrite Hamt. apply Hpos', Hin.
  - rewrite Hsame. exact Hav.
Qed.

Lemma sweepLoan_frame (now : Date) (l : Loan.t) :
  Loan.id (sweepLoan now l) = Loan.id l /\
  Loan.status (sweepLoan now l) = Loan.status l /\
  Loan.amount (sweepLoan now l) = Loan.amount l.
Proof.
  unfold sweepLoan. destruct (_ && _); [|repeat split].
  destruct (negb _ && negb _); repeat split.
Qed.

Lemma updateOverdueLoans_ledgerInv :
  forall (now : Date) (s : LendingState),
    ledgerInv s -> ledgerInv (updateOverdueLoans now s).
Proof.
  intros now s (Huniq & Hpos & Hav).
  split; [|split].
  - unfold uniqueLoanIds. simpl. rewrite map_map.
    rewrite (map_ext _ Loan.id); [exact Huniq|].
    intro l. apply sweepLoan_frame.
  - unfold nonnegativeLoans. simpl. apply Forall_map.
    apply (Forall_impl _ (P := fun l => 0 <= Loan.amount l)); [|exact Hpos].
    intros l Hl. destruct (sweepLoan_frame now l) as (_ & _ & ->). exact Hl.
  - unfold availableCapital in *. rewrite totalLoaned_sum in *.
    unfold totalCapital in *. simpl.
    rewrite loaned_amounts_map; [exact Hav|].
    intros l _. destruct (sweepLoan_frame now l) as (_ & -> & ->).
    split; reflexivity.
Qed.

Lemma initial_ledgerInv : ledgerInv initialState.
Proof.
  split; [constructor|]. split; [constructor|].
  vm_compute. discriminate.
Qed.

Lemma frame_ledgerInv (s s' : LendingState) :
  capital s' = capital s -> loans s' = loans s ->
  ledgerInv s -> ledgerInv s'.
Proof.
  intros Hc Hl (Huniq & Hpos & Hav).
  unfold ledgerInv, uniqueLoanIds, nonnegativeLoans.
  rewrite (availableCapital_frame s s' Hc Hl), Hl.
  repeat split; assumption.
Qed.

(** Every command keeps the invariant of the capital ledger. *)
Lemma dispatch_ledgerInv {cal : Calendar} :
  forall (now : Date) (c : Command) (s s' : LendingState),
    ledgerInv s ->
    freshLoanId now c s ->
    dispatch now c s = Done s' ->
    ledgerInv s'.
Proof.
  intros now c s s' Hinv Hfresh Hd.
  destruct c; simpl in Hd, Hfresh.
  - apply registerUser_Done in Hd. subst s'.
    apply (frame_ledgerInv s); [reflexivity | reflexivity | exact Hinv].
  - injection Hd as <-. apply (frame_ledgerInv s); [| |exact Hinv];
      unfold switchUser; destruct (find _ _); reflexivity.
  - unfold handleDeposit in Hd.
    destruct (le amount 0) eqn:Hpos; [discriminate|].
    apply le_false in Hpos.
    apply (depositCapital_ledgerInv now s s' amount Hinv); [lra|exact Hd].
  - unfold handleWithdraw in Hd.
    destruct (le amount 0); [discriminate|].
    exact (withdrawCapital_ledgerInv now s s' amount Hinv Hd).
  - unfold handleLoanRequest in Hd.
    destruct (le amount 0) eqn:Hpos; [discriminate|].
    apply le_false in Hpos.
    destruct (gt amount 1000); [discriminate|].
    apply (requestLoan_ledgerInv now s s' amount paymentSchedule Hinv);
      [lra | exact Hfresh | exact Hd].
  - exact (approveLoan_ledgerInv now s s' loanId approve Hinv Hd).
  - unfold handlePayment in Hd.
    destruct (le amount 0); [discriminate|].
    exact (recordPayment_ledgerInv now s s' loanId amount method Hinv Hd).
  - unfold systemReset in Hd. done_inv Hd; try exact Hinv.
    split; [constructor|]. split; [constructor|].
    vm_compute. discriminate.
  - injection Hd as <-. apply updateOverdueLoans_ledgerInv, Hinv.
Qed.

Lemma reachable_ledgerInv {cal : Calendar} (s : LendingState) :
  reachable s -> ledgerInv s.
Proof.
  induction 1 as [|now c s s' _ IH Hfresh Hd].
  - exact initial_ledgerInv.
  - exact (dispatch_ledgerInv now c s s' IH Hfresh Hd).
Qed.

(** * Further properties of the ledger *)

(** ** Commands as steps *)

Lemma leb_false_lt (n m : nat) : (n <=? m)%nat = false -> (m < n)%nat.
Proof. intro Hle. apply Nat.leb_gt. exact Hle. Qed.

Lemma registerUser_step {cal : Calendar} :
  forall (now : Date) (s s' : LendingState) (name : string) (role : Role),
    registerUser now s name role = Done s' ->
    transition now s (RegisterUser name role) s'.
Proof.
  intros now s s' name role Hreg.
  unfold registerUser in Hreg.
  destruct (Role_eqb role borrower
            && (MAX_BORROWERS <=? countRole borrower (users s))%nat) eqn:Eb;
    [discriminate|].
  destruct (Role_eqb role lender
            && (1 <=? countRole lender (users s))%nat) eqn:El;
    [discriminate|].
  injection Hreg as <-.
  apply (step_register now s name role).
  - intros ->. simpl in Eb. apply leb_false_lt, Eb.
  - intros ->. simpl in El.
    destruct (countRole lender (users s)); [reflexivity | discriminate].
Qed.

Lemma recordPayment_step {cal : Calendar} :
  forall (now : Date) (s s' : LendingState) (loanId : string)
         (amount : number) (method : PaymentMethod),
    0 < amount ->
    recordPayment now s loanId amount method = Done s' ->
    transition now s (RecordPayment loanId amount method) s'.
Proof.
  intros now s s' loanId amount method Hpos Hpay.
  unfold recordPayment in Hpay.
  destruct (negb (isBorrower s)) eqn:Hb;
    [injection Hpay as <-; apply step_none|].
  destruct (findLoan loanId (loans s)) as [loan|] eqn:Hfind;
    [|injection Hpay as <-; apply step_none].
  destruct (LoanStatus_eqb (Loan.status loan) approved) eqn:Hst;
    simpl in Hpay; [|injection Hpay as <-; apply step_none].
  destruct (gt amount _) eqn:Hgt; [discriminate|].
  apply gt_false in Hgt. injection Hpay as <-.
  apply (step_payment now s loanId loan amount method).
  - apply negb_false_iff, Hb.
  - exact Hfind.
  - destruct (Loan.status loan); simpl in Hst; congruence.
  - exact Hpos.
  - exact Hgt.
Qed.

Lemma approveLoan_step {cal : Calendar} :
  forall (now : Date) (s s' : LendingState) (loanId : string) (approve : bool),
    approveLoan now s loanId approve = Done s' ->
    transition now s (DecideLoan loanId approve) s'.
Proof.
  intros now s s' loanId approve Hdec.
  unfold approveLoan in Hdec.
  destruct (negb (isLender s)) eqn:Hl;
    [injection Hdec as <-; apply step_none|].
  apply negb_false_iff in Hl.
  destruct (findLoan loanId (loans s)) as [loan|] eqn:Hfind;
    [|injection Hdec as <-; apply step_none].
  destruct approve.
  - destruct (gt (Loan.amount loan) (availableCapital s)) eqn:Hgt;
      [discriminate|].
    apply gt_false in Hgt. injection Hdec as <-.
    exact (step_approve now s loanId loan Hl Hfind Hgt).
  - injection Hdec as <-.
    exact (step_reject now s loanId loan Hl Hfind).
Qed.

(** Every committed command is one of the steps. *)
Lemma dispatch_transition {cal : Calendar} :
  forall (now : Date) (c : Command) (s s' : LendingState),
    freshLoanId now c s ->
    dispatch now c s = Done s' ->
    transition now s c s'.
Proof.
  intros now c s s' Hfresh Hd.
  destruct c; simpl in Hd, Hfresh.
  - exact (registerUser_step now s s' name role Hd).
  - injection Hd as <-. unfold switchUser.
    destruct (find _ (users s)) as [user|] eqn:Hfind; [|apply step_none].
    exact (step_switch now s userId user Hfind).
  - unfold handleDeposit in Hd.
    destruct (le amount 0) eqn:Hpos; [discriminate|]. apply le_false in Hpos.
    unfold depositCapital in Hd.
    destruct (negb (isLender s)) eqn:Hl; injection Hd as <-;
      [apply step_none|].
    apply step_deposit; [apply negb_false_iff, Hl | exact Hpos].
  - unfold handleWithdraw in Hd.
    destruct (le amount 0) eqn:Hpos; [discriminate|]. apply le_false in Hpos.
    unfold withdrawCapital in Hd.
    destruct (negb (isLender s)) eqn:Hl;
      [injection Hd as <-; apply step_none|].
    destruct (gt amount (availableCapital s)) eqn:Hgt; [discriminate|].
    injection Hd as <-.
    apply step_withdraw;
      [apply negb_false_iff, Hl | exact Hpos | apply gt_false, Hgt].
  - unfold handleLoanRequest in Hd.
    destruct (le amount 0) eqn:Hpos; [discriminate|]. apply le_false in Hpos.
    destruct (gt amount 1000) eqn:Hcap; [discriminate|].
    unfold requestLoan in Hd.
    destruct (negb (isBorrower s)) eqn:Hb;
      [injection Hd as <-; apply step_none|].
    destruct (gt amount MAX_LOAN_AMOUNT) eqn:Hmax; [discriminate|].
    destruct (existsb _ (loans s)) eqn:Hact; [discriminate|].
    injection Hd as <-.
    apply (step_request now s amount paymentSchedule);
      [apply negb_false_iff, Hb | exact Hpos | apply gt_false, Hmax
      | exact Hact | exact Hfresh].
  - exact (approveLoan_step now s s' loanId approve Hd).
  - unfold handlePayment in Hd.
    destruct (le amount 0) eqn:Hpos; [discriminate|]. apply le_false in Hpos.
    exact (recordPayment_step now s s' loanId amount method Hpos Hd).
  - unfold systemReset in Hd.
    destruct (currentUser s) as [u|] eqn:Hcur;
      [|injection Hd as <-; apply step_none].
    destruct (negb (Role_eqb (User.role u) lender)) eqn:Hr;
      injection Hd as <-; [apply step_none|].
    apply (step_reset now s u Hcur).
    destruct (User.role u); simpl in Hr; congruence.
  - injection Hd as <-. apply step_sweep.
Qed.

(** An invariant of the steps holds in every reachable state. *)
Lemma reachable_invariant {cal : Calendar} (P : LendingState -> Prop) :
  P initialState ->
  (forall (now : Date) (c : Command) (s s' : LendingState),
      reachable s -> P s -> transition now s c s' -> P s') ->
  forall s : LendingState, reachable s -> P s.
Proof.
  intros Hinit Hstep s Hreach.
  induction Hreach as [|now c s s' Hreach IH Hfresh Hd].
  - exact Hinit.
  - apply (Hstep now c s s' Hreach IH).
    exact (dispatch_transition now c s s' Hfresh Hd).
Qed.

(** ** Invariants of the loans *)

Lemma Forall_updateLoans (P : Loan.t -> Prop) (loanId : string)
    (g : Loan.t -> Loan.t) (ls : list Loan.t) :
  (forall l, In l ls -> P l -> P (g l)) ->
  Forall P ls -> Forall P (updateLoans loanId g ls).
Proof.
  intros Hg Hall. unfold updateLoans. apply Forall_map.
  rewrite Forall_forall in *. intros l Hin.
  destruct (String.eqb (Loan.id l) loanId); [apply Hg|]; auto.
Qed.

(** A property of single loans that the new loan has and that every
    update of a loan keeps holds for all loans after every step. *)
Lemma loans_invariant {cal : Calendar} (P : Loan.t -> Prop) :
  (forall now s amount paymentSchedule,
      0 < amount -> amount <= MAX_LOAN_AMOUNT ->
      P (newLoan now s amount paymentSchedule)) ->
  (forall now loan l, P l -> P (approveUpdate now loan l)) ->
  (forall l, P l -> P (Loan.with_status rejected l)) ->
  (forall now amount loan,
      P loan -> Loan.status loan = approved ->
      0 < amount -> amount <= remainingBalance loan ->
      P (applyPayment now amount loan)) ->
  (forall now l, P l -> P (sweepLoan now l)) ->
  forall (now : Date) (c : Command) (s s' : LendingState),
    Forall P (loans s) -> transition now s c s' -> Forall P (loans s').
Proof.
  intros Hnew Happrove Hreject Hpay Hsweep now c s s' Hall Hstep.
  destruct Hstep; simpl; try exact Hall.
  - apply Forall_app. split; [exact Hall|].
    constructor; [|constructor]. apply Hnew; assumption.
  - apply Forall_updateLoans; [|exact Hall]. intros l _. apply Happrove.
  - apply Forall_updateLoans; [|exact Hall]. intros l _. apply Hreject.
  - apply Forall_updateLoans; [|exact Hall]. intros l _ _.
    match goal with
    | Hf : findLoan _ _ = Some _ |- _ =>
        destruct (findLoan_In _ _ _ Hf) as [Hin _]
    end.
    rewrite Forall_forall in Hall. apply Hpay; auto.
  - constructor.
  - apply Forall_map. rewrite Forall_forall in *.
    intros l Hin. apply Hsweep, Hall, Hin.
Qed.

Lemma wellFormed_newLoan (now : Date) (s : LendingState) (amount : number)
    (paymentSchedule : PaymentSchedule) :
  0 < amount -> amount <= MAX_LOAN_AMOUNT ->
  wellFormedLoan (newLoan now s amount paymentSchedule).
Proof.
  intros Hpos Hcap.
  assert (Hrate := interestRateOf_nonneg paymentSchedule).
  assert (Har : 0 <= amount * interestRateOf paymentSchedule)
    by (apply Qmult_le_0_compat; lra).
  unfold wellFormedLoan, untouched. simpl.
  repeat split; try assumption; try reflexivity; try lra; try discriminate.
Qed.

Lemma wellFormed_approveUpdate {cal : Calendar} (now : Date)
    (loan l : Loan.t) :
  wellFormedLoan l -> wellFormedLoan (approveUpdate now loan l).
Proof.
  unfold wellFormedLoan, approveUpdate. simpl.
  intros (H1 & H2 & H3 & H4 & H5 & H6 & H7 & H8 & H9 & _ & _).
  repeat split; try assumption; discriminate.
Qed.

Lemma wellFormed_reject (l : Loan.t) :
  wellFormedLoan l -> wellFormedLoan (Loan.with_status rejected l).
Proof.
  unfold wellFormedLoan. simpl.
  intros (H1 & H2 & H3 & H4 & H5 & H6 & H7 & H8 & H9 & _ & _).
  repeat split; try assumption; discriminate.
Qed.

Lemma Math_min_le_l (a b : number) : Math_min a b <= a.
Proof.
  unfold Math_min. destruct (Qle_bool a b) eqn:E; [apply Qle_refl|].
  apply Qlt_le_weak, gt_true. unfold gt. rewrite E. reflexivity.
Qed.

Lemma Math_min_le_r (a b : number) : Math_min a b <= b.
Proof.
  unfold Math_min. destruct (Qle_bool a b) eqn:E; [|apply Qle_refl].
  apply Qle_bool_iff, E.
Qed.

Lemma wellFormed_applyPayment {cal : Calendar} (now : Date)
    (amount : number) (loan : Loan.t) :
  wellFormedLoan loan -> Loan.status loan = approved ->
  0 < amount -> amount <= remainingBalance loan ->
  wellFormedLoan (applyPayment now amount loan).
Proof.
  unfold wellFormedLoan, remainingBalance.
  intros (H1 & H2 & H3 & H4 & H5 & H6 & H7 & H8 & H9 & _ & H11) Hst Hpos Hle.
  destruct (H11 Hst) as [Hdue Happ].
  assert (Hrate := interestRateOf_nonneg (Loan.paymentSchedule loan)).
  rewrite <- H3 in Hrate.
  assert (Har : 0 <= Loan.amount loan * Loan.interestRate loan)
    by (apply Qmult_le_0_compat; lra).
  assert (Hminl := Math_min_le_l amount (remainingInterest loan)).
  assert (Hminr := Math_min_le_r amount (remainingInterest loan)).
  assert (Hrem : remainingInterest loan
                 <= 2 * (Loan.amount loan * Loan.interestRate loan)
                    - Loan.interestPaid loan).
  { unfold remainingInterest.
    destruct (Loan.overdueInterestApplied loan); lra. }
  assert (Hip : 0 <= Loan.interestPaid loan
                     + Math_min amount (remainingInterest loan)).
  { destruct (Math_min_cases amount (remainingInterest loan)) as [-> | ->];
      [lra|].
    unfold remainingInterest.
    destruct (Loan.overdueInterestApplied loan); lra. }
  unfold applyPayment. cbv zeta.
  destruct (lt _ _); simpl;
    (repeat split; try assumption; try lra; try discriminate;
     try congruence).
Qed.

Lemma wellFormed_sweepLoan (now : Date) (l : Loan.t) :
  wellFormedLoan l -> wellFormedLoan (sweepLoan now l).
Proof.
  intro Hwf. assert (Hwf' := Hwf). unfold wellFormedLoan in Hwf.
  destruct Hwf as (H1 & H2 & H3 & H4 & H5 & H6 & H7 & H8 & H9 & H10 & H11).
  unfold sweepLoan.
  destruct (LoanStatus_eqb (Loan.status l) approved) eqn:Hst; simpl;
    [|exact Hwf'].
  assert (Hap : Loan.status l = approved)
    by (destruct (Loan.status l); simpl in Hst; congruence).
  destruct (H11 Hap) as [Hdue Happ].
  destruct (match Loan.dueDate l with
            | Some dueDate => (now >? dueDate)%Z
            | None => false
            end);
    [|exact Hwf'].
  assert (Hrate := interestRateOf_nonneg (Loan.paymentSchedule l)).
  assert (Hbump : 0 <= (Loan.totalDue l - Loan.principalPaid l
                        - Loan.interestPaid l)
                       * interestRateOf (Loan.paymentSchedule l))
    by (apply Qmult_le_0_compat; lra).
  unfold wellFormedLoan.
  destruct (Loan.isOverdue l) eqn:Hover,
           (Loan.overdueInterestApplied l) eqn:Happlied;
    try discriminate; simpl; rewrite ?Hover, ?Happlied;
    (repeat split; try assumption; try lra; try reflexivity;
     try congruence).
Qed.

Lemma reachable_wellFormed {cal : Calendar} (s : LendingState) :
  reachable s -> Forall wellFormedLoan (loans s).
Proof.
  apply (reachable_invariant (fun s => Forall wellFormedLoan (loans s))).
  - constructor.
  - intros now c s0 s' _ Hall Hstep. revert Hall Hstep.
    apply loans_invariant.
    + apply wellFormed_newLoan.
    + apply @wellFormed_approveUpdate.
    + apply wellFormed_reject.
    + apply @wellFormed_applyPayment.
    + apply wellFormed_sweepLoan.
Qed.

(** ** Invariants of the registry *)

Lemma countRole_app (r : Role) (us vs : list User.t) :
  countRole r (us ++ vs) = (countRole r us + countRole r vs)%nat.
Proof.
  unfold countRole. rewrite filter_app, length_app. reflexivity.
Qed.

Lemma transition_registryInv {cal : Calendar} :
  forall (now : Date) (c : Command) (s s' : LendingState),
    registryInv s -> transition now s c s' -> registryInv s'.
Proof.
  intros now c s s' (Hl & Hb & Hcur & Hnone) Hstep.
  destruct Hstep as [ c | name role Hcapb Hcapl | userId user Hfind | | | | | |
                      | u Hu Hrole | ];
    try (split; [exact Hl|]; split; [exact Hb|]; split; assumption).
  - (* register *)
    unfold registryInv. simpl. rewrite !countRole_app.
    split; [|split; [|split]].
    + destruct role; unfold countRole at 2; simpl;
        [rewrite (Hcapl eq_refl) | ]; lia.
    + destruct role; unfold countRole at 2; simpl;
        [ | specialize (Hcapb eq_refl)]; lia.
    + intros u Hu. injection Hu as <-. apply in_or_app. right. left.
      reflexivity.
    + discriminate.
  - (* switch *)
    split; [exact Hl|]. split; [exact Hb|]. simpl. split.
    + intros u Hu. injection Hu as <-.
      apply find_some in Hfind. apply Hfind.
    + discriminate.
  - (* reset *)
    unfold registryInv, countRole. simpl. rewrite Hrole. simpl.
    split; [lia|]. split; [unfold MAX_BORROWERS; lia|]. split.
    + intros u' Hu'. injection Hu' as <-. left. reflexivity.
    + discriminate.
Qed.

Lemma reachable_registryInv {cal : Calendar} (s : LendingState) :
  reachable s -> registryInv s.
Proof.
  apply (reachable_invariant registryInv).
  - unfold registryInv, countRole, MAX_BORROWERS. simpl.
    repeat split; try lia; discriminate.
  - intros now c s0 s' _. apply transition_registryInv.
Qed.

(** X1. In every reachable state at most one lender and at most nineteen
    borrowers are registered. *)
Theorem role_caps_hold {cal : Calendar} :
  forall s : LendingState,
    reachable s ->
    (lenders (getUserCount s) <= 1)%nat /\
    (borrowers (getUserCount s) <= 19)%nat.
Proof.
  intros s Hreach.
  destruct (reachable_registryInv s Hreach) as (Hl & Hb & _).
  split; assumption.
Qed.

Lemma role_caps_hold_witness :
  reachable (cal := plainCalendar) stateB /\
  (lenders (getUserCount stateB) <= 1)%nat /\
  (borrowers (getUserCount stateB) <= 19)%nat.
Proof.
  split; [exact stateB_reachable|].
  exact (role_caps_hold (cal := plainCalendar) stateB stateB_reachable).
Defined.

(** X2. In every reachable state the acting user is one of the registered
    users, and the registration screen is rendered exactly when nobody is
    registered: once a user exists there is always an acting user. *)
Theorem acting_user_is_registered {cal : Calendar} :
  forall s : LendingState,
    reachable s ->
    (forall u : User.t, currentUser s = Some u -> In u (users s)) /\
    (screen s = RegistrationScreen <-> users s = []).
Proof.
  intros s Hreach.
  destruct (reachable_registryInv s Hreach) as (_ & _ & Hcur & Hnone).
  split; [exact Hcur|].
  unfold screen. split.
  - destruct (currentUser s) as [u|] eqn:Hu; [|intros _; apply Hnone; reflexivity].
    destruct (Role_eqb (User.role u) lender); discriminate.
  - intro Hnil. destruct (currentUser s) as [u|] eqn:Hu; [|reflexivity].
    specialize (Hcur u eq_refl). rewrite Hnil in Hcur. contradiction.
Qed.

Lemma acting_user_is_registered_witness :
  reachable (cal := plainCalendar) stateB /\
  (forall u : User.t, currentUser stateB = Some u -> In u (users stateB)) /\
  (screen stateB = RegistrationScreen <-> users stateB = []).
Proof.
  split; [exact stateB_reachable|].
  exact (acting_user_is_registered (cal := plainCalendar) stateB
           stateB_reachable).
Defined.

(** ** Invariants of the payment history *)

Lemma refers_weaken (ls ls' : list Loan.t) (p : Payment.t) :
  (forall loan, In loan ls -> Loan.status loan <> pending ->
                exists loan', In loan' ls' /\ Loan.id loan' = Loan.id loan /\
                              Loan.status loan' <> pending) ->
  paymentRefers ls p -> paymentRefers ls' p.
Proof.
  intros Hmove (Hpos & Hsum & loan & Hin & Hid & Hst).
  split; [exact Hpos|]. split; [exact Hsum|].
  destruct (Hmove loan Hin Hst) as (loan' & Hin' & Hid' & Hst').
  exists loan'. repeat split; [exact Hin' | congruence | exact Hst'].
Qed.

Lemma updateLoans_moves (loanId : string) (g : Loan.t -> Loan.t)
    (ls : list Loan.t) :
  (forall l, Loan.id l = loanId ->
             Loan.id (g l) = Loan.id l /\ Loan.status (g l) <> pending) ->
  forall loan, In loan ls -> Loan.status loan <> pending ->
    exists loan', In loan' (updateLoans loanId g ls) /\
                  Loan.id loan' = Loan.id loan /\
                  Loan.status loan' <> pending.
Proof.
  intros Hg loan Hin Hst.
  exists (if String.eqb (Loan.id loan) loanId then g loan else loan).
  split.
  - unfold updateLoans.
    apply (in_map (fun l => if String.eqb (Loan.id l) loanId then g l else l)).
    exact Hin.
  - destruct (String.eqb (Loan.id loan) loanId) eqn:E; [|split; auto].
    apply Hg, String.eqb_eq, E.
Qed.

Lemma applyPayment_frame {cal : Calendar} (now : Date) (amount : number)
    (loan : Loan.t) :
  Loan.id (applyPayment now amount loan) = Loan.id loan /\
  Loan.borrowerId (applyPayment now amount loan) = Loan.borrowerId loan /\
  Loan.borrowerName (applyPayment now amount loan) = Loan.borrowerName loan /\
  Loan.amount (applyPayment now amount loan) = Loan.amount loan /\
  Loan.interestRate (applyPayment now amount loan) = Loan.interestRate loan /\
  Loan.paymentSchedule (applyPayment now amount loan)
    = Loan.paymentSchedule loan /\
  Loan.requestedAt (applyPayment now amount loan) = Loan.requestedAt loan /\
  Loan.status (applyPayment now amount loan) = Loan.status loan /\
  Loan.totalDue (applyPayment now amount loan) = Loan.totalDue loan /\
  Loan.principalPaid (applyPayment now amount loan)
    = Loan.principalPaid loan
      + (amount - Math_min amount (remainingInterest loan)) /\
  Loan.interestPaid (applyPayment now amount loan)
    = Loan.interestPaid loan + Math_min amount (remainingInterest loan).
Proof.
  unfold applyPayment. cbv zeta. destruct (lt _ _); simpl; repeat split.
Qed.

Lemma paymentsOf_app (loanId : string) (ps qs : list Payment.t) :
  paymentsOf loanId (ps ++ qs) = paymentsOf loanId ps ++ paymentsOf loanId qs.
Proof. unfold paymentsOf. apply filter_app. Qed.

Lemma paymentsOf_fresh (ls : list Loan.t) (ps : list Payment.t)
    (loanId : string) :
  Forall (paymentRefers ls) ps ->
  ~ In loanId (map Loan.id ls) ->
  paymentsOf loanId ps = [].
Proof.
  intros Hall Hfresh. unfold paymentsOf.
  induction Hall as [|p ps Hp _ IH]; simpl; [reflexivity|].
  destruct (String.eqb (Payment.loanId p) loanId) eqn:E; [|exact IH].
  exfalso. apply Hfresh. apply String.eqb_eq in E.
  destruct Hp as (_ & _ & loan & Hin & Hid & _).
  rewrite <- E, <- Hid. apply in_map, Hin.
Qed.

Lemma balances_map (ps : list Payment.t) (f : Loan.t -> Loan.t)
    (ls : list Loan.t) :
  (forall l, Loan.id (f l) = Loan.id l /\
             Loan.principalPaid (f l) = Loan.principalPaid l /\
             Loan.interestPaid (f l) = Loan.interestPaid l) ->
  Forall (loanBalances ps) ls -> Forall (loanBalances ps) (map f ls).
Proof.
  intros Hf Hall. apply Forall_map. rewrite Forall_forall in *.
  intros l Hin. unfold loanBalances.
  destruct (Hf l) as (-> & -> & ->). apply Hall, Hin.
Qed.

Lemma transition_historyInv {cal : Calendar} :
  forall (now : Date) (c : Command) (s s' : LendingState),
    historyInv s -> transition now s c s' -> historyInv s'.
Proof.
  intros now c s s' [Hrefs Hbal] Hstep.
  destruct Hstep as [ c | | | | | amount paymentSchedule _ _ _ _ Hfresh
                      | loanId loan _ Hfind _ | loanId loan _ Hfind
                      | loanId loan amount method _ Hfind Hst Hpos Hle
                      | | ];
    try (split; assumption).
  - (* request *)
    split; simpl.
    + apply (Forall_impl _ (P := paymentRefers (loans s))); [|exact Hrefs].
      intro p. apply refers_weaken. intros loan Hin Hnp.
      exists loan. repeat split; [apply in_or_app; left; exact Hin | exact Hnp].
    + apply Forall_app. split; [exact Hbal|].
      constructor; [|constructor].
      unfold loanBalances. simpl.
      rewrite (paymentsOf_fresh (loans s) (payments s) _ Hrefs Hfresh).
      simpl. split; reflexivity.
  - (* approve *)
    split; simpl.
    + apply (Forall_impl _ (P := paymentRefers (loans s))); [|exact Hrefs].
      intro p. apply refers_weaken. apply updateLoans_moves.
      intros l _. split; [reflexivity | discriminate].
    + apply (balances_map _ (fun l => if String.eqb (Loan.id l) loanId
                                      then approveUpdate now loan l else l));
        [|exact Hbal].
      intro l. destruct (String.eqb (Loan.id l) loanId); repeat split.
  - (* reject *)
    split; simpl.
    + apply (Forall_impl _ (P := paymentRefers (loans s))); [|exact Hrefs].
      intro p. apply refers_weaken. apply updateLoans_moves.
      intros l _. split; [reflexivity | discriminate].
    + apply (balances_map _ (fun l => if String.eqb (Loan.id l) loanId
                                      then Loan.with_status rejected l else l));
        [|exact Hbal].
      intro l. destruct (String.eqb (Loan.id l) loanId); repeat split.
  - (* payment *)
    destruct (findLoan_In _ _ _ Hfind) as [Hin Hid].
    destruct (applyPayment_frame now amount loan)
      as (Fid & _ & _ & _ & _ & _ & _ & Fst & _ & Fpp & Fip).
    assert (Hmoves :
      forall l, In l (loans s) -> Loan.status l <> pending ->
        exists l', In l' (updateLoans loanId
                            (fun _ => applyPayment now amount loan) (loans s)) /\
                   Loan.id l' = Loan.id l /\ Loan.status l' <> pending).
    { apply updateLoans_moves. intros l Hl. split; [congruence|].
      rewrite Fst, Hst. discriminate. }
    split; simpl.
    + apply Forall_app. split.
      * apply (Forall_impl _ (P := paymentRefers (loans s))); [|exact Hrefs].
        intro p. apply refers_weaken. exact Hmoves.
      * constructor; [|constructor].
        unfold paymentRefers. simpl.
        split; [exact Hpos|]. split; [apply Math_min_sum|].
        destruct (Hmoves loan Hin) as (l' & Hin' & Hid' & Hst');
          [rewrite Hst; discriminate|].
        exists l'. repeat split; [exact Hin' | congruence | exact Hst'].
    + unfold updateLoans. apply Forall_map.
      rewrite Forall_forall in Hbal |- *. intros l Hl.
      unfold loanBalances. rewrite !paymentsOf_app, !map_app, !sumOf_app.
      destruct (String.eqb (Loan.id l) loanId) eqn:E.
      * destruct (Hbal loan Hin) as [Bpp Bip].
        rewrite Fid, Fpp, Fip, Hid. unfold paymentsOf at 2 4. simpl.
        rewrite String.eqb_refl. simpl. rewrite Hid in Bpp, Bip.
        rewrite Bpp, Bip. split; ring.
      * destruct (Hbal l Hl) as [Bpp Bip].
        unfold paymentsOf at 2 4. simpl.
        rewrite String.eqb_sym, E. simpl. rewrite Bpp, Bip. split; ring.
  - (* reset *)
    split; constructor.
  - (* sweep *)
    split; simpl.
    + apply (Forall_impl _ (P := paymentRefers (loans s))); [|exact Hrefs].
      intro p. apply refers_weaken. intros loan Hin Hnp.
      exists (sweepLoan now loan).
      destruct (sweepLoan_frame now loan) as (Sid & Sst & _).
      repeat split; [apply in_map, Hin | exact Sid | rewrite Sst; exact Hnp].
    + apply balances_map; [|exact Hbal]. intro l.
      unfold sweepLoan. destruct (_ && _); [|repeat split].
      destruct (negb _ && negb _); repeat split.
Qed.

Lemma reachable_historyInv {cal : Calendar} (s : LendingState) :
  reachable s -> historyInv s.
Proof.
  apply (reachable_invariant historyInv).
  - split; constructor.
  - intros now c s0 s' _. apply transition_historyInv.
Qed.

(** X4. In every reachable state every recorded payment is of a positive
    amount and names a loan that is in the ledger and is no longer
    pending: no payment is ever recorded against a loan that was not
    approved first, and no loan with payments disappears. *)
Theorem payments_refer_to_decided_loans {cal : Calendar} :
  forall (s : LendingState) (p : Payment.t),
    reachable s -> In p (payments s) ->
    0 < Payment.amount p /\
    exists loan : Loan.t,
      In loan (loans s) /\ Loan.id loan = Payment.loanId p /\
      Loan.status loan <> pending.
Proof.
  intros s p Hreach Hin.
  destruct (reachable_historyInv s Hreach) as [Hrefs _].
  rewrite Forall_forall in Hrefs.
  destruct (Hrefs p Hin) as (Hpos & _ & Hloan).
  split; assumption.
Qed.

Lemma payments_refer_to_decided_loans_witness :
  reachable (cal := plainCalendar) stateB /\
  In (lastPayment stateB) (payments stateB) /\
  0 < Payment.amount (lastPayment stateB) /\
  exists loan : Loan.t,
    In loan (loans stateB) /\
    Loan.id loan = Payment.loanId (lastPayment stateB) /\
    Loan.status loan <> pending.
Proof.
  assert (Hps : payments stateB = [lastPayment stateB])
    by (vm_compute; reflexivity).
  assert (Hin : In (lastPayment stateB) (payments stateB))
    by (rewrite Hps; left; reflexivity).
  split; [exact stateB_reachable|]. split; [exact Hin|].
  exact (payments_refer_to_decided_loans (cal := plainCalendar) stateB
           (lastPayment stateB) stateB_reachable Hin).
Defined.

(** ** What holds of every loan *)


Lemma stateE_loan : In (loanIn stateE) (loans stateE).
Proof.
  assert (Hloans : loans stateE = [loanIn stateE])
    by (vm_compute; reflexivity).
  rewrite Hloans. left. reflexivity.
Qed.


(** X7. In every reachable state the two overdue flags of a loan agree: a
    loan is flagged overdue exactly when its overdue interest is marked as
    applied. *)
Theorem overdue_flags_agree {cal : Calendar} :
  forall (s : LendingState) (loan : Loan.t),
    reachable s -> In loan (loans s) ->
    Loan.isOverdue loan = Loan.overdueInterestApplied loan.
Proof.
  intros s loan Hreach Hin.
  assert (Hwf := reachable_wellFormed s Hreach).
  rewrite Forall_forall in Hwf.
  destruct (Hwf loan Hin) as (_ & _ & _ & H4 & _).
  exact H4.
Qed.

Lemma overdue_flags_agree_witness :
  reachable (cal := plainCalendar) stateE /\
  In (loanIn stateE) (loans stateE) /\
  Loan.isOverdue (loanIn stateE)
  = Loan.overdueInterestApplied (loanIn stateE).
Proof.
  split; [exact stateE_reachable|]. split; [exact stateE_loan|].
  exact (overdue_flags_agree (cal := plainCalendar) stateE
           (loanIn stateE) stateE_reachable stateE_loan).
Defined.

(** X8. In every reachable state a pending loan is exactly as it was
    requested (nothing paid, no approval time, no due date, no overdue
    flag, total due equal to the amount plus one schedule's interest) and
    an approved loan has an approval time and a due date. *)
Theorem loan_status_shapes {cal : Calendar} :
  forall (s : LendingState) (loan : Loan.t),
    reachable s -> In loan (loans s) ->
    (Loan.status loan = pending -> untouched loan) /\
    (Loan.status loan = approved ->
     Loan.dueDate loan <> None /\ Loan.approvedAt loan <> None).
Proof.
  intros s loan Hreach Hin.
  assert (Hwf := reachable_wellFormed s Hreach).
  rewrite Forall_forall in Hwf.
  destruct (Hwf loan Hin) as (_ & _ & _ & _ & _ & _ & _ & _ & _ & H10 & H11).
  split; assumption.
Qed.

Lemma loan_status_shapes_witness :
  reachable (cal := plainCalendar) stateE /\
  In (loanIn stateE) (loans stateE) /\
  (Loan.status (loanIn stateE) = pending -> untouched (loanIn stateE)) /\
  (Loan.status (loanIn stateE) = approved ->
   Loan.dueDate (loanIn stateE) <> None /\
   Loan.approvedAt (loanIn stateE) <> None).
Proof.
  split; [exact stateE_reachable|]. split; [exact stateE_loan|].
  exact (loan_status_shapes (cal := plainCalendar) stateE
           (loanIn stateE) stateE_reachable stateE_loan).
Defined.



(** ** What a step does to the records *)

Lemma nth_error_updateLoans (loanId : string) (g : Loan.t -> Loan.t)
    (ls : list Loan.t) (i : nat) (l : Loan.t) :
  nth_error ls i = Some l ->
  nth_error (updateLoans loanId g ls) i
  = Some (if String.eqb (Loan.id l) loanId then g l else l).
Proof.
  intro Hl. unfold updateLoans.
  apply (map_nth_error
           (fun l => if String.eqb (Loan.id l) loanId then g l else l)).
  exact Hl.
Qed.



(** X11. Every command other than the lender's reset only adds to the
    ledger: users, capital entries and payments are appended to and never
    changed, and no loan is removed. The reset empties capital, loans and
    payments. *)
Theorem history_is_append_only {cal : Calendar} :
  forall (now : Date) (c : Command) (s s' : LendingState),
    dispatch now c s = Done s' ->
    ((exists us, users s' = users s ++ us) /\
     (exists cs, capital s' = capital s ++ cs) /\
     (exists ps, payments s' = payments s ++ ps) /\
     (length (loans s) <= length (loans s'))%nat) \/
    (c = SystemReset /\ isLender s = true /\
     capital s' = [] /\ loans s' = [] /\ payments s' = []).
Proof.
  intros now c s s' Hd.
  assert (Hnil : forall A (xs : list A), exists ys, xs = xs ++ ys)
    by (intros A xs; exists []; rewrite app_nil_r; reflexivity).
  assert (Hsame : (exists us, users s = users s ++ us) /\
                  (exists cs, capital s = capital s ++ cs) /\
                  (exists ps, payments s = payments s ++ ps) /\
                  (length (loans s) <= length (loans s))%nat)
    by (repeat split; try apply Hnil; lia).
  destruct c; simpl in Hd.
  - left. apply registerUser_Done in Hd. subst s'. simpl.
    repeat split; try apply Hnil; try (eexists; reflexivity); lia.
  - left. injection Hd as <-. unfold switchUser.
    destruct (find _ _); simpl; exact Hsame.
  - left. unfold handleDeposit, depositCapital in Hd.
    done_inv Hd; [exact Hsame|]. simpl.
    repeat split; try apply Hnil; try (eexists; reflexivity); lia.
  - left. unfold handleWithdraw, withdrawCapital in Hd.
    done_inv Hd; [exact Hsame|]. simpl.
    repeat split; try apply Hnil; try (eexists; reflexivity); lia.
  - left. unfold handleLoanRequest, requestLoan in Hd.
    done_inv Hd; [exact Hsame|]. simpl. rewrite length_app.
    repeat split; try apply Hnil; lia.
  - left. unfold handleLoanAction, approveLoan in Hd.
    done_inv Hd; try exact Hsame; simpl; rewrite length_map;
      repeat split; try apply Hnil; lia.
  - left. unfold handlePayment in Hd.
    destruct (le amount 0); [discriminate|].
    destruct (recordPayment_Done _ _ _ _ _ _ Hd)
      as [-> | (loan & _ & _ & _ & Hps & Hus & Hcs & _ & u & Hls & _)];
      [exact Hsame|].
    rewrite Hps, Hus, Hcs, Hls, length_map.
    repeat split; try apply Hnil; try (eexists; reflexivity); lia.
  - unfold systemReset in Hd.
    destruct (currentUser s) as [u|] eqn:Hcur.
    + destruct (Role_eqb (User.role u) lender) eqn:Hr; simpl in Hd;
        injection Hd as <-.
      * right. unfold isLender. rewrite Hcur, Hr. repeat split.
      * left. exact Hsame.
    + left. injection Hd as <-. exact Hsame.
  - left. injection Hd as <-. simpl. rewrite length_map.
    repeat split; try apply Hnil; lia.
Qed.

Lemma history_is_append_only_witness :
  dispatch (cal := plainCalendar) 8000 (RecordPayment "4000" 150 cash)
    stateA_borrower = Done stateB /\
  (((exists us, users stateB = users stateA_borrower ++ us) /\
    (exists cs, capital stateB = capital stateA_borrower ++ cs) /\
    (exists ps, payments stateB = payments stateA_borrower ++ ps) /\
    (length (loans stateA_borrower) <= length (loans stateB))%nat) \/
   (RecordPayment "4000" 150 cash = SystemReset /\
    isLender stateA_borrower = true /\
    capital stateB = [] /\ loans stateB = [] /\ payments stateB = [])).
Proof.
  assert (Hd : dispatch (cal := plainCalendar) 8000
                 (RecordPayment "4000" 150 cash) stateA_borrower
               = Done stateB)
    by (vm_compute; reflexivity).
  split; [exact Hd|].
  exact (history_is_append_only (cal := plainCalendar) 8000%Z
           (RecordPayment "4000" 150 cash) stateA_borrower stateB Hd).
Defined.



(** ** The overdue sweep and the payment cycle *)

Lemma with_loans_same (s : LendingState) : with_loans (loans s) s = s.
Proof. destruct s; reflexivity. Qed.

(** X13. A sweep that finds no approved loan past its due date changes
    nothing: the state after it is the state before it. *)
Theorem sweep_before_due_is_noop :
  forall (now : Date) (s : LendingState),
    (forall (l : Loan.t) (d : Date),
        In l (loans s) -> Loan.status l = approved ->
        Loan.dueDate l = Some d -> (now <= d)%Z) ->
    updateOverdueLoans now s = s.
Proof.
  intros now s Hdue. unfold updateOverdueLoans.
  rewrite (map_ext_in (sweepLoan now) (fun l => l)), map_id;
    [apply with_loans_same|].
  intros l Hin. unfold sweepLoan.
  destruct (LoanStatus_eqb (Loan.status l) approved) eqn:Hst;
    [|reflexivity].
  destruct (Loan.dueDate l) as [d|] eqn:Hd; [|reflexivity].
  assert (Hle : (now <= d)%Z).
  { apply (Hdue l d Hin); [|exact Hd].
    destruct (Loan.status l); simpl in Hst; congruence. }
  assert (Hgt : (now >? d)%Z = false)
    by (rewrite Z.gtb_ltb; apply Z.ltb_ge; exact Hle).
  rewrite Hgt. reflexivity.
Qed.

Lemma sweep_before_due_is_noop_witness :
  (forall (l : Loan.t) (d : Date),
      In l (loans stateB) -> Loan.status l = approved ->
      Loan.dueDate l = Some d -> (9000 <= d)%Z) /\
  updateOverdueLoans 9000 stateB = stateB.
Proof.
  assert (Hdue : forall (l : Loan.t) (d : Date),
             In l (loans stateB) -> Loan.status l = approved ->
             Loan.dueDate l = Some d -> (9000 <= d)%Z).
  { assert (Hloans : loans stateB = [loanIn stateB])
      by (vm_compute; reflexivity).
    assert (Hd : Loan.dueDate (loanIn stateB) = Some 2678408000%Z)
      by (vm_compute; reflexivity).
    intros l d Hin _ Hl. rewrite Hloans in Hin.
    destruct Hin as [<- | []]. rewrite Hd in Hl. injection Hl as <-. lia. }
  split; [exact Hdue|].
  exact (sweep_before_due_is_noop 9000%Z stateB Hdue).
Defined.

(** ** Who can do what *)

(** X18. The commands are gated by the role of the acting user. From a
    reachable state, while the acting user is not the lender no command
    changes the capital entries or the status of any loan; while the
    acting user is not a borrower no command adds a loan, and the payments
    stay as they are. *)
Theorem commands_are_gated_by_role {cal : Calendar} :
  forall (now : Date) (c : Command) (s s' : LendingState),
    reachable s ->
    freshLoanId now c s ->
    dispatch now c s = Done s' ->
    (isLender s = false ->
     capital s' = capital s /\
     forall (i : nat) (l l' : Loan.t),
       nth_error (loans s) i = Some l ->
       nth_error (loans s') i = Some l' ->
       Loan.status l' = Loan.status l) /\
    (isBorrower s = false ->
     (length (loans s') <= length (loans s))%nat /\
     (payments s' = payments s \/ payments s' = [])).
Proof.
  intros now c s s' Hreach Hfresh Hd.
  assert (Huniq : uniqueLoanIds s) by apply (reachable_ledgerInv s Hreach).
  assert (Hstep := dispatch_transition now c s s' Hfresh Hd).
  split.
  - intro Hnl.
    destruct Hstep as [ c | | | amount Hl _ | amount Hl _ _
                        | amount paymentSchedule _ _ _ _ _
                        | loanId loan Hl _ _ | loanId loan Hl _
                        | loanId loan amount method _ Hfind Hst _ _
                        | u Hu Hrole | ];
      try congruence; simpl;
      try (split; [reflexivity|]; intros i l l' Hi Hi'; congruence).
    + split; [reflexivity|]. intros i l l' Hi Hi'.
      rewrite nth_error_app1 in Hi'
        by (apply nth_error_Some; congruence).
      congruence.
    + split; [reflexivity|]. intros i l l' Hi Hi'.
      rewrite (nth_error_updateLoans _ _ _ _ _ Hi) in Hi'.
      injection Hi' as <-.
      destruct (String.eqb (Loan.id l) loanId) eqn:E; [|reflexivity].
      apply String.eqb_eq in E.
      destruct (findLoan_In _ _ _ Hfind) as [Hin Hid].
      assert (l = loan) as ->.
      { apply (unique_by_id (loans s)); try assumption; [|congruence].
        apply (nth_error_In _ _ Hi). }
      apply (applyPayment_frame now amount loan).
    + exfalso. unfold isLender in Hnl. rewrite Hu, Hrole in Hnl.
      discriminate.
    + split; [reflexivity|]. intros i l l' Hi Hi'.
      rewrite (map_nth_error (sweepLoan now) _ _ Hi) in Hi'.
      injection Hi' as <-. apply (sweepLoan_frame now l).
  - intro Hnb.
    destruct Hstep as [ c | | | | | amount paymentSchedule Hb _ _ _ _ | |
                        | loanId loan amount method Hb _ _ _ _ | | ];
      try congruence; simpl; unfold updateLoans;
      rewrite ?length_map; split; try lia; auto.
Qed.

Lemma commands_are_gated_by_role_witness :
  reachable (cal := plainCalendar) stateB /\
  dispatch (cal := plainCalendar) 2680000000 OverdueSweep stateB
    = Done stateE /\
  (isLender stateB = false ->
   capital stateE = capital stateB /\
   forall (i : nat) (l l' : Loan.t),
     nth_error (loans stateB) i = Some l ->
     nth_error (loans stateE) i = Some l' ->
     Loan.status l' = Loan.status l) /\
  (isBorrower stateB = false ->
   (length (loans stateE) <= length (loans stateB))%nat /\
   (payments stateE = payments stateB \/ payments stateE = [])).
Proof.
  assert (Hd : dispatch (cal := plainCalendar) 2680000000 OverdueSweep stateB
               = Done stateE)
    by (vm_compute; reflexivity).
  split; [exact stateB_reachable|]. split; [exact Hd|].
  exact (commands_are_gated_by_role (cal := plainCalendar) 2680000000%Z
           OverdueSweep stateB stateE stateB_reachable I Hd).
Defined.

(** ** The forms against the commands *)

Lemma existsb_filter {A : Type} (p q : A -> bool) (xs : list A) :
  existsb q (filter p xs) = existsb (fun x => p x && q x) xs.
Proof.
  induction xs as [|x xs IH]; simpl; [reflexivity|].
  destruct (p x); simpl; rewrite IH; reflexivity.
Qed.

(** X21. The borrower dashboard hides the request form exactly when
    [requestLoan] would refuse the request for an active loan: for an
    acting borrower and an amount within the cap, [requestLoan] throws the
    active-loan error if and only if the dashboard's [hasActiveLoan],
    computed on the loans handed to the dashboard, is true. *)
Theorem request_form_matches_requestLoan :
  forall (now : Date) (s : LendingState) (amount : number)
         (paymentSchedule : PaymentSchedule),
    isBorrower s = true ->
    amount <= MAX_LOAN_AMOUNT ->
    (requestLoan now s amount paymentSchedule
     = Throw "You already have an active loan"
     <-> dashboardHasActiveLoan (borrowerLoans s) = true).
Proof.
  intros now s amount paymentSchedule Hb Hcap.
  assert (Hagree : dashboardHasActiveLoan (borrowerLoans s)
                   = existsb (isActiveLoanOf (currentUserId s)) (loans s)).
  { unfold dashboardHasActiveLoan, borrowerLoans.
    rewrite existsb_filter. reflexivity. }
  rewrite Hagree. unfold requestLoan. rewrite Hb. simpl.
  apply gt_false in Hcap. rewrite Hcap.
  destruct (existsb (isActiveLoanOf (currentUserId s)) (loans s)).
  - split; reflexivity.
  - split; discriminate.
Qed.

Lemma request_form_matches_requestLoan_witness :
  isBorrower stateB = true /\ 100 <= MAX_LOAN_AMOUNT /\
  (requestLoan 9000 stateB 100 weekly
   = Throw "You already have an active loan"
   <-> dashboardHasActiveLoan (borrowerLoans stateB) = true).
Proof.
  assert (Hb : isBorrower stateB = true) by (vm_compute; reflexivity).
  assert (Hcap : 100 <= MAX_LOAN_AMOUNT) by (vm_compute; discriminate).
  split; [exact Hb|]. split; [exact Hcap|].
  exact (request_form_matches_requestLoan 9000%Z stateB 100 weekly Hb Hcap).
Defined.

(** X22. The registration form disables its submit button exactly when
    [registerUser] would throw: for every state, name and role,
    [registerUser] throws if and only if the button's [disabled] condition,
    computed from [getUserCount], holds. *)
Theorem submit_button_matches_registerUser :
  forall (now : Date) (s : LendingState) (name : string) (role : Role),
    (exists msg : string, registerUser now s name role = Throw msg)
    <-> submitDisabled (getUserCount s) role = true.
Proof.
  intros now s name role.
  unfold registerUser, submitDisabled, getUserCount, MAX_BORROWERS.
  destruct role; cbn [Role_eqb andb orb lenders borrowers].
  - destruct (1 <=? countRole lender (users s))%nat;
      cbn [Role_eqb andb orb].
    + split; [reflexivity | intros _; eexists; reflexivity].
    + split; [intros [msg Hm]; discriminate | discriminate].
  - destruct (19 <=? countRole borrower (users s))%nat;
      cbn [Role_eqb andb orb].
    + split; [reflexivity | intros _; eexists; reflexivity].
    + split; [intros [msg Hm]; discriminate | discriminate].
Qed.

(** ** The registration form *)

Lemma registerUser_enabled :
  forall (now : Date) (s : LendingState) (name : string) (role : Role),
    submitDisabled (getUserCount s) role = false ->
    registerUser now s name role
    = Done (with_currentUser (Some (newUser now name role))
              (with_users (users s ++ [newUser now name role]) s)).
Proof.
  intros now s name role.
  unfold registerUser, submitDisabled, getUserCount, MAX_BORROWERS.
  destruct role; cbn [Role_eqb andb orb lenders borrowers].
  - destruct (1 <=? countRole lender (users s))%nat;
      cbn [Role_eqb andb orb]; [discriminate | reflexivity].
  - destruct (19 <=? countRole borrower (users s))%nat;
      cbn [Role_eqb andb orb]; [discriminate | reflexivity].
Qed.

Lemma existsb_false_forall {A : Type} (p : A -> bool) (xs : list A) :
  existsb p xs = false <-> forall x, In x xs -> p x = false.
Proof.
  split.
  - intros Hex x Hin. destruct (p x) eqn:Hp; [|reflexivity].
    assert (Hsome : existsb p xs = true)
      by (apply existsb_exists; exists x; split; assumption).
    congruence.
  - intro Hall. destruct (existsb p xs) eqn:Hex; [|reflexivity].
    apply existsb_exists in Hex. destruct Hex as (x & Hin & Hp).
    rewrite (Hall x Hin) in Hp. discriminate.
Qed.

(** X23. The registration form compares the name as typed with the
    registered names, but registers the trimmed name. So a name that only
    differs from a registered one by surrounding white space passes the
    duplicate check, and the registry then holds two users with the same
    name. *)
Theorem padded_name_passes_duplicate_check {js : JSString} :
  forall (now : Date) (s : LendingState) (name : string) (role : Role)
         (existing : User.t),
    In existing (users s) ->
    User.name existing = trim name ->
    trim name <> ""%string ->
    (forall u, In u (users s) -> toLowerCase (User.name u) <> toLowerCase name) ->
    submitDisabled (getUserCount s) role = false ->
    exists (s' : LendingState) (added : User.t),
      handleSubmit now s name role = Done s' /\
      users s' = users s ++ [added] /\
      User.name added = User.name existing /\
      currentUser s' = Some added.
Proof.
  intros now s name role existing Hin Hname Hne Hdiff Hen.
  exists (with_currentUser (Some (newUser now (trim name) role))
            (with_users (users s ++ [newUser now (trim name) role]) s)).
  exists (newUser now (trim name) role).
  split; [|split; [reflexivity | split; [simpl; congruence | reflexivity]]].
  unfold handleSubmit.
  assert (Hnonempty : String.eqb (trim name) "" = false)
    by (apply String.eqb_neq; exact Hne).
  rewrite Hnonempty.
  assert (Hnodup : existsb (fun user => String.eqb (toLowerCase (User.name user))
                                          (toLowerCase name)) (users s)
                   = false).
  { apply existsb_false_forall. intros u Hu.
    apply String.eqb_neq, Hdiff, Hu. }
  rewrite Hnodup. apply registerUser_enabled, Hen.
Qed.

Lemma padded_name_passes_duplicate_check_witness :
  In alice (users stateAlice) /\
  User.name alice = trim (JSString := asciiStrings) " Alice" /\
  trim (JSString := asciiStrings) " Alice" <> ""%string /\
  (forall u, In u (users stateAlice) ->
             toLowerCase (JSString := asciiStrings) (User.name u)
             <> toLowerCase (JSString := asciiStrings) " Alice") /\
  submitDisabled (getUserCount stateAlice) borrower = false /\
  exists (s' : LendingState) (added : User.t),
    handleSubmit (js := asciiStrings) 3000 stateAlice " Alice" borrower
      = Done s' /\
    users s' = users stateAlice ++ [added] /\
    User.name added = User.name alice /\
    currentUser s' = Some added.
Proof.
  assert (Hus : users stateAlice = [alice]) by (vm_compute; reflexivity).
  assert (Hin : In alice (users stateAlice))
    by (rewrite Hus; left; reflexivity).
  assert (Hname : User.name alice = trim (JSString := asciiStrings) " Alice")
    by (vm_compute; reflexivity).
  assert (Hne : trim (JSString := asciiStrings) " Alice" <> ""%string)
    by (vm_compute; discriminate).
  assert (Hdiff : forall u, In u (users stateAlice) ->
             toLowerCase (JSString := asciiStrings) (User.name u)
             <> toLowerCase (JSString := asciiStrings) " Alice").
  { intros u Hu. rewrite Hus in Hu. destruct Hu as [<- | []].
    vm_compute. discriminate. }
  assert (Hen : submitDisabled (getUserCount stateAlice) borrower = false)
    by (vm_compute; reflexivity).
  split; [exact Hin|]. split; [exact Hname|]. split; [exact Hne|].
  split; [exact Hdiff|]. split; [exact Hen|].
  exact (padded_name_passes_duplicate_check (js := asciiStrings) 3000%Z
           stateAlice " Alice" borrower alice Hin Hname Hne Hdiff Hen).
Defined.

(** X24. For a name typed without surrounding white space the duplicate
    check does its work: if the registered names are pairwise different
    when compared in lower case and the form accepts a name that is its
    own trimmed form, the names are still pairwise different afterwards,
    and the new user carries that name. *)
Theorem trimmed_names_stay_distinct {js : JSString} :
  forall (now : Date) (s s' : LendingState) (name : string) (role : Role),
    NoDup (map lowerName (users s)) ->
    trim name = name ->
    handleSubmit now s name role = Done s' ->
    NoDup (map lowerName (users s')) /\
    exists added : User.t,
      users s' = users s ++ [added] /\ User.name added = name.
Proof.
  intros now s s' name role Hnd Htrim Hsub.
  unfold handleSubmit in Hsub. rewrite Htrim in Hsub.
  destruct (String.eqb name ""); [discriminate|].
  destruct (existsb _ (users s)) eqn:Hex; [discriminate|].
  apply registerUser_Done in Hsub. subst s'. simpl.
  split; [|eexists; split; reflexivity].
  rewrite map_app. simpl. apply NoDup_snoc; [exact Hnd|].
  intro Hin. apply in_map_iff in Hin. destruct Hin as (u & Hu & Hin).
  rewrite existsb_false_forall in Hex. specialize (Hex u Hin).
  apply String.eqb_neq in Hex. apply Hex. exact Hu.
Qed.

Lemma trimmed_names_stay_distinct_witness :
  NoDup (map (lowerName (js := asciiStrings)) (users stateAlice)) /\
  trim (JSString := asciiStrings) "Bob" = "Bob"%string /\
  exists s' : LendingState,
    handleSubmit (js := asciiStrings) 3000 stateAlice "Bob" borrower
      = Done s' /\
    NoDup (map (lowerName (js := asciiStrings)) (users s')) /\
    exists added : User.t,
      users s' = users stateAlice ++ [added] /\
      User.name added = "Bob"%string.
Proof.
  assert (Hnd : NoDup (map (lowerName (js := asciiStrings))
                         (users stateAlice))).
  { replace (map (lowerName (js := asciiStrings)) (users stateAlice))
      with ["alice"%string] by (vm_compute; reflexivity).
    constructor; [intros [] | constructor]. }
  assert (Htrim : trim (JSString := asciiStrings) "Bob" = "Bob"%string)
    by (vm_compute; reflexivity).
  assert (Hsub : handleSubmit (js := asciiStrings) 3000 stateAlice "Bob"
                   borrower = Done stateBobJoined)
    by (vm_compute; reflexivity).
  split; [exact Hnd|]. split; [exact Htrim|].
  exists stateBobJoined. split; [exact Hsub|].
  exact (trimmed_names_stay_distinct (js := asciiStrings) 3000%Z stateAlice
           stateBobJoined "Bob" borrower Hnd Htrim Hsub).
Defined.

(** ** What the dashboards let through *)

Lemma reachableOffered_reachable {cal : Calendar} (s : LendingState) :
  reachableOffered s -> reachable s.
Proof.
  induction 1 as [|now c s s' _ IH _ Hfresh Hd].
  - apply reachable_init.
  - exact (reachable_step now c s s' IH Hfresh Hd).
Qed.

(** The screens as rendered offer no more than the dashboards do. *)
Lemma reachableOnScreen_offered {cal : Calendar} (s : LendingState) :
  reachableOnScreen s -> reachableOffered s.
Proof.
  induction 1 as [|now c s s' _ IH Hoff _ Hfresh Hd].
  - apply offered_init.
  - exact (offered_step now c s s' IH Hoff Hfresh Hd).
Qed.

Lemma offered_invariant {cal : Calendar} (P : LendingState -> Prop) :
  P initialState ->
  (forall (now : Date) (c : Command) (s s' : LendingState),
      reachable s -> P s -> offered s c -> transition now s c s' -> P s') ->
  forall s : LendingState, reachableOffered s -> P s.
Proof.
  intros Hinit Hstep s Hreach.
  induction Hreach as [|now c s s' Hreach IH Hoff Hfresh Hd].
  - exact Hinit.
  - apply (Hstep now c s s' (reachableOffered_reachable s Hreach) IH Hoff).
    exact (dispatch_transition now c s s' Hfresh Hd).
Qed.

Lemma run_reachableOffered {cal : Calendar} :
  forall (script : list (Date * Command)) (s s' : LendingState),
    reachableOffered s ->
    offeredAlong script s ->
    run script s = Done s' ->
    reachableOffered s'.
Proof.
  induction script as [|[now c] rest IH]; simpl; intros s s' Hreach Hoff Hrun.
  - injection Hrun as <-. exact Hreach.
  - destruct Hoff as (Hoff & Hfresh & Hrest).
    destruct (dispatch now c s) as [s1|msg] eqn:Hd; [|discriminate].
    apply (IH s1 s'); [|exact Hrest|exact Hrun].
    exact (offered_step now c s s1 Hreach Hoff Hfresh Hd).
Qed.

(** The loan a decision button or a payment form of the dashboards names
    is the loan the command finds. *)
Lemma offered_decision_is_pending (s : LendingState) (loanId : string)
    (loan : Loan.t) :
  uniqueLoanIds s ->
  In loanId (map Loan.id (pendingLoans (loans s))) ->
  findLoan loanId (loans s) = Some loan ->
  Loan.status loan = pending.
Proof.
  intros Huniq Hin Hfind.
  apply in_map_iff in Hin. destruct Hin as (l0 & Hid0 & Hin0).
  unfold pendingLoans in Hin0. apply filter_In in Hin0.
  destruct Hin0 as [Hin0 Hst0].
  destruct (findLoan_In _ _ _ Hfind) as [Hin Hid].
  assert (l0 = loan) as ->
    by (apply (unique_by_id (loans s)); try assumption; congruence).
  destruct (Loan.status loan); simpl in Hst0; congruence.
Qed.

Lemma offered_payment_is_own (s : LendingState) (loanId : string)
    (loan : Loan.t) :
  uniqueLoanIds s ->
  In loanId (map Loan.id (activeLoans (borrowerLoans s))) ->
  findLoan loanId (loans s) = Some loan ->
  Loan.borrowerId loan = currentUserId s.
Proof.
  intros Huniq Hin Hfind.
  apply in_map_iff in Hin. destruct Hin as (l0 & Hid0 & Hin0).
  unfold activeLoans, borrowerLoans in Hin0.
  apply filter_In in Hin0. destruct Hin0 as [Hin0 _].
  apply filter_In in Hin0. destruct Hin0 as [Hin0 Hown].
  destruct (findLoan_In _ _ _ Hfind) as [Hin Hid].
  assert (l0 = loan) as ->
    by (apply (unique_by_id (loans s)); try assumption; congruence).
  apply String.eqb_eq, Hown.
Qed.

Lemma sweepLoan_owner (now : Date) (l : Loan.t) :
  Loan.borrowerId (sweepLoan now l) = Loan.borrowerId l.
Proof.
  unfold sweepLoan. destruct (_ && _); [|reflexivity].
  destruct (negb _ && negb _); reflexivity.
Qed.

(** X25. Through the dashboards a decision is final. In a state reached by
    commands the dashboards offer, no offered command changes the status
    of a loan that is already approved or rejected: the decision buttons
    exist for pending loans only. *)
Theorem offered_decisions_are_final {cal : Calendar} :
  forall (now : Date) (c : Command) (s s' : LendingState) (i : nat)
         (l l' : Loan.t),
    reachableOffered s ->
    offered s c ->
    freshLoanId now c s ->
    dispatch now c s = Done s' ->
    nth_error (loans s) i = Some l ->
    nth_error (loans s') i = Some l' ->
    Loan.status l <> pending ->
    Loan.status l' = Loan.status l.
Proof.
  intros now c s s' i l l' Hreach Hoff Hfresh Hd Hl Hl' Hdecided.
  assert (Hr := reachableOffered_reachable s Hreach).
  assert (Huniq : uniqueLoanIds s) by apply (reachable_ledgerInv s Hr).
  assert (Hstep := dispatch_transition now c s s' Hfresh Hd).
  assert (Hin : In l (loans s)) by apply (nth_error_In _ _ Hl).
  assert (Hdec : forall loanId loan g,
             In loanId (map Loan.id (pendingLoans (loans s))) ->
             findLoan loanId (loans s) = Some loan ->
             nth_error (updateLoans loanId g (loans s)) i = Some l' ->
             l' = l).
  { intros loanId loan g Hpend Hfind Hi'.
    rewrite (nth_error_updateLoans _ _ _ _ _ Hl) in Hi'.
    injection Hi' as <-.
    destruct (String.eqb (Loan.id l) loanId) eqn:E; [|reflexivity].
    apply String.eqb_eq in E. exfalso. apply Hdecided.
    destruct (findLoan_In _ _ _ Hfind) as [Hin' Hid'].
    assert (l = loan) as ->
      by (apply (unique_by_id (loans s)); try assumption; congruence).
    exact (offered_decision_is_pending s loanId loan Huniq Hpend Hfind). }
  destruct Hstep as [ c | | | | | amount paymentSchedule _ _ _ _ _
                      | loanId loan _ Hfind _ | loanId loan _ Hfind
                      | loanId loan amount method _ Hfind Hst _ _
                      | | ];
    simpl in Hl', Hoff; try congruence.
  - rewrite nth_error_app1 in Hl' by (apply nth_error_Some; congruence).
    congruence.
  - destruct Hoff as [_ Hpend].
    rewrite (Hdec loanId loan _ Hpend Hfind Hl'). reflexivity.
  - destruct Hoff as [_ Hpend].
    rewrite (Hdec loanId loan _ Hpend Hfind Hl'). reflexivity.
  - rewrite (nth_error_updateLoans _ _ _ _ _ Hl) in Hl'.
    injection Hl' as <-.
    destruct (String.eqb (Loan.id l) loanId) eqn:E; [|reflexivity].
    apply String.eqb_eq in E.
    destruct (findLoan_In _ _ _ Hfind) as [Hin' Hid'].
    assert (l = loan) as ->
      by (apply (unique_by_id (loans s)); try assumption; congruence).
    apply (applyPayment_frame now amount loan).
  - destruct i; discriminate.
  - rewrite (map_nth_error (sweepLoan now) _ _ Hl) in Hl'.
    injection Hl' as <-. apply (sweepLoan_frame now l).
Qed.

Lemma stateB_reachableOffered :
  reachableOffered (cal := plainCalendar) stateB.
Proof.
  apply (run_reachableOffered (cal := plainCalendar) scenarioB initialState).
  - apply offered_init.
  - vm_compute. intuition (auto; discriminate).
  - vm_compute. reflexivity.
Qed.

Lemma offered_decisions_are_final_witness :
  Loan.status (loanIn statePaid) = Loan.status (loanIn stateB).
Proof.
  assert (Hb : loans stateB = [loanIn stateB]) by (vm_compute; reflexivity).
  assert (Hp : loans statePaid = [loanIn statePaid])
    by (vm_compute; reflexivity).
  apply (offered_decisions_are_final (cal := plainCalendar) 9000%Z
           (RecordPayment "4000" 168 cash) stateB statePaid 0
           (loanIn stateB) (loanIn statePaid)).
  - exact stateB_reachableOffered.
  - vm_compute. split; [reflexivity | left; reflexivity].
  - exact I.
  - vm_compute. reflexivity.
  - rewrite Hb. reflexivity.
  - rewrite Hp. reflexivity.
  - vm_compute. discriminate.
Defined.

Lemma activeCount_app (b : string) (ls ls' : list Loan.t) :
  activeCount b (ls ++ ls') = (activeCount b ls + activeCount b ls')%nat.
Proof.
  unfold activeCount. rewrite filter_app, length_app. reflexivity.
Qed.

Lemma activeCount_none (b : string) (ls : list Loan.t) :
  existsb (isActiveLoanOf b) ls = false -> activeCount b ls = 0%nat.
Proof.
  unfold activeCount. induction ls as [|l ls IH]; simpl; [reflexivity|].
  intros H. apply orb_false_iff in H. destruct H as [H1 H2].
  rewrite H1. exact (IH H2).
Qed.

Lemma activeCount_map (b : string) (g : Loan.t -> Loan.t)
    (ls : list Loan.t) :
  (forall l, In l ls ->
     isActiveLoanOf b (g l) = true -> isActiveLoanOf b l = true) ->
  (activeCount b (map g ls) <= activeCount b ls)%nat.
Proof.
  unfold activeCount. induction ls as [|l ls IH]; simpl; intros H; [lia|].
  assert (IH' := IH (fun l' Hl' => H l' (or_intror Hl'))).
  destruct (isActiveLoanOf b (g l)) eqn:E.
  - rewrite (H l (or_introl eq_refl) E). simpl. lia.
  - destruct (isActiveLoanOf b l); simpl; lia.
Qed.

Lemma activeCount_updateLoans (b loanId : string) (g : Loan.t -> Loan.t)
    (ls : list Loan.t) :
  (forall l, In l ls -> Loan.id l = loanId ->
     isActiveLoanOf b (g l) = true -> isActiveLoanOf b l = true) ->
  (activeCount b (updateLoans loanId g ls) <= activeCount b ls)%nat.
Proof.
  intros H. unfold updateLoans. apply activeCount_map.
  intros l Hin. destruct (String.eqb (Loan.id l) loanId) eqn:E; [|tauto].
  apply String.eqb_eq in E. exact (H l Hin E).
Qed.

Lemma isActiveLoanOf_same (b : string) (l l' : Loan.t) :
  Loan.borrowerId l' = Loan.borrowerId l ->
  Loan.status l' = Loan.status l ->
  isActiveLoanOf b l' = isActiveLoanOf b l.
Proof.
  intros Hb Hs. unfold isActiveLoanOf. rewrite Hb, Hs. reflexivity.
Qed.

(** X26. Through the dashboards a borrower has at most one loan that is
    pending or approved: the request form disappears while such a loan
    exists, decisions are offered for pending loans only, and
    [requestLoan] itself refuses a second one. *)
Theorem one_active_loan_per_borrower {cal : Calendar} :
  forall (s : LendingState) (borrowerId : string),
    reachableOffered s ->
    (activeCount borrowerId (loans s) <= 1)%nat.
Proof.
  intros s b Hreach. revert s Hreach.
  apply (offered_invariant (fun s => (activeCount b (loans s) <= 1)%nat));
    [unfold activeCount; simpl; lia|].
  intros now c s s' Hr IH Hoff Hstep.
  assert (Huniq : uniqueLoanIds s) by apply (reachable_ledgerInv s Hr).
  assert (Hsame : forall loanId loan,
             findLoan loanId (loans s) = Some loan ->
             forall l, In l (loans s) -> Loan.id l = loanId -> l = loan).
  { intros loanId loan Hfind l Hin Hid.
    destruct (findLoan_In _ _ _ Hfind) as [Hin' Hid'].
    apply (unique_by_id (loans s)); try assumption; congruence. }
  destruct Hstep as [ c | | | | | amount paymentSchedule _ _ _ Hnone _
                      | loanId loan _ Hfind _ | loanId loan _ Hfind
                      | loanId loan amount method _ Hfind Hst _ _
                      | | ];
    simpl in Hoff |- *; try exact IH.
  - rewrite activeCount_app.
    unfold activeCount at 2. simpl.
    destruct (isActiveLoanOf b (newLoan now s amount paymentSchedule)) eqn:E;
      simpl; [|lia].
    unfold isActiveLoanOf in E. simpl in E.
    apply andb_true_iff in E. destruct E as [E _].
    apply String.eqb_eq in E. rewrite <- E.
    rewrite (activeCount_none _ _ Hnone). lia.
  - destruct Hoff as [_ Hpend].
    assert (Hp := offered_decision_is_pending s loanId loan Huniq Hpend Hfind).
    etransitivity; [|exact IH].
    apply activeCount_updateLoans. intros l Hin Hid.
    rewrite (Hsame loanId loan Hfind l Hin Hid).
    unfold isActiveLoanOf, approveUpdate. simpl. rewrite Hp.
    destruct (String.eqb (Loan.borrowerId loan) b); intros H; exact H.
  - etransitivity; [|exact IH].
    apply activeCount_updateLoans. intros l Hin Hid.
    unfold isActiveLoanOf. simpl. rewrite andb_false_r. discriminate.
  - etransitivity; [|exact IH].
    apply activeCount_updateLoans. intros l Hin Hid.
    rewrite (Hsame loanId loan Hfind l Hin Hid).
    rewrite (isActiveLoanOf_same b loan (applyPayment now amount loan));
      [tauto | apply (applyPayment_frame now amount loan)
             | apply (applyPayment_frame now amount loan)].
  - unfold activeCount. simpl. lia.
  - etransitivity; [|exact IH].
    apply activeCount_map. intros l _.
    rewrite (isActiveLoanOf_same b l (sweepLoan now l));
      [tauto | apply sweepLoan_owner | apply (sweepLoan_frame now l)].
Qed.

Lemma one_active_loan_per_borrower_witness :
  (activeCount "3000" (loans stateB) <= 1)%nat.
Proof.
  apply (one_active_loan_per_borrower (cal := plainCalendar) stateB "3000").
  exact stateB_reachableOffered.
Defined.

Lemma paidByOwner_moves (ls ls' : list Loan.t) (p : Payment.t) :
  (forall l, In l ls ->
     exists l', In l' ls' /\ Loan.id l' = Loan.id l /\
                Loan.borrowerId l' = Loan.borrowerId l) ->
  paidByOwner ls p -> paidByOwner ls' p.
Proof.
  intros Hmove (l & Hin & Hid & Hb).
  destruct (Hmove l Hin) as (l' & Hin' & Hid' & Hb').
  exists l'. repeat split; congruence.
Qed.

Lemma updateLoans_keeps_owner (loanId : string) (g : Loan.t -> Loan.t)
    (ls : list Loan.t) :
  (forall l, In l ls -> Loan.id l = loanId ->
     Loan.id (g l) = Loan.id l /\ Loan.borrowerId (g l) = Loan.borrowerId l) ->
  forall l, In l ls ->
    exists l', In l' (updateLoans loanId g ls) /\ Loan.id l' = Loan.id l /\
               Loan.borrowerId l' = Loan.borrowerId l.
Proof.
  intros Hg l Hin. unfold updateLoans.
  exists (if String.eqb (Loan.id l) loanId then g l else l). split.
  - apply (in_map (fun l0 => if String.eqb (Loan.id l0) loanId
                             then g l0 else l0) ls l Hin).
  - destruct (String.eqb (Loan.id l) loanId) eqn:E; [|tauto].
    apply String.eqb_eq in E. exact (Hg l Hin E).
Qed.

(** X27. Through the dashboards every recorded payment was made by the
    borrower of the loan it names: the payment forms are built from the
    acting borrower's own loans, although [recordPayment] itself does not
    compare the two. *)
Theorem payments_come_from_the_borrower {cal : Calendar} :
  forall (s : LendingState) (p : Payment.t),
    reachableOffered s ->
    In p (payments s) ->
    paidByOwner (loans s) p.
Proof.
  intros s p Hreach. revert s Hreach p.
  apply (offered_invariant
           (fun s => forall p, In p (payments s) -> paidByOwner (loans s) p));
    [intros p []|].
  intros now c s s' Hr IH Hoff Hstep.
  assert (Huniq : uniqueLoanIds s) by apply (reachable_ledgerInv s Hr).
  assert (Hsame : forall loanId loan,
             findLoan loanId (loans s) = Some loan ->
             forall l, In l (loans s) -> Loan.id l = loanId -> l = loan).
  { intros loanId loan Hfind l Hin Hid.
    destruct (findLoan_In _ _ _ Hfind) as [Hin' Hid'].
    apply (unique_by_id (loans s)); try assumption; congruence. }
  destruct Hstep as [ c | | | | | amount paymentSchedule _ _ _ _ _
                      | loanId loan _ Hfind _ | loanId loan _ Hfind
                      | loanId loan amount method _ Hfind Hst _ _
                      | | ];
    simpl in Hoff |- *; try exact IH; intros p Hp.
  - apply (paidByOwner_moves (loans s)); [|exact (IH p Hp)].
    intros l Hin. exists l. split; [apply in_or_app; left; exact Hin|tauto].
  - apply (paidByOwner_moves (loans s)); [|exact (IH p Hp)].
    apply updateLoans_keeps_owner. intros l _ _. split; reflexivity.
  - apply (paidByOwner_moves (loans s)); [|exact (IH p Hp)].
    apply updateLoans_keeps_owner. intros l _ _. split; reflexivity.
  - assert (Hmove : forall l, In l (loans s) ->
              exists l', In l' (updateLoans loanId
                                  (fun _ => applyPayment now amount loan)
                                  (loans s)) /\
                         Loan.id l' = Loan.id l /\
                         Loan.borrowerId l' = Loan.borrowerId l).
    { apply updateLoans_keeps_owner. intros l Hin Hid.
      rewrite (Hsame loanId loan Hfind l Hin Hid).
      split; apply (applyPayment_frame now amount loan). }
    apply in_app_or in Hp. destruct Hp as [Hp | [<- | []]].
    + apply (paidByOwner_moves (loans s)); [exact Hmove | exact (IH p Hp)].
    + destruct Hoff as [_ Hown].
      destruct (findLoan_In _ _ _ Hfind) as [Hin Hid].
      destruct (Hmove loan Hin) as (l' & Hin' & Hid' & Hb').
      exists l'. split; [exact Hin'|]. simpl. split; [congruence|].
      rewrite Hb'.
      exact (offered_payment_is_own s loanId loan Huniq Hown Hfind).
  - destruct Hp.
  - apply (paidByOwner_moves (loans s)); [|exact (IH p Hp)].
    intros l Hin. exists (sweepLoan now l). split.
    + apply in_map. exact Hin.
    + split; [apply (sweepLoan_frame now l) | apply sweepLoan_owner].
Qed.

Lemma payments_come_from_the_borrower_witness :
  paidByOwner (loans stateB) (lastPayment stateB).
Proof.
  apply (payments_come_from_the_borrower (cal := plainCalendar) stateB
           (lastPayment stateB)).
  - exact stateB_reachableOffered.
  - assert (Hp : payments stateB = [lastPayment stateB])
      by (vm_compute; reflexivity).
    rewrite Hp. left. reflexivity.
Defined.

Lemma onScreen_loneUser {cal : Calendar} (s : LendingState) :
  reachableOnScreen s -> loneUser s.
Proof.
  induction 1 as [|now c s s' _ IH Hoff Hreg Hfresh Hd].
  - left. repeat split.
  - assert (Hstep := dispatch_transition now c s s' Hfresh Hd).
    clear Hd Hfresh.
    destruct Hstep as [ c | name role _ _ | userId user Hfind
                        | amount Hl _ | amount Hl _ _
                        | amount paymentSchedule Hb _ _ _ _
                        | loanId loan Hl Hfind _ | loanId loan Hl Hfind
                        | loanId loan amount method Hb Hfind Hst _ _
                        | u Hu _ | ].
    + exact IH.
    + assert (Hscreen := Hreg name role eq_refl).
      destruct IH as [(Hc & Hu & Hls & Hp) | (u & Hc & _)].
      * right. exists (newUser now name role). simpl.
        rewrite Hu, Hls, Hp. repeat split; try tauto.
        intros l [].
      * unfold screen in Hscreen. rewrite Hc in Hscreen.
        destruct (Role_eqb _ _); discriminate.
    + destruct IH as [(Hc & Hu & Hls & Hp) | (u & Hc & Hu & Hp & Hpend & Hlend)].
      * rewrite Hu in Hfind. discriminate.
      * right. exists u. rewrite Hu in Hfind. simpl in Hfind.
        destruct (String.eqb (User.id u) userId); [|discriminate].
        injection Hfind as <-. simpl. tauto.
    + destruct IH as [(Hc & _) | (u & H)].
      * unfold isLender in Hl. rewrite Hc in Hl. discriminate.
      * right. exists u. exact H.
    + destruct IH as [(Hc & _) | (u & H)].
      * unfold isLender in Hl. rewrite Hc in Hl. discriminate.
      * right. exists u. exact H.
    + destruct IH as [(Hc & _) | (u & Hc & Hu & Hp & Hpend & Hlend)].
      * unfold isBorrower in Hb. rewrite Hc in Hb. discriminate.
      * right. exists u. simpl. repeat split; try assumption.
        -- intros l Hin. apply in_app_or in Hin.
           destruct Hin as [Hin | [<- | []]]; [exact (Hpend l Hin)|reflexivity].
        -- intros Hrole. unfold isBorrower in Hb. rewrite Hc, Hrole in Hb.
           discriminate.
    + exfalso.
      destruct IH as [(Hc & _) | (u & Hc & Hu & Hp & Hpend & Hlend)].
      * unfold isLender in Hl. rewrite Hc in Hl. discriminate.
      * unfold isLender in Hl. rewrite Hc in Hl.
        rewrite Hlend in Hfind; [discriminate|].
        destruct (User.role u); [reflexivity | discriminate].
    + exfalso.
      destruct IH as [(Hc & _) | (u & Hc & Hu & Hp & Hpend & Hlend)].
      * unfold isLender in Hl. rewrite Hc in Hl. discriminate.
      * unfold isLender in Hl. rewrite Hc in Hl.
        rewrite Hlend in Hfind; [discriminate|].
        destruct (User.role u); [reflexivity | discriminate].
    + exfalso.
      destruct IH as [(Hc & _) | (u & Hc & Hu & Hp & Hpend & Hlend)].
      * unfold isBorrower in Hb. rewrite Hc in Hb. discriminate.
      * destruct (findLoan_In _ _ _ Hfind) as [Hin _].
        rewrite (Hpend loan Hin) in Hst. discriminate.
    + right. exists u. simpl. repeat split; tauto.
    + destruct IH as [(Hc & Hu & Hls & Hp) | (u & Hc & Hu & Hp & Hpend & Hlend)].
      * left. simpl. rewrite Hls. tauto.
      * right. exists u. simpl. repeat split; try assumption.
        -- intros l Hin. apply in_map_iff in Hin.
           destruct Hin as (l0 & <- & Hin0).
           rewrite <- (Hpend l0 Hin0). apply (sweepLoan_frame now l0).
        -- intros Hrole. rewrite (Hlend Hrole). reflexivity.
Qed.

(** X28. Through the screens as they are rendered, starting from an empty
    ledger, the ledger never gets a second user: the registration form is
    shown only while nobody is acting, and no screen clears the acting
    user.  So no loan is ever decided and no payment ever recorded. *)
Theorem screens_admit_a_single_user {cal : Calendar} :
  forall s : LendingState,
    reachableOnScreen s ->
    (length (users s) <= 1)%nat /\
    payments s = [] /\
    (forall l : Loan.t, In l (loans s) -> Loan.status l = pending).
Proof.
  intros s Hreach.
  destruct (onScreen_loneUser s Hreach)
    as [(Hc & Hu & Hls & Hp) | (u & Hc & Hu & Hp & Hpend & Hlend)].
  - rewrite Hu, Hls. simpl. repeat split; [lia | exact Hp | intros l []].
  - rewrite Hu. simpl. repeat split; [lia | exact Hp | exact Hpend].
Qed.

Lemma screens_admit_a_single_user_witness :
  (length (users stateAlone) <= 1)%nat /\
  payments stateAlone = [] /\
  (forall l : Loan.t, In l (loans stateAlone) -> Loan.status l = pending).
Proof.
  apply (screens_admit_a_single_user (cal := plainCalendar) stateAlone).
  apply (onScreen_step (cal := plainCalendar) 4000%Z (RequestLoan 300 monthly)
           (stateOf (registerUser 3000%Z initialState "Bob" borrower))).
  - apply (onScreen_step (cal := plainCalendar) 3000%Z
             (RegisterUser "Bob" borrower) initialState).
    + apply onScreen_init.
    + exact I.
    + intros name role _. reflexivity.
    + exact I.
    + vm_compute. reflexivity.
  - vm_compute. split; reflexivity.
  - intros name role H. discriminate H.
  - vm_compute. intros [].
  - vm_compute. reflexivity.
Defined.

(** * The ledger in binary64 arithmetic: properties *)

Module Binary64Facts.
Import Binary64.
Local Open Scope b64_scope.

(** ** Comparisons and exact cases of the arithmetic *)

Lemma b64_lt_le (a b : number) : lt a b = true -> le a b = true.
Proof.
  unfold lt, le, SFltb, SFleb.
  destruct (SFcompare a b) as [[| |]|]; intro H; congruence.
Qed.

Lemma b64_compare_refl (a : number) :
  SFcompare a a = Some Eq \/ SFcompare a a = None.
Proof.
  destruct a as [s|s| |s m e]; simpl; auto.
  - destruct s; auto.
  - left. rewrite Z.compare_refl, Pos.compare_cont_refl.
    destruct s; reflexivity.
Qed.

Lemma b64_lt_irrefl (a : number) : lt a a = false.
Proof.
  unfold lt, SFltb. destruct (b64_compare_refl a) as [-> | ->]; reflexivity.
Qed.

(** [x - x] is [+0] for a finite [x]. *)
Lemma b64_sub_diag (s : bool) (m : positive) (e : Z) :
  S754_finite s m e - S754_finite s m e = zero.
Proof.
  unfold sub, SFsub. rewrite Z.sub_diag. reflexivity.
Qed.

(** [Math.min(a, b)] is never above [a]. *)
Lemma b64_Math_min_not_above (a b : number) : gt (Math_min a b) a = false.
Proof.
  unfold Math_min, gt.
  destruct (isNaN a || isNaN b) eqn:Hnan.
  - destruct a; reflexivity.
  - destruct (lt a b) eqn:Hab; [apply b64_lt_irrefl|].
    destruct (lt b a) eqn:Hba; [exact Hab|].
    destruct a as [[|]| | |]; try exact Hab; apply b64_lt_irrefl.
Qed.

(** ** The commands *)

Lemma b64_findLoan_In (loanId : string) (ls : list Loan.t) (loan : Loan.t) :
  findLoan loanId ls = Some loan -> In loan ls /\ Loan.id loan = loanId.
Proof.
  intro Hfind. apply find_some in Hfind. destruct Hfind as [Hin Heq].
  split; [exact Hin | apply String.eqb_eq, Heq].
Qed.

Lemma b64_findLoan_update (loanId : string) (ls : list Loan.t)
    (loan updated : Loan.t) :
  findLoan loanId ls = Some loan ->
  Loan.id updated = loanId ->
  findLoan loanId
    (map (fun l => if String.eqb (Loan.id l) loanId then updated else l) ls)
  = Some updated.
Proof.
  unfold findLoan. intros Hfind Hid.
  induction ls as [|l ls IH]; simpl in *; [discriminate|].
  destruct (String.eqb (Loan.id l) loanId) eqn:E; simpl.
  - rewrite Hid, String.eqb_refl. reflexivity.
  - rewrite E. exact (IH Hfind).
Qed.

(** What [recordPayment] commits when it gets past its guards. *)
Lemma b64_recordPayment_commits {cal : Calendar} (now : Date)
    (s : LendingState) (loanId : string) (loan : Loan.t) (amount : number)
    (method : PaymentMethod) :
  isBorrower s = true ->
  findLoan loanId (loans s) = Some loan ->
  Loan.status loan = approved ->
  gt amount (remainingBalance loan) = false ->
  recordPayment now s loanId amount method
  = Done (with_payments
            (payments s ++ [newPayment now s loanId amount method loan])
            (with_loans
               (map (fun l => if String.eqb (Loan.id l) loanId
                              then applyPayment now amount loan else l)
                    (loans s))
               s)).
Proof.
  intros Hb Hfind Hst Hle. unfold recordPayment.
  rewrite Hb, Hfind, Hst. simpl.
  unfold remainingBalance in Hle. rewrite Hle. reflexivity.
Qed.

Lemma b64_recordPayment_refuses {cal : Calendar} (now : Date)
    (s : LendingState) (loanId : string) (loan : Loan.t) (amount : number)
    (method : PaymentMethod) :
  isBorrower s = true ->
  findLoan loanId (loans s) = Some loan ->
  Loan.status loan = approved ->
  gt amount (remainingBalance loan) = true ->
  recordPayment now s loanId amount method
  = Throw "Payment amount exceeds remaining balance".
Proof.
  intros Hb Hfind Hst Hgt. unfold recordPayment.
  rewrite Hb, Hfind, Hst. simpl.
  unfold remainingBalance in Hgt. rewrite Hgt. reflexivity.
Qed.

Lemma b64_applyPayment_frame {cal : Calendar} (now : Date) (amount : number)
    (loan : Loan.t) :
  Loan.id (applyPayment now amount loan) = Loan.id loan /\
  Loan.status (applyPayment now amount loan) = Loan.status loan /\
  Loan.totalDue (applyPayment now amount loan) = Loan.totalDue loan /\
  Loan.paymentSchedule (applyPayment now amount loan)
  = Loan.paymentSchedule loan /\
  Loan.principalPaid (applyPayment now amount loan)
  = Loan.principalPaid loan + principalPortion amount loan /\
  Loan.interestPaid (applyPayment now amount loan)
  = Loan.interestPaid loan + interestPortion amount loan.
Proof.
  unfold applyPayment. destruct (stillOwing _); repeat split.
Qed.

Lemma b64_run_reachable {cal : Calendar} :
  forall (script : list (Date * Command)) (s s' : LendingState),
    reachable s -> freshAlong script s -> run script s = Done s' ->
    reachable s'.
Proof.
  induction script as [|[now c] rest IH]; simpl; intros s s' Hreach Hfresh Hrun.
  - injection Hrun as <-. exact Hreach.
  - destruct Hfresh as [Hfresh Hrest].
    destruct (dispatch now c s) as [s1|msg] eqn:Hd; [|discriminate].
    apply (IH s1 s'); [|exact Hrest|exact Hrun].
    exact (reachable_step now c s s1 Hreach Hfresh Hd).
Qed.

(** The scripts of the scenarios run to their end. *)
Lemma b64_after_reachable (script : list (Date * Command)) (s : LendingState) :
  freshAlong (cal := plainCalendar) script initialState ->
  run (cal := plainCalendar) script initialState = Done s ->
  reachable (cal := plainCalendar) s.
Proof.
  intros Hfresh Hrun.
  exact (b64_run_reachable script initialState s reachable_init Hfresh Hrun).
Qed.

(** C6. Every payment [recordPayment] records carries the amount, the
    interest portion [Math.min(amount, remainingInterest)] and, as
    principal portion, the binary64 difference of the two.  Nothing is
    reassigned after that subtraction: the two portions add up to the
    amount again when one of them is zero, that is when the payment goes
    to interest or to principal as a whole. *)
Theorem recordPayment_splits_by_subtraction {cal : Calendar} :
  forall (now : Date) (s : LendingState) (loanId : string) (loan : Loan.t)
         (amount : number) (method : PaymentMethod),
    isBorrower s = true ->
    findLoan loanId (loans s) = Some loan ->
    Loan.status loan = approved ->
    gt amount (remainingBalance loan) = false ->
    exists (s' : LendingState) (p : Payment.t),
      recordPayment now s loanId amount method = Done s' /\
      payments s' = payments s ++ [p] /\
      Payment.amount p = amount /\
      Payment.interestAmount p = Math_min amount (remainingInterest loan) /\
      Payment.principalAmount p = amount - Payment.interestAmount p /\
      forall (m : positive) (e : Z),
        amount = S754_finite false m e ->
        Payment.interestAmount p = amount \/
        eqb (Payment.interestAmount p) zero = true ->
        Payment.principalAmount p + Payment.interestAmount p = amount.
Proof.
  intros now s loanId loan amount method Hb Hfind Hst Hle.
  exists (with_payments
            (payments s ++ [newPayment now s loanId amount method loan])
            (with_loans
               (map (fun l => if String.eqb (Loan.id l) loanId
                              then applyPayment now amount loan else l)
                    (loans s))
               s)),
         (newPayment now s loanId amount method loan).
  split; [exact (b64_recordPayment_commits now s loanId loan amount method
                   Hb Hfind Hst Hle)|].
  repeat split.
  intros m e Hamount Hcase. simpl.
  unfold principalPortion. simpl in Hcase.
  destruct Hcase as [Hall | Hnone].
  - rewrite Hall, Hamount. rewrite b64_sub_diag. reflexivity.
  - rewrite Hamount in *.
    destruct (interestPortion (S754_finite false m e) loan)
      as [sz|sz| |sz mz ez]; try discriminate Hnone;
      try (destruct sz; discriminate Hnone).
    reflexivity.
Qed.

Lemma recordPayment_splits_by_subtraction_witness :
  exists (s' : LendingState) (p : Payment.t),
    recordPayment (cal := plainCalendar) 8000 stateSmallLoan "4000"
      (decimal 57 100) cash = Done s' /\
    payments s' = payments stateSmallLoan ++ [p] /\
    Payment.amount p = decimal 57 100 /\
    Payment.interestAmount p
    = Math_min (decimal 57 100) (remainingInterest (loanIn stateSmallLoan)) /\
    Payment.principalAmount p = decimal 57 100 - Payment.interestAmount p /\
    forall (m : positive) (e : Z),
      decimal 57 100 = S754_finite false m e ->
      Payment.interestAmount p = decimal 57 100 \/
      eqb (Payment.interestAmount p) zero = true ->
      Payment.principalAmount p + Payment.interestAmount p = decimal 57 100.
Proof.
  apply (recordPayment_splits_by_subtraction (cal := plainCalendar) 8000%Z
           stateSmallLoan "4000" (loanIn stateSmallLoan) (decimal 57 100)
           cash); vm_compute; reflexivity.
Defined.

(** The payment of 0.57 on the loan of 3 is recorded as 0.06 of interest
    and 0.51 of principal, and in binary64 0.51 + 0.06 is
    0.5700000000000001. *)
Lemma portions_miss_amount_by_rounding :
  reachable (cal := plainCalendar) stateSmallLoan /\
  recordPayment (cal := plainCalendar) 8000 stateSmallLoan "4000"
    (decimal 57 100) cash = Done stateSplit /\
  payments stateSplit = [lastPayment stateSplit] /\
  Payment.amount (lastPayment stateSplit) = decimal 57 100 /\
  Payment.interestAmount (lastPayment stateSplit) = decimal 6 100 /\
  Payment.principalAmount (lastPayment stateSplit) = decimal 51 100 /\
  eqb (Payment.principalAmount (lastPayment stateSplit)
       + Payment.interestAmount (lastPayment stateSplit))
      (Payment.amount (lastPayment stateSplit)) = false /\
  gt (Payment.principalAmount (lastPayment stateSplit)
      + Payment.interestAmount (lastPayment stateSplit))
     (Payment.amount (lastPayment stateSplit)) = true.
Proof.
  split.
  - apply (b64_after_reachable scenarioSmallLoan).
    + vm_compute. intuition.
    + vm_compute. reflexivity.
  - repeat (split; [vm_compute; reflexivity|]); vm_compute; reflexivity.
Qed.








(** ** The paid fields and the payment history *)

Lemma b64_unique_by_id (ls : list Loan.t) (a b : Loan.t) :
  NoDup (map Loan.id ls) ->
  In a ls -> In b ls -> Loan.id a = Loan.id b -> a = b.
Proof.
  induction ls as [|x ls IH]; simpl; intros Hnd Ha Hb Hid; [contradiction|].
  inversion Hnd as [|? ? Hnotin Hnd']; subst.
  destruct Ha as [-> | Ha], Hb as [-> | Hb].
  - reflexivity.
  - exfalso. apply Hnotin. rewrite Hid. apply in_map, Hb.
  - exfalso. apply Hnotin. rewrite <- Hid. apply in_map, Ha.
  - apply IH; assumption.
Qed.

Lemma b64_paymentsOf_none (loanId : string) (ps : list Payment.t) :
  (forall p, In p ps -> Payment.loanId p <> loanId) ->
  paymentsOf loanId ps = [].
Proof.
  unfold paymentsOf. induction ps as [|p ps IH]; simpl; intro H; [reflexivity|].
  destruct (String.eqb (Payment.loanId p) loanId) eqn:E.
  - apply String.eqb_eq in E. exfalso. exact (H p (or_introl eq_refl) E).
  - apply IH. intros q Hq. apply H. right. exact Hq.
Qed.

Lemma b64_paymentsOf_snoc (loanId : string) (ps : list Payment.t)
    (p : Payment.t) :
  paymentsOf loanId (ps ++ [p])
  = paymentsOf loanId ps
    ++ (if String.eqb (Payment.loanId p) loanId then [p] else []).
Proof.
  unfold paymentsOf. rewrite filter_app. reflexivity.
Qed.

Lemma b64_historyInv_frame (s s' : LendingState) :
  loans s' = loans s -> payments s' = payments s ->
  historyInv s -> historyInv s'.
Proof.
  unfold historyInv. intros -> ->. tauto.
Qed.

(** A rewrite of the loans that keeps identifiers and paid fields. *)
Lemma b64_historyInv_map (f : Loan.t -> Loan.t) (s : LendingState) :
  (forall l, Loan.id (f l) = Loan.id l /\
             Loan.principalPaid (f l) = Loan.principalPaid l /\
             Loan.interestPaid (f l) = Loan.interestPaid l) ->
  historyInv s -> historyInv (with_loans (map f (loans s)) s).
Proof.
  intros Hf (Hnd & Hrefs & Hbal).
  assert (Hids : map Loan.id (map f (loans s)) = map Loan.id (loans s)).
  { rewrite map_map. apply map_ext. intro l. apply Hf. }
  unfold historyInv. simpl. rewrite Hids.
  split; [exact Hnd|]. split; [exact Hrefs|].
  intros loan' Hin. apply in_map_iff in Hin.
  destruct Hin as (l & <- & Hin).
  destruct (Hf l) as (-> & -> & ->). exact (Hbal l Hin).
Qed.

Lemma b64_sweepLoan_frame (now : Date) (l : Loan.t) :
  Loan.id (sweepLoan now l) = Loan.id l /\
  Loan.principalPaid (sweepLoan now l) = Loan.principalPaid l /\
  Loan.interestPaid (sweepLoan now l) = Loan.interestPaid l.
Proof.
  unfold sweepLoan. destruct (_ && _); [|auto].
  destruct (negb _ && negb _); simpl; auto.
Qed.

Lemma b64_requestLoan_historyInv (now : Date) (s s' : LendingState)
    (amount : number) (paymentSchedule : PaymentSchedule) :
  historyInv s ->
  ~ In (Date_now_toString now) (map Loan.id (loans s)) ->
  requestLoan now s amount paymentSchedule = Done s' ->
  historyInv s'.
Proof.
  intros Hinv Hfresh. unfold requestLoan.
  destruct (negb (isBorrower s)); [intro H; injection H as <-; exact Hinv|].
  destruct (gt amount MAX_LOAN_AMOUNT); [discriminate|].
  destruct (existsb _ _); [discriminate|].
  intro H. injection H as <-.
  destruct Hinv as (Hnd & Hrefs & Hbal).
  unfold historyInv. simpl. rewrite map_app. simpl.
  split; [apply NoDup_snoc; assumption|].
  split.
  - intros p Hp. apply in_or_app. left. exact (Hrefs p Hp).
  - intros loan Hin. apply in_app_or in Hin.
    destruct Hin as [Hin | [<- | []]]; [exact (Hbal loan Hin)|].
    simpl. rewrite b64_paymentsOf_none; [split; reflexivity|].
    intros p Hp Heq. apply Hfresh. rewrite <- Heq. exact (Hrefs p Hp).
Qed.

Lemma b64_approveLoan_historyInv {cal : Calendar} (now : Date)
    (s s' : LendingState) (loanId : string) (approve : bool) :
  historyInv s ->
  approveLoan now s loanId approve = Done s' ->
  historyInv s'.
Proof.
  intros Hinv. unfold approveLoan.
  destruct (negb (isLender s)); [intro H; injection H as <-; exact Hinv|].
  destruct (findLoan loanId (loans s)) as [loan|];
    [|intro H; injection H as <-; exact Hinv].
  destruct approve.
  - destruct (gt _ _); [discriminate|].
    intro H. injection H as <-.
    apply b64_historyInv_map; [|exact Hinv].
    intro l. destruct (String.eqb _ _); repeat split.
  - intro H. injection H as <-.
    apply b64_historyInv_map; [|exact Hinv].
    intro l. destruct (String.eqb _ _); repeat split.
Qed.

Lemma b64_fold_snoc {A : Type} (f : number -> A -> number) (xs : list A)
    (x : A) (acc : number) :
  fold_left f (xs ++ [x]) acc = f (fold_left f xs acc) x.
Proof. rewrite fold_left_app. reflexivity. Qed.

Lemma b64_recordPayment_historyInv {cal : Calendar} (now : Date)
    (s s' : LendingState) (loanId : string) (amount : number)
    (method : PaymentMethod) :
  historyInv s ->
  recordPayment now s loanId amount method = Done s' ->
  historyInv s'.
Proof.
  intros Hinv Hpay.
  destruct (isBorrower s) eqn:Hb;
    [|unfold recordPayment in Hpay; rewrite Hb in Hpay;
      injection Hpay as <-; exact Hinv].
  destruct (findLoan loanId (loans s)) as [loan|] eqn:Hfind;
    [|unfold recordPayment in Hpay; rewrite Hb, Hfind in Hpay;
      injection Hpay as <-; exact Hinv].
  destruct (Loan.status loan) eqn:Hst;
    try (unfold recordPayment in Hpay; rewrite Hb, Hfind, Hst in Hpay;
         injection Hpay as <-; exact Hinv).
  destruct (gt amount (remainingBalance loan)) eqn:Hgt.
  - rewrite (b64_recordPayment_refuses now s loanId loan amount method
               Hb Hfind Hst Hgt) in Hpay. discriminate.
  - rewrite (b64_recordPayment_commits now s loanId loan amount method
               Hb Hfind Hst Hgt) in Hpay.
    injection Hpay as <-.
    destruct Hinv as (Hnd & Hrefs & Hbal).
    destruct (b64_findLoan_In _ _ _ Hfind) as [Hin Hid].
    destruct (b64_applyPayment_frame now amount loan)
      as (Fid & _ & _ & _ & Fpp & Fip).
    assert (Hids : map Loan.id
                     (map (fun l => if String.eqb (Loan.id l) loanId
                                    then applyPayment now amount loan else l)
                          (loans s))
                   = map Loan.id (loans s)).
    { rewrite map_map. apply map_ext. intro l.
      destruct (String.eqb (Loan.id l) loanId) eqn:E; [|reflexivity].
      apply String.eqb_eq in E. congruence. }
    unfold historyInv. simpl. rewrite Hids.
    split; [exact Hnd|]. split.
    + intros p Hp. apply in_app_or in Hp.
      destruct Hp as [Hp | [<- | []]]; [exact (Hrefs p Hp)|].
      simpl. rewrite <- Hid. apply in_map, Hin.
    + intros loan' Hin'. apply in_map_iff in Hin'.
      destruct Hin' as (l & <- & Hl).
      rewrite b64_paymentsOf_snoc. simpl.
      destruct (String.eqb (Loan.id l) loanId) eqn:E.
      * apply String.eqb_eq in E.
        assert (l = loan) as ->
          by (apply (b64_unique_by_id (loans s)); try assumption; congruence).
        rewrite Fid, Hid, String.eqb_refl.
        unfold principalRecorded, interestRecorded.
        rewrite !b64_fold_snoc. simpl.
        destruct (Hbal loan Hin) as [Bpp Bip].
        rewrite Hid in Bpp, Bip.
        unfold principalRecorded in Bpp. unfold interestRecorded in Bip.
        rewrite <- Bpp, <- Bip. split; assumption.
      * rewrite String.eqb_sym, E, app_nil_r. exact (Hbal l Hl).
Qed.

Lemma b64_dispatch_historyInv {cal : Calendar} (now : Date) (c : Command)
    (s s' : LendingState) :
  historyInv s -> freshLoanId now c s -> dispatch now c s = Done s' ->
  historyInv s'.
Proof.
  intros Hinv Hfresh Hd. destruct c; simpl in Hd, Hfresh.
  - unfold registerUser in Hd.
    destruct (_ && _); [discriminate|]. destruct (_ && _); [discriminate|].
    injection Hd as <-. exact (b64_historyInv_frame s _ eq_refl eq_refl Hinv).
  - injection Hd as <-. unfold switchUser. destruct (find _ _); [|exact Hinv].
    exact (b64_historyInv_frame s _ eq_refl eq_refl Hinv).
  - unfold handleDeposit, depositCapital in Hd.
    destruct (_ || _); [discriminate|].
    destruct (negb _); injection Hd as <-; [exact Hinv|].
    exact (b64_historyInv_frame s _ eq_refl eq_refl Hinv).
  - unfold handleWithdraw, withdrawCapital in Hd.
    destruct (_ || _); [discriminate|].
    destruct (negb _); [injection Hd as <-; exact Hinv|].
    destruct (gt _ _); [discriminate|]. injection Hd as <-.
    exact (b64_historyInv_frame s _ eq_refl eq_refl Hinv).
  - unfold handleLoanRequest in Hd.
    destruct (_ || _); [discriminate|]. destruct (gt _ _); [discriminate|].
    exact (b64_requestLoan_historyInv now s s' _ _ Hinv Hfresh Hd).
  - exact (b64_approveLoan_historyInv now s s' _ _ Hinv Hd).
  - unfold handlePayment in Hd. destruct (_ || _); [discriminate|].
    exact (b64_recordPayment_historyInv now s s' _ _ _ Hinv Hd).
  - unfold systemReset in Hd. destruct (currentUser s) as [u|];
      [|injection Hd as <-; exact Hinv].
    destruct (negb _); injection Hd as <-; [exact Hinv|].
    unfold historyInv. simpl.
    split; [constructor|]. split; [intros p []|intros l []].
  - injection Hd as <-.
    apply b64_historyInv_map; [|exact Hinv]. apply b64_sweepLoan_frame.
Qed.

Lemma b64_reachable_historyInv {cal : Calendar} (s : LendingState) :
  reachable s -> historyInv s.
Proof.
  induction 1 as [|now c s s' _ IH Hfresh Hd].
  - unfold historyInv. simpl.
    split; [constructor|]. split; [intros p []|intros l []].
  - exact (b64_dispatch_historyInv now c s s' IH Hfresh Hd).
Qed.

(** X3. In every reachable state the paid fields of every loan are the
    running sums of the payment history, in binary64 as the code adds
    them: the principal paid is the principal portions of the payments
    recorded against the loan added up in the order of recording, and the
    interest paid is their interest portions added up in that order. *)
Theorem paid_fields_match_history {cal : Calendar} :
  forall (s : LendingState) (loan : Loan.t),
    reachable s -> In loan (loans s) ->
    Loan.principalPaid loan
    = principalRecorded (paymentsOf (Loan.id loan) (payments s)) /\
    Loan.interestPaid loan
    = interestRecorded (paymentsOf (Loan.id loan) (payments s)).
Proof.
  intros s loan Hreach Hin.
  destruct (b64_reachable_historyInv s Hreach) as (_ & _ & Hbal).
  exact (Hbal loan Hin).
Qed.

Lemma b64_stateOverpaid_reachable :
  reachable (cal := plainCalendar) stateOverpaid.
Proof.
  apply (b64_after_reachable scenarioOverpaid).
  - vm_compute. intuition.
  - vm_compute. reflexivity.
Qed.

Lemma paid_fields_match_history_witness :
  Loan.principalPaid (loanIn stateOverpaid)
  = principalRecorded
      (paymentsOf (Loan.id (loanIn stateOverpaid)) (payments stateOverpaid)) /\
  Loan.interestPaid (loanIn stateOverpaid)
  = interestRecorded
      (paymentsOf (Loan.id (loanIn stateOverpaid)) (payments stateOverpaid)).
Proof.
  apply (paid_fields_match_history (cal := plainCalendar) stateOverpaid
           (loanIn stateOverpaid)).
  - exact b64_stateOverpaid_reachable.
  - assert (Hloans : loans stateOverpaid = [loanIn stateOverpaid])
      by (vm_compute; reflexivity).
    rewrite Hloans. left. reflexivity.
Defined.

(** ** Payments, due dates and the sweep *)

(** X14. A payment after which [recordPayment] still finds the loan owing
    (the paid fields add up to less than the total due) restarts the cycle
    of the loan: the overdue flags are cleared, the due date is one
    schedule period after the payment and the total due keeps any earlier
    overdue interest; the first sweep after the new due date charges the
    schedule rate on the balance that is left, once more. *)
Theorem partial_payment_restarts_cycle {cal : Calendar} :
  forall (now : Date) (s : LendingState) (loanId : string) (loan : Loan.t)
         (amount : number) (method : PaymentMethod),
    isBorrower s = true ->
    findLoan loanId (loans s) = Some loan ->
    Loan.status loan = approved ->
    gt amount (remainingBalance loan) = false ->
    stillOwing (creditPayment amount loan) = true ->
    exists (s' : LendingState) (loan' : Loan.t),
      recordPayment now s loanId amount method = Done s' /\
      findLoan loanId (loans s') = Some loan' /\
      Loan.status loan' = approved /\
      Loan.isOverdue loan' = false /\
      Loan.overdueInterestApplied loan' = false /\
      Loan.dueDate loan'
      = Some (nextDueDate now (Loan.paymentSchedule loan)) /\
      Loan.totalDue loan' = Loan.totalDue loan /\
      forall now2 : Date,
        (nextDueDate now (Loan.paymentSchedule loan) < now2)%Z ->
        Loan.isOverdue (sweepLoan now2 loan') = true /\
        Loan.overdueInterestApplied (sweepLoan now2 loan') = true /\
        Loan.totalDue (sweepLoan now2 loan')
        = Loan.totalDue loan
          + remainingBalance loan'
            * interestRateOf (Loan.paymentSchedule loan).
Proof.
  intros now s loanId loan amount method Hb Hfind Hst Hle Howing.
  destruct (b64_findLoan_In _ _ _ Hfind) as [_ Hid].
  eexists. exists (applyPayment now amount loan).
  split; [exact (b64_recordPayment_commits now s loanId loan amount method
                   Hb Hfind Hst Hle)|].
  split.
  { simpl. apply (b64_findLoan_update loanId (loans s) loan); [exact Hfind|].
    rewrite <- Hid. apply (b64_applyPayment_frame now amount loan). }
  unfold applyPayment. rewrite Howing. simpl.
  repeat (split; [try reflexivity; exact Hst|]).
  intros now2 Hlate. unfold sweepLoan. simpl. rewrite Hst. simpl.
  assert (Hgt : (now2 >? nextDueDate now (Loan.paymentSchedule loan))%Z = true)
    by (rewrite Z.gtb_ltb; apply Z.ltb_lt; exact Hlate).
  rewrite Hgt. simpl. repeat split.
Qed.

Lemma partial_payment_restarts_cycle_witness :
  exists (s' : LendingState) (loan' : Loan.t),
    recordPayment (cal := plainCalendar) 8000 stateMonthly "4000" (ofZ 150)
      cash = Done s' /\
    findLoan "4000" (loans s') = Some loan' /\
    Loan.status loan' = approved /\
    Loan.isOverdue loan' = false /\
    Loan.overdueInterestApplied loan' = false /\
    Loan.dueDate loan'
    = Some (nextDueDate (cal := plainCalendar) 8000
              (Loan.paymentSchedule (loanIn stateMonthly))) /\
    Loan.totalDue loan' = Loan.totalDue (loanIn stateMonthly) /\
    forall now2 : Date,
      (nextDueDate (cal := plainCalendar) 8000
         (Loan.paymentSchedule (loanIn stateMonthly)) < now2)%Z ->
      Loan.isOverdue (sweepLoan now2 loan') = true /\
      Loan.overdueInterestApplied (sweepLoan now2 loan') = true /\
      Loan.totalDue (sweepLoan now2 loan')
      = Loan.totalDue (loanIn stateMonthly)
        + remainingBalance loan'
          * interestRateOf (Loan.paymentSchedule (loanIn stateMonthly)).
Proof.
  apply (partial_payment_restarts_cycle (cal := plainCalendar) 8000%Z
           stateMonthly "4000" (loanIn stateMonthly) (ofZ 150) cash);
    vm_compute; reflexivity.
Defined.

(** X15. A payment after which [recordPayment] no longer finds the loan
    owing leaves the loan approved and does not touch its due date or its
    overdue flags; so when that due date passes, the sweep flags the paid
    loan as overdue. *)
Theorem full_payment_keeps_due_date {cal : Calendar} :
  forall (now : Date) (s : LendingState) (loanId : string) (loan : Loan.t)
         (amount : number) (method : PaymentMethod),
    isBorrower s = true ->
    findLoan loanId (loans s) = Some loan ->
    Loan.status loan = approved ->
    gt amount (remainingBalance loan) = false ->
    stillOwing (creditPayment amount loan) = false ->
    exists (s' : LendingState) (loan' : Loan.t),
      recordPayment now s loanId amount method = Done s' /\
      findLoan loanId (loans s') = Some loan' /\
      stillOwing loan' = false /\
      Loan.status loan' = approved /\
      Loan.dueDate loan' = Loan.dueDate loan /\
      Loan.isOverdue loan' = Loan.isOverdue loan /\
      Loan.overdueInterestApplied loan' = Loan.overdueInterestApplied loan /\
      forall (now2 d : Date),
        Loan.dueDate loan = Some d -> (d < now2)%Z ->
        Loan.status (sweepLoan now2 loan') = approved /\
        Loan.isOverdue (sweepLoan now2 loan') = true.
Proof.
  intros now s loanId loan amount method Hb Hfind Hst Hle Hpaid.
  destruct (b64_findLoan_In _ _ _ Hfind) as [_ Hid].
  eexists. exists (applyPayment now amount loan).
  split; [exact (b64_recordPayment_commits now s loanId loan amount method
                   Hb Hfind Hst Hle)|].
  split.
  { simpl. apply (b64_findLoan_update loanId (loans s) loan); [exact Hfind|].
    rewrite <- Hid. apply (b64_applyPayment_frame now amount loan). }
  unfold applyPayment. rewrite Hpaid.
  split; [exact Hpaid|].
  repeat (split; [try reflexivity; exact Hst|]).
  intros now2 d Hdue Hlate. unfold sweepLoan. simpl. rewrite Hst, Hdue. simpl.
  assert (Hgt : (now2 >? d)%Z = true)
    by (rewrite Z.gtb_ltb; apply Z.ltb_lt; exact Hlate).
  rewrite Hgt. simpl.
  destruct (negb (Loan.isOverdue loan)
            && negb (Loan.overdueInterestApplied loan));
    simpl; split; try reflexivity; exact Hst.
Qed.

Lemma full_payment_keeps_due_date_witness :
  exists (s' : LendingState) (loan' : Loan.t),
    recordPayment (cal := plainCalendar) 9000 stateHalfPaid "4000" (ofZ 168)
      cash = Done s' /\
    findLoan "4000" (loans s') = Some loan' /\
    stillOwing loan' = false /\
    Loan.status loan' = approved /\
    Loan.dueDate loan' = Loan.dueDate (loanIn stateHalfPaid) /\
    Loan.isOverdue loan' = Loan.isOverdue (loanIn stateHalfPaid) /\
    Loan.overdueInterestApplied loan'
    = Loan.overdueInterestApplied (loanIn stateHalfPaid) /\
    forall (now2 d : Date),
      Loan.dueDate (loanIn stateHalfPaid) = Some d -> (d < now2)%Z ->
      Loan.status (sweepLoan now2 loan') = approved /\
      Loan.isOverdue (sweepLoan now2 loan') = true.
Proof.
  apply (full_payment_keeps_due_date (cal := plainCalendar) 9000%Z
           stateHalfPaid "4000" (loanIn stateHalfPaid) (ofZ 168) cash);
    vm_compute; reflexivity.
Defined.

(** X16. The interest portion of a recorded payment is never above the
    amount paid.  While the interest [recordPayment] counts as outstanding
    is not negative, the interest portion is not negative either.  When it
    is negative (the loan has paid more interest than one schedule's worth
    and its overdue flag has been cleared), the interest portion is that
    negative number. *)
Theorem payment_portions_bounds {cal : Calendar} :
  forall (now : Date) (s : LendingState) (loanId : string) (loan : Loan.t)
         (amount : number) (method : PaymentMethod),
    isBorrower s = true ->
    findLoan loanId (loans s) = Some loan ->
    Loan.status loan = approved ->
    lt zero amount = true ->
    gt amount (remainingBalance loan) = false ->
    exists (s' : LendingState) (p : Payment.t),
      recordPayment now s loanId amount method = Done s' /\
      payments s' = payments s ++ [p] /\
      Payment.amount p = amount /\
      gt (Payment.interestAmount p) amount = false /\
      (le zero (remainingInterest loan) = true ->
       le zero (Payment.interestAmount p) = true) /\
      (lt (remainingInterest loan) zero = true ->
       Payment.interestAmount p = remainingInterest loan /\
       lt (Payment.interestAmount p) zero = true).
Proof.
  intros now s loanId loan amount method Hb Hfind Hst Hpos Hle.
  eexists. exists (newPayment now s loanId amount method loan).
  split; [exact (b64_recordPayment_commits now s loanId loan amount method
                   Hb Hfind Hst Hle)|].
  split; [reflexivity|]. split; [reflexivity|]. simpl.
  unfold interestPortion.
  split; [apply b64_Math_min_not_above|].
  generalize (remainingInterest loan). intro r.
  split.
  - intro Hr. unfold Math_min.
    destruct (isNaN amount || isNaN r) eqn:Hnan.
    { destruct amount, r; simpl in Hnan; discriminate. }
    destruct (lt amount r); [exact (b64_lt_le _ _ Hpos)|].
    destruct (lt r amount); [exact Hr|].
    destruct amount as [[|]| | |]; try exact Hr; discriminate Hpos.
  - intro Hr.
    assert (Hmin : Math_min amount r = r).
    { unfold Math_min.
      destruct (isNaN amount || isNaN r) eqn:Hnan.
      { destruct amount, r; simpl in Hnan; discriminate. }
      destruct (lt amount r) eqn:Har.
      { exfalso. clear - Hpos Hr Har.
        destruct amount as [sa|sa| |sa ma ea]; try discriminate Hpos;
          destruct r as [sr|sr| |sr mr er]; try discriminate Hr;
          destruct sa; try discriminate Hpos;
          destruct sr; try discriminate Hr; discriminate Har. }
      destruct (lt r amount); [reflexivity|].
      destruct amount as [[|]| | |]; try reflexivity; discriminate Hpos. }
    rewrite Hmin. split; [reflexivity | exact Hr].
Qed.

Lemma payment_portions_bounds_witness :
  exists (s' : LendingState) (p : Payment.t),
    recordPayment (cal := plainCalendar) 2678413000 stateInterestAhead "4000"
      (ofZ 50) cash = Done s' /\
    payments s' = payments stateInterestAhead ++ [p] /\
    Payment.amount p = ofZ 50 /\
    gt (Payment.interestAmount p) (ofZ 50) = false /\
    (le zero (remainingInterest (loanIn stateInterestAhead)) = true ->
     le zero (Payment.interestAmount p) = true) /\
    (lt (remainingInterest (loanIn stateInterestAhead)) zero = true ->
     Payment.interestAmount p = remainingInterest (loanIn stateInterestAhead) /\
     lt (Payment.interestAmount p) zero = true).
Proof.
  apply (payment_portions_bounds (cal := plainCalendar) 2678413000%Z
           stateInterestAhead "4000" (loanIn stateInterestAhead) (ofZ 50)
           cash); vm_compute; reflexivity.
Defined.

(** In the state of that witness the outstanding interest is -18, and the
    payment of 50 is recorded as -18 of interest and 68 of principal. *)
Lemma b64_negative_interest_recorded :
  remainingInterest (loanIn stateInterestAhead) = - ofZ 18 /\
  interestPortion (ofZ 50) (loanIn stateInterestAhead) = - ofZ 18 /\
  principalPortion (ofZ 50) (loanIn stateInterestAhead) = ofZ 68.
Proof.
  repeat (split; [vm_compute; reflexivity|]); vm_compute; reflexivity.
Qed.

(** ** Who pays, and what a decision does to the capital *)

(** X17. [recordPayment] does not check who owns the loan: any acting
    borrower can pay any approved loan within its balance; the payment is
    recorded under the acting user's identifier, not under the loan's
    borrower, and its portions are added to the paid fields of that
    loan. *)
Theorem payment_ignores_loan_owner {cal : Calendar} :
  forall (now : Date) (s : LendingState) (loanId : string) (loan : Loan.t)
         (amount : number) (method : PaymentMethod),
    isBorrower s = true ->
    findLoan loanId (loans s) = Some loan ->
    Loan.status loan = approved ->
    gt amount (remainingBalance loan) = false ->
    Loan.borrowerId loan <> currentUserId s ->
    exists (s' : LendingState) (p : Payment.t) (loan' : Loan.t),
      recordPayment now s loanId amount method = Done s' /\
      payments s' = payments s ++ [p] /\
      Payment.loanId p = loanId /\
      Payment.borrowerId p = currentUserId s /\
      Payment.borrowerId p <> Loan.borrowerId loan /\
      findLoan loanId (loans s') = Some loan' /\
      Loan.borrowerId loan' = Loan.borrowerId loan /\
      Loan.principalPaid loan'
      = Loan.principalPaid loan + Payment.principalAmount p /\
      Loan.interestPaid loan'
      = Loan.interestPaid loan + Payment.interestAmount p.
Proof.
  intros now s loanId loan amount method Hb Hfind Hst Hle Hother.
  destruct (b64_findLoan_In _ _ _ Hfind) as [_ Hid].
  eexists. exists (newPayment now s loanId amount method loan),
                  (applyPayment now amount loan).
  split; [exact (b64_recordPayment_commits now s loanId loan amount method
                   Hb Hfind Hst Hle)|].
  split; [reflexivity|]. split; [reflexivity|]. split; [reflexivity|].
  split; [simpl; congruence|].
  split.
  { simpl. apply (b64_findLoan_update loanId (loans s) loan); [exact Hfind|].
    rewrite <- Hid. apply (b64_applyPayment_frame now amount loan). }
  unfold applyPayment. destruct (stillOwing _); repeat split.
Qed.

Lemma payment_ignores_loan_owner_witness :
  exists (s' : LendingState) (p : Payment.t) (loan' : Loan.t),
    recordPayment (cal := plainCalendar) 8000 stateCarol "4000" (ofZ 50) cash
      = Done s' /\
    payments s' = payments stateCarol ++ [p] /\
    Payment.loanId p = "4000"%string /\
    Payment.borrowerId p = currentUserId stateCarol /\
    Payment.borrowerId p <> Loan.borrowerId (loanIn stateCarol) /\
    findLoan "4000" (loans s') = Some loan' /\
    Loan.borrowerId loan' = Loan.borrowerId (loanIn stateCarol) /\
    Loan.principalPaid loan'
    = Loan.principalPaid (loanIn stateCarol) + Payment.principalAmount p /\
    Loan.interestPaid loan'
    = Loan.interestPaid (loanIn stateCarol) + Payment.interestAmount p.
Proof.
  apply (payment_ignores_loan_owner (cal := plainCalendar) 8000%Z stateCarol
           "4000" (loanIn stateCarol) (ofZ 50) cash);
    vm_compute; try reflexivity; discriminate.
Defined.

Lemma b64_findLoan_map (loanId : string) (g : Loan.t -> Loan.t)
    (ls : list Loan.t) (loan : Loan.t) :
  (forall l, Loan.id (g l) = Loan.id l) ->
  findLoan loanId ls = Some loan ->
  findLoan loanId
    (map (fun l => if String.eqb (Loan.id l) loanId then g l else l) ls)
  = Some (g loan).
Proof.
  unfold findLoan. intros Hg.
  induction ls as [|l ls IH]; simpl; [discriminate|].
  destruct (String.eqb (Loan.id l) loanId) eqn:E; simpl.
  - intro H. injection H as <-. rewrite Hg, E. reflexivity.
  - rewrite E. exact IH.
Qed.

(** Rewriting loans that are not approved into loans that are not
    approved keeps the list of the approved loans. *)
Lemma b64_approved_untouched (loanId : string) (g : Loan.t -> Loan.t)
    (ls : list Loan.t) :
  (forall l, In l ls -> Loan.id l = loanId ->
             Loan.status l <> approved /\ Loan.status (g l) <> approved) ->
  filter (fun loan => LoanStatus_eqb (Loan.status loan) approved)
    (map (fun l => if String.eqb (Loan.id l) loanId then g l else l) ls)
  = filter (fun loan => LoanStatus_eqb (Loan.status loan) approved) ls.
Proof.
  induction ls as [|l ls IH]; simpl; intro H; [reflexivity|].
  rewrite (IH (fun l' Hl' => H l' (or_intror Hl'))).
  destruct (String.eqb (Loan.id l) loanId) eqn:E; [|reflexivity].
  apply String.eqb_eq in E.
  destruct (H l (or_introl eq_refl) E) as [Hl Hgl].
  destruct (Loan.status l), (Loan.status (g l)); simpl; congruence.
Qed.

(** X20. With unique loan identifiers, rejecting a loan right after
    approving it gives the capital back to the last bit: when the lender
    approves a loan that was not approved and then rejects it, both
    decisions go through, the available capital is the number it was
    before, and the loan is rejected. *)
Theorem approve_then_reject_restores_capital {cal : Calendar} :
  forall (now1 now2 : Date) (s : LendingState) (loanId : string)
         (loan : Loan.t),
    NoDup (map Loan.id (loans s)) ->
    isLender s = true ->
    findLoan loanId (loans s) = Some loan ->
    Loan.status loan <> approved ->
    gt (Loan.amount loan) (availableCapital s) = false ->
    exists (s1 s2 : LendingState) (loan1 loan2 : Loan.t),
      approveLoan now1 s loanId true = Done s1 /\
      findLoan loanId (loans s1) = Some loan1 /\
      Loan.status loan1 = approved /\
      approveLoan now2 s1 loanId false = Done s2 /\
      findLoan loanId (loans s2) = Some loan2 /\
      Loan.status loan2 = rejected /\
      availableCapital s2 = availableCapital s.
Proof.
  intros now1 now2 s loanId loan Huniq Hl Hfind Hst Hle.
  destruct (b64_findLoan_In _ _ _ Hfind) as [Hin Hid].
  set (g1 := fun l : Loan.t =>
               Loan.with_dueDate
                 (Some (nextDueDate now1 (Loan.paymentSchedule loan)))
                 (Loan.with_approvedAt (Some now1)
                    (Loan.with_status approved l))).
  set (ls1 := map (fun l => if String.eqb (Loan.id l) loanId then g1 l else l)
                  (loans s)).
  set (ls2 := map (fun l => if String.eqb (Loan.id l) loanId
                            then Loan.with_status rejected l else l) ls1).
  assert (Hfind1 : findLoan loanId ls1 = Some (g1 loan))
    by (apply b64_findLoan_map; [reflexivity | exact Hfind]).
  assert (Hfind2 : findLoan loanId ls2
                   = Some (Loan.with_status rejected (g1 loan)))
    by (apply b64_findLoan_map; [reflexivity | exact Hfind1]).
  exists (with_loans ls1 s), (with_loans ls2 (with_loans ls1 s)),
         (g1 loan), (Loan.with_status rejected (g1 loan)).
  split.
  { unfold approveLoan. rewrite Hl, Hfind. simpl. rewrite Hle. reflexivity. }
  split; [exact Hfind1|]. split; [reflexivity|].
  split.
  { unfold approveLoan. change (isLender (with_loans ls1 s)) with (isLender s).
    rewrite Hl. simpl. rewrite Hfind1. reflexivity. }
  split; [exact Hfind2|]. split; [reflexivity|].
  unfold availableCapital, totalCapital, totalLoaned. simpl.
  assert (Hsame : filter (fun l => LoanStatus_eqb (Loan.status l) approved) ls2
                  = filter (fun l => LoanStatus_eqb (Loan.status l) approved)
                      (loans s)).
  { subst ls2 ls1. rewrite map_map.
    rewrite <- (b64_approved_untouched loanId
                  (fun l => Loan.with_status rejected (g1 l)) (loans s)).
    - f_equal. apply map_ext. intro l.
      destruct (String.eqb (Loan.id l) loanId) eqn:E; simpl; rewrite E;
        reflexivity.
    - intros l Hl' Hidl.
      assert (l = loan) as ->
        by (apply (b64_unique_by_id (loans s)); try assumption; congruence).
      split; [exact Hst | discriminate]. }
  rewrite Hsame. reflexivity.
Qed.

Lemma approve_then_reject_restores_capital_witness :
  exists (s1 s2 : LendingState) (loan1 loan2 : Loan.t),
    approveLoan (cal := plainCalendar) 7000 stateRejected "4000" true
      = Done s1 /\
    findLoan "4000" (loans s1) = Some loan1 /\
    Loan.status loan1 = approved /\
    approveLoan (cal := plainCalendar) 7500 s1 "4000" false = Done s2 /\
    findLoan "4000" (loans s2) = Some loan2 /\
    Loan.status loan2 = rejected /\
    availableCapital s2 = availableCapital stateRejected.
Proof.
  apply (approve_then_reject_restores_capital (cal := plainCalendar)
           7000%Z 7500%Z stateRejected "4000" (loanIn stateRejected)).
  - replace (map Loan.id (loans stateRejected)) with ["4000"%string]
      by (vm_compute; reflexivity).
    constructor; [intros [] | constructor].
  - vm_compute. reflexivity.
  - vm_compute. reflexivity.
  - vm_compute. discriminate.
  - vm_compute. reflexivity.
Defined.

End Binary64Facts.
